(** * NaiPromptManager: the worker gateway and the NovelAI client, verified

    A shallow embedding of [src/worker/index.ts] (the Cloudflare worker:
    routing, the shared-secret check, the D1 store operations with their
    schema-on-demand recovery, the NovelAI proxy) and of
    [src/services/naiService.ts] (the request compiler and the archive
    decoder), followed by the properties of the specification.

    Conventions of the embedding.
    - A JavaScript value is a [jsval]; a JavaScript number is a rational
      ([Q] contains every finite double; NaN and the infinities are not
      modelled), compared with [Qeq_bool] the way [===] compares numbers.
      The integers of the store (version numbers, timestamps) are in [Z]
      and enter a [jsval] through [VInt].
    - An exception is [Throw message]; [try]/[catch] is [try_catch].
    - The platform (D1, [JSON], [crypto], [Date], the outgoing [fetch],
      JSZip) is not part of the repository: it enters as interfaces
      ([D1Database], [Host], [Invocation], [Browser]), and a reference
      SQLite-like instance of [D1Database] built from the schema of
      [INIT_SQL] gives the store operations a concrete meaning. *)

From Stdlib Require Import ZArith QArith List String Ascii Bool Lia.
From Stdlib Require Import DecimalString Permutation.
Import ListNotations.

Set Warnings "-register-all".

Local Open Scope string_scope.
Local Open Scope list_scope.
Local Open Scope Z_scope.

(* ================================================================== *)
(** * JavaScript values *)
(* ================================================================== *)

Module Js.

(** [String.prototype.startsWith], [endsWith] and [includes]. *)
Definition startsWith (s pre : string) : bool := String.prefix pre s.

Definition endsWith (s suf : string) : bool :=
  (String.length suf <=? String.length s)%nat
  && String.eqb
       (String.substring (String.length s - String.length suf)
                         (String.length suf) s) suf.

Fixpoint includes (s sub : string) : bool :=
  String.prefix sub s
  || match s with
     | EmptyString => false
     | String _ rest => includes rest sub
     end.

(** [Array.prototype.join] on strings. *)
Fixpoint join (sep : string) (xs : list string) : string :=
  match xs with
  | [] => ""
  | [x] => x
  | x :: rest => x ++ sep ++ join sep rest
  end.

Inductive jsval : Type :=
| VUndefined
| VNull
| VBool (b : bool)
| VNum (q : Q)
| VStr (s : string)
| VArr (items : list jsval)
| VObj (fields : list (string * jsval)).

Definition VInt (z : Z) : jsval := VNum (inject_Z z).

(** A completion: a value, or a thrown error with its [message]. *)
Inductive completion (A : Type) : Type :=
| Normal (a : A)
| Throw (message : string).
Arguments Normal {A} a.
Arguments Throw {A} message.

(** The double quote, for the messages that contain one. *)
Definition dquote : string := String (Ascii.ascii_of_nat 34) "".

(** ToBoolean. *)
Definition truthy (v : jsval) : bool :=
  match v with
  | VUndefined | VNull => false
  | VBool b => b
  | VNum q => negb (Qeq_bool q 0)
  | VStr s => negb (String.eqb s "")
  | VArr _ | VObj _ => true
  end.

(** [a || b] and [a ?? b]. *)
Definition or_else (a b : jsval) : jsval := if truthy a then a else b.

Definition nullish (v : jsval) : bool :=
  match v with VUndefined | VNull => true | _ => false end.

Definition coalesce (a b : jsval) : jsval := if nullish a then b else a.

(** Own-property lookup in an object literal and assignment [o.k = v]. *)
Fixpoint lookup (k : string) (fields : list (string * jsval)) : option jsval :=
  match fields with
  | [] => None
  | (k', v) :: rest => if String.eqb k k' then Some v else lookup k rest
  end.

Fixpoint assign (k : string) (v : jsval) (fields : list (string * jsval))
  : list (string * jsval) :=
  match fields with
  | [] => [(k, v)]
  | (k', v') :: rest =>
      if String.eqb k k' then (k, v) :: rest else (k', v') :: assign k v rest
  end.

(** [o.k]: a TypeError on [undefined] and [null], [undefined] for a missing
    property and for the primitives (none of the names read by the code is
    a property of a primitive or of an array). *)
Definition get (o : jsval) (k : string) : completion jsval :=
  match o with
  | VUndefined => Throw ("Cannot read properties of undefined (reading '" ++ k ++ "')")
  | VNull => Throw ("Cannot read properties of null (reading '" ++ k ++ "')")
  | VObj fields =>
      Normal (match lookup k fields with Some v => v | None => VUndefined end)
  | _ => Normal VUndefined
  end.

(** [{...o}] copies the own properties of an object. *)
Definition spread (o : jsval) : list (string * jsval) :=
  match o with VObj fields => fields | _ => [] end.

(** SameValueZero on the values used as [Map] keys; objects and arrays are
    compared by identity, two separately built ones are never the same. *)
Definition same_value (a b : jsval) : bool :=
  match a, b with
  | VUndefined, VUndefined | VNull, VNull => true
  | VBool x, VBool y => Bool.eqb x y
  | VNum x, VNum y => Qeq_bool x y
  | VStr x, VStr y => String.eqb x y
  | _, _ => false
  end.

Definition and_then {A B} (c : completion A) (k : A -> completion B) : completion B :=
  match c with
  | Normal a => k a
  | Throw e => Throw e
  end.

Notation "x <~ c ;; k" := (and_then c (fun x => k))
  (at level 61, c at next level, right associativity).

(** [mapM] in the completion monad (a [forEach] or [map] whose callback can
    throw). *)
Fixpoint traverse {A B} (f : A -> completion B) (xs : list A) : completion (list B) :=
  match xs with
  | [] => Normal []
  | a :: rest =>
      match f a with
      | Throw e => Throw e
      | Normal b =>
          match traverse f rest with
          | Throw e => Throw e
          | Normal bs => Normal (b :: bs)
          end
      end
  end.

(** A [T | null | undefined] slot of a typed interface. *)
Inductive maybe (A : Type) : Type :=
| absent
| null
| present (a : A).
Arguments absent {A}.
Arguments null {A}.
Arguments present {A} a.

Definition maybe_js {A} (f : A -> jsval) (m : maybe A) : jsval :=
  match m with absent => VUndefined | null => VNull | present a => f a end.

End Js.
Import Js.

(* ================================================================== *)
(** * src/services/naiService.ts *)
(* ================================================================== *)

Module NaiService.

(** The two constants imported from [./promptUtils]: the quality suffix and
    the table of canned negative prompts, [None] where an index has no entry
    ([undefined]). *)
Class PromptUtils : Type := {
  NAI_QUALITY_TAGS : string;
  NAI_UC_PRESETS : Q -> option string
}.

(** [NAIParams] and its character entries, imported from [../types]: the
    fields [generateImage] reads, optional where it guards them. *)
Record Character : Type := {
  prompt : string;
  negativePrompt : maybe string;
  x : Q;
  y : Q
}.

Record NAIParams : Type := {
  seed : maybe Q;
  qualityToggle : maybe bool;
  ucPreset : maybe Q;
  characters : maybe (list Character);
  useCoords : maybe bool;
  width : Q;
  height : Q;
  scale : Q;
  sampler : string;
  steps : Q;
  variety : maybe bool;
  cfgRescale : maybe Q
}.

(** [let seed = undefined; if (params.seed !== undefined && params.seed !==
    null && params.seed !== -1) seed = params.seed]. *)
Definition sent_seed (params : NAIParams) : option Q :=
  match seed params with
  | present s => if negb (Qeq_bool s (-1)) then Some s else None
  | _ => None
  end.

Section Compile.
Context {PU : PromptUtils}.

(** [params.qualityToggle ?? true]. *)
Definition quality_on (params : NAIParams) : jsval :=
  coalesce (maybe_js VBool (qualityToggle params)) (VBool true).

Definition finalPrompt (prompt0 : string) (params : NAIParams) : string :=
  if truthy (quality_on params) then prompt0 ++ NAI_QUALITY_TAGS else prompt0.

(** [params.ucPreset ?? 0] stays a number: the field is a number when set. *)
Definition presetId (params : NAIParams) : Q :=
  match ucPreset params with present p => p | _ => 0 end.

Definition finalNegative (negative : string) (params : NAIParams) : string :=
  if negb (Qeq_bool (presetId params) 4) then
    match NAI_UC_PRESETS (presetId params) with
    | Some presetString =>
        if truthy (VStr presetString) then presetString ++ negative else negative
    | None => negative
    end
  else negative.

(** [params.characters && params.characters.length > 0]. *)
Definition hasCharacters (params : NAIParams) : jsval :=
  match characters params with
  | absent => VUndefined
  | null => VNull
  | present cs => VBool (0 <? Z.of_nat (List.length cs))
  end.

Definition the_characters (params : NAIParams) : list Character :=
  match characters params with present cs => cs | _ => [] end.

Definition center (c : Character) : jsval :=
  VArr [VObj [("x", VNum (x c)); ("y", VNum (y c))]].

Definition charCaptions (params : NAIParams) : list jsval :=
  if truthy (hasCharacters params) then
    map (fun c => VObj [("char_caption", VStr (prompt c)); ("centers", center c)])
        (the_characters params)
  else [].

Definition charNegativeCaptions (params : NAIParams) : list jsval :=
  if truthy (hasCharacters params) then
    map (fun c =>
           VObj [("char_caption",
                  or_else (maybe_js VStr (negativePrompt c)) (VStr ""));
                 ("centers", center c)])
        (the_characters params)
  else [].

Definition useCoordsFlag (params : NAIParams) : jsval :=
  coalesce (maybe_js VBool (useCoords params)) (hasCharacters params).

(** The [parameters] object literal, before the conditional [seed]. *)
Definition parameters_literal (prompt0 negative : string) (params : NAIParams)
  : list (string * jsval) :=
  [ ("params_version", VInt 3);
    ("width", VNum (width params));
    ("height", VNum (height params));
    ("scale", VNum (scale params));
    ("sampler", VStr (sampler params));
    ("steps", VNum (steps params));
    ("n_samples", VInt 1);
    ("skip_cfg_above_sigma",
       if truthy (maybe_js VBool (variety params)) then VInt 58 else VNull);
    ("cfg_rescale", coalesce (maybe_js VNum (cfgRescale params)) (VInt 0));
    ("qualityToggle", quality_on params);
    ("ucPreset", coalesce (maybe_js VNum (ucPreset params)) (VInt 0));
    ("sm", VBool false);
    ("sm_dyn", VBool false);
    ("dynamic_thresholding", VBool false);
    ("controlnet_strength", VInt 1);
    ("legacy", VBool false);
    ("add_original_image", VBool true);
    ("uncond_scale", VInt 1);
    ("noise_schedule", VStr "karras");
    ("negative_prompt", VStr (finalNegative negative params));
    ("v4_prompt",
       VObj [("caption",
                VObj [("base_caption", VStr (finalPrompt prompt0 params));
                      ("char_captions", VArr (charCaptions params))]);
             ("use_coords", useCoordsFlag params);
             ("use_order", VBool true)]);
    ("v4_negative_prompt",
       VObj [("caption",
                VObj [("base_caption", VStr (finalNegative negative params));
                      ("char_captions", VArr (charNegativeCaptions params))]);
             ("legacy_uc", VBool false)]);
    ("deliberate_euler_ancestral_bug", VBool false);
    ("prefer_brownian", VBool true) ].

(** [if (seed !== undefined) payload.parameters.seed = seed]. *)
Definition parameters (prompt0 negative : string) (params : NAIParams)
  : list (string * jsval) :=
  match sent_seed params with
  | Some s => assign "seed" (VNum s) (parameters_literal prompt0 negative params)
  | None => parameters_literal prompt0 negative params
  end.

Definition payload (prompt0 negative : string) (params : NAIParams) : jsval :=
  VObj [ ("input", VStr (finalPrompt prompt0 params));
         ("model", VStr "nai-diffusion-4-5-full");
         ("action", VStr "generate");
         ("parameters", VObj (parameters prompt0 negative params)) ].

End Compile.

(** ** The archive decoder *)

(** What the browser side of [generateImage] calls: the worker proxy
    ([api.postBinary]), JSZip and [JSON.parse]. A loaded archive is the
    list of its entries, name and content, in the order of
    [Object.keys(zip.files)]. *)
Definition ZipFiles : Type := list (string * string).

Class Browser : Type := {
  postBinary : string -> jsval -> list (string * string) -> completion string;
  loadAsync : string -> completion ZipFiles;
  base64 : string -> string;
  JSON_parse : string -> completion jsval
}.

Record Generated : Type := {
  image : string;
  resolved_seed : jsval
}.

Section Decode.
Context {BR : Browser}.

(** [zip.files[name]]. *)
Fixpoint file (name : string) (files : ZipFiles) : option string :=
  match files with
  | [] => None
  | (n, content) :: rest => if String.eqb name n then Some content else file name rest
  end.

(** [Object.keys(zip.files).find(f => f.endsWith('.json'))]. *)
Definition jsonFile (files : ZipFiles) : option string :=
  find (fun f => endsWith f ".json") (map fst files).

(** The [try { ... } catch (e) { console.error(...) }] around the metadata:
    the seed after it, given the seed before it. *)
Definition seed_from_metadata (jsonText : string) (actualSeed : jsval) : jsval :=
  match JSON_parse jsonText with
  | Normal json =>
      match get json "seed" with
      | Normal s => if truthy s then s else actualSeed
      | Throw _ => actualSeed
      end
  | Throw _ => actualSeed
  end.

(** [generateImage] from [JSZip.loadAsync]'s result on. *)
Definition decode (files : ZipFiles) (seed0 : option Q) : completion Generated :=
  match map fst files with
  | [] => Throw "No image found in response"
  | filename :: _ =>
      if negb (truthy (VStr filename)) then Throw "No image found in response"
      else
        match file filename files with
        | None => Throw "Cannot read properties of undefined (reading 'async')"
        | Some content =>
            let fileData := base64 content in
            let actualSeed := match seed0 with Some s => VNum s | None => VInt 0 end in
            let actualSeed :=
              match jsonFile files with
              | Some name =>
                  if truthy (VStr name) then
                    match file name files with
                    | Some jsonText => seed_from_metadata jsonText actualSeed
                    | None => actualSeed
                    end
                  else actualSeed
              | None => actualSeed
              end in
            Normal {| image := "data:image/png;base64," ++ fileData;
                      resolved_seed := actualSeed |}
        end
  end.

End Decode.

Section Generate.
Context {PU : PromptUtils} {BR : Browser}.

Definition generateImage (apiKey prompt0 negative : string) (params : NAIParams)
  : completion Generated :=
  match postBinary "/generate" (payload prompt0 negative params)
                   [("Authorization", ("Bearer " ++ apiKey)%string)] with
  | Throw e => Throw e
  | Normal blob =>
      match loadAsync blob with
      | Throw e => Throw e
      | Normal files => decode files (sent_seed params)
      end
  end.

End Generate.

End NaiService.

(* ================================================================== *)
(** * The D1 interface of src/worker/index.ts *)
(* ================================================================== *)

Module D1.

(** The statements the worker prepares, each with the values it binds, in
    the order of the [?] placeholders. A bound expression of static type
    [string] or [number] carries that type; an expression read from a
    request body is [any] in the source and a [jsval] here. *)
Inductive Stmt : Type :=
| SelectChains
    (* SELECT * FROM chains ORDER BY updated_at DESC *)
| SelectLatestVersions
    (* SELECT v.* FROM versions v INNER JOIN (SELECT chain_id, MAX(version)
       as max_ver FROM versions GROUP BY chain_id) grouped ON v.chain_id =
       grouped.chain_id AND v.version = grouped.max_ver *)
| InsertChain (id : string) (name description : jsval) (tags : string)
              (created_at updated_at : Z)
    (* INSERT INTO chains (id, name, description, tags, created_at,
       updated_at) VALUES (?, ?, ?, ?, ?, ?) *)
| InsertVersion (id chain_id : string) (version : Z)
                (base_prompt negative_prompt : jsval) (modules params : string)
                (created_at : Z)
    (* INSERT INTO versions (id, chain_id, version, base_prompt,
       negative_prompt, modules, params, created_at) VALUES (?, ..., ?) *)
| UpdateChain (fields : list string) (values : list jsval)
    (* UPDATE chains SET ${fields.join(', ')} WHERE id = ? *)
| DeleteChain (id : string)
    (* DELETE FROM chains WHERE id = ? *)
| SelectMaxVersion (chain_id : string)
    (* SELECT MAX(version) as max_v FROM versions WHERE chain_id = ? *)
| TouchChain (updated_at : Z) (id : string)
    (* UPDATE chains SET updated_at = ? WHERE id = ? *)
| SelectArtists
    (* SELECT * FROM artists ORDER BY name ASC *)
| UpsertArtist (id name image_url : jsval)
    (* INSERT OR REPLACE INTO artists (id, name, image_url) VALUES (?, ?, ?) *)
| DeleteArtist (id : string)
    (* DELETE FROM artists WHERE id = ? *)
| SelectInspirations
    (* SELECT * FROM inspirations ORDER BY created_at DESC *)
| UpsertInspiration (id title image_url prompt created_at : jsval)
    (* INSERT OR REPLACE INTO inspirations (id, title, image_url, prompt,
       created_at) VALUES (?, ?, ?, ?, ?) *)
| DeleteInspiration (id : string)
    (* DELETE FROM inspirations WHERE id = ? *)
| ExecInit
    (* db.exec(INIT_SQL) *).

(** What the worker reads of a statement's result: the [results] rows of
    [all()], the row of [first<{ max_v: number }>()] ([null] when there is
    none, [max_v] itself [null] for an empty aggregate), nothing of [run()]
    and [exec()]. *)
Definition ResultOf (s : Stmt) : Type :=
  match s with
  | SelectChains | SelectLatestVersions | SelectArtists | SelectInspirations =>
      list jsval
  | SelectMaxVersion _ => option (option Z)
  | _ => unit
  end.

(** [interface D1Database]: a database answers a statement with a result or
    a thrown error, and moves to a new state. *)
Class D1Database (DB : Type) : Type := {
  run : forall s : Stmt, DB -> completion (ResultOf s) * DB
}.

End D1.
Import D1.

(* ================================================================== *)
(** * src/worker/index.ts *)
(* ================================================================== *)

Module Worker.

(** ** Requests, responses and the environment *)

Inductive Body : Type :=
| NoBody
| JsonBody (data : jsval)          (* JSON.stringify(data) *)
| BlobBody (blob : string)
| AssetBody (content : string).

(** A response: the data [new Response(body, { status, headers })] was
    given, once the constructor has accepted it. *)
Record Response : Type := {
  status : Z;
  headers : list (string * string);
  body : Body
}.

(** A request: what the handler reads of it. [json_body] is the outcome of
    [request.json()], [x_master_key] that of
    [request.headers.get('X-Master-Key')]. *)
Record Request : Type := {
  method : string;
  path : string;
  x_master_key : option string;
  json_body : completion jsval
}.

(** [env.DB]: unbound, a string put there by a misconfiguration, or the D1
    binding. *)
Inductive Binding : Type :=
| NoBinding
| StringBinding (s : string)
| D1Binding.

Record Env : Type := {
  ASSETS : Request -> Response;
  DB : Binding;
  NAI_API_KEY : string;
  MASTER_KEY : string
}.

(** The answer of the outgoing [fetch]. *)
Record Upstream : Type := {
  up_status : Z;
  up_text : string;
  up_blob : string
}.

Definition ok (r : Upstream) : bool :=
  (200 <=? up_status r) && (up_status r <=? 299).

(** The globals of the worker runtime. *)
Class Host : Type := {
  JSON_parse : jsval -> completion jsval;
  JSON_stringify : jsval -> string;
  global_fetch : string -> list (string * string) -> string -> completion Upstream
}.

(** What [crypto.randomUUID()] and [Date.now()] return to one invocation of
    the handler, by call number. *)
Record Invocation : Type := {
  randomUUID : nat -> string;
  Date_now : nat -> Z
}.

(** ** The effects of the handler *)

Inductive Event : Type :=
| Query (s : Stmt)
| Outgoing (url : string) (request_headers : list (string * string)) (text : string).

Record World (S : Type) : Type := {
  store : S;
  log : list Event
}.
Arguments store {S} w.
Arguments log {S} w.
Arguments Build_World {S} store log.

Definition M (S A : Type) : Type := World S -> completion A * World S.

Definition ret {S A} (a : A) : M S A := fun w => (Normal a, w).

Definition throw {S A} (e : string) : M S A := fun w => (Throw e, w).

Definition bind {S A B} (m : M S A) (k : A -> M S B) : M S B :=
  fun w =>
    match m w with
    | (Normal a, w') => k a w'
    | (Throw e, w') => (Throw e, w')
    end.

Definition lift {S A} (c : completion A) : M S A := fun w => (c, w).

(** [try { m } catch (e) { h e.message }]. *)
Definition try_catch {S A} (m : M S A) (h : string -> M S A) : M S A :=
  fun w =>
    match m w with
    | (Normal a, w') => (Normal a, w')
    | (Throw e, w') => h e w'
    end.

Notation "x <- m ;; k" := (bind m (fun x => k))
  (at level 61, m at next level, right associativity).
Notation "m ;;; k" := (bind m (fun _ => k))
  (at level 61, right associativity).

(** [await db.prepare(sql).bind(...).run()] (or [all()], [first()]) and
    [await db.exec(INIT_SQL)]. *)
Definition query {S} `{D1Database S} (s : Stmt) : M S (ResultOf s) :=
  fun w =>
    let (r, d) := run s (store w) in
    (r, {| store := d; log := (log w ++ [Query s])%list |}).

Definition outgoing {S} `{Host} (url : string) (hs : list (string * string))
           (text : string) : M S Upstream :=
  fun w =>
    (global_fetch url hs text,
     {| store := store w; log := (log w ++ [Outgoing url hs text])%list |}).

(** ** Helpers of the source *)

Definition corsHeaders : list (string * string) :=
  [ ("Access-Control-Allow-Origin", "*");
    ("Access-Control-Allow-Methods", "GET, HEAD, POST, PUT, DELETE, OPTIONS");
    ("Access-Control-Allow-Headers", "Content-Type, Authorization, X-Master-Key") ].

(** [new Response(body, { status, headers })]. The constructor throws a
    RangeError for a status outside 200..599 and a TypeError for a body given
    with a null-body status. *)
Definition null_body_status (st : Z) : bool :=
  (st =? 101) || (st =? 204) || (st =? 205) || (st =? 304).

Definition has_body (b : Body) : bool :=
  match b with
  | NoBody => false
  | _ => true
  end.

Definition status_out_of_range : string :=
  "Responses may only be constructed with status codes in the range 200 to 599, inclusive.".

Definition null_body_with_body : string :=
  "Response with null body status (101, 204, 205, or 304) cannot have a body.".

Definition new_Response (b : Body) (hs : list (string * string)) (st : Z)
  : completion Response :=
  if (st <? 200) || (599 <? st) then Throw status_out_of_range
  else if has_body b && null_body_status st then Throw null_body_with_body
  else Normal {| status := st; headers := hs; body := b |}.

Definition json (data : jsval) (st : Z) : completion Response :=
  new_Response (JsonBody data)
    (("Content-Type", "application/json") :: corsHeaders) st.

Definition error (msg : string) (st : Z) : completion Response :=
  new_Response (JsonBody (VObj [("error", VStr msg)]))
    (("Content-Type", "application/json") :: corsHeaders) st.

(** ** Matching the paths *)

(** [s] without the prefix [pre], when it has it. *)
Fixpoint strip (pre s : string) : option string :=
  match pre with
  | EmptyString => Some s
  | String a pre' =>
      match s with
      | EmptyString => None
      | String b s' => if Ascii.eqb a b then strip pre' s' else None
      end
  end.

(** The longest prefix without a slash, and what follows it. *)
Fixpoint split_slash (s : string) : string * string :=
  match s with
  | EmptyString => ("", "")
  | String c rest =>
      if Ascii.eqb c "/"%char then ("", s)
      else let (seg, tail) := split_slash rest in (String c seg, tail)
  end.

(** [path.match(/^<pre>([^\/]+)<suf>$/)], the captured group. *)
Definition match_segment (pre suf path : string) : option string :=
  match strip pre path with
  | None => None
  | Some rest =>
      let (seg, tail) := split_slash rest in
      if negb (String.eqb seg "") && String.eqb tail suf then Some seg else None
  end.

Definition chainIdMatch (p : string) : option string :=
  match_segment "/api/chains/" "" p.

Definition versionsMatch (p : string) : option string :=
  match_segment "/api/chains/" "/versions" p.

Definition artistIdMatch (p : string) : option string :=
  match_segment "/api/artists/" "" p.

Definition inspIdMatch (p : string) : option string :=
  match_segment "/api/inspirations/" "" p.

(** ** The handler *)

(** [o.k = v] in module (strict) code. A property set on an array is not
    an element and is not kept. *)
Definition set_prop (o : jsval) (k : string) (v : jsval) : completion jsval :=
  match o with
  | VObj fields => Normal (VObj (assign k v fields))
  | VArr items => Normal (VArr items)
  | VUndefined => Throw ("Cannot set properties of undefined (setting '" ++ k ++ "')")
  | VNull => Throw ("Cannot set properties of null (setting '" ++ k ++ "')")
  | _ => Throw ("Cannot create property '" ++ k ++ "'")
  end.

(** [Map.prototype.set] and [get]. *)
Fixpoint map_set (k v : jsval) (m : list (jsval * jsval)) : list (jsval * jsval) :=
  match m with
  | [] => [(k, v)]
  | (k', v') :: rest =>
      if same_value k k' then (k', v) :: rest else (k', v') :: map_set k v rest
  end.

Fixpoint map_get (k : jsval) (m : list (jsval * jsval)) : jsval :=
  match m with
  | [] => VUndefined
  | (k', v) :: rest => if same_value k k' then v else map_get k rest
  end.

(** The two conditions under which a [catch] provisions the schema:
    [e.message && (e.message.includes('no such table') ||
    e.message.includes('object not found'))] in the chain handlers,
    [e.message && e.message.includes('no such table')] in the artist and
    inspiration handlers. *)
Definition missing_relation (e : string) : bool :=
  truthy (VStr e) && (includes e "no such table" || includes e "object not found").

Definition missing_table (e : string) : bool :=
  truthy (VStr e) && includes e "no such table".

(** [(maxVerResult?.max_v) || 0]. *)
Definition max_v_or_0 (maxVerResult : option (option Z)) : Z :=
  match maxVerResult with
  | Some (Some max_v) => if max_v =? 0 then 0 else max_v
  | _ => 0
  end.

Section Handler.
Context {S : Type} {D : D1Database S} {H : Host}.
Variable env : Env.
Variable request : Request.
Variable inv : Invocation.

Definition success : completion Response := json (VObj [("success", VBool true)]) 200.

(** The condition of the auth check. *)
Definition admin_only : bool :=
  (String.eqb (method request) "PUT" || String.eqb (method request) "DELETE")
  || (startsWith (path request) "/api/artists" && String.eqb (method request) "POST")
  || (startsWith (path request) "/api/inspirations" && String.eqb (method request) "POST").

(** [authHeader !== env.MASTER_KEY]. *)
Definition wrong_key : bool :=
  match x_master_key request with
  | Some k => negb (String.eqb k (MASTER_KEY env))
  | None => true
  end.

(** POST /api/verify-key *)
Definition verify_key : M S Response :=
  b <- lift (json_body request) ;;
  key <- lift (get b "key") ;;
  if same_value key (VStr (MASTER_KEY env)) then lift success
  else lift (error "Invalid Key" 401).

(** POST /api/generate *)
Definition generate : M S Response :=
  b <- lift (json_body request) ;;
  naiRes <- outgoing "https://image.novelai.net/ai/generate-image"
              [("Content-Type", "application/json");
               ("Authorization", ("Bearer " ++ NAI_API_KEY env)%string)]
              (JSON_stringify b) ;;
  if negb (ok naiRes) then
    lift (error ("NAI API Error: " ++ up_text naiRes) (up_status naiRes))
  else
    lift (new_Response (BlobBody (up_blob naiRes))
            (corsHeaders ++ [("Content-Type", "application/zip")])%list 200).

(** GET /api/chains *)
Definition hydrate (v : jsval) : completion (jsval * jsval) :=
  m <~ get v "modules" ;;
  modules <~ JSON_parse (or_else m (VStr "[]")) ;;
  v1 <~ set_prop v "modules" modules ;;
  p <~ get v1 "params" ;;
  params <~ JSON_parse (or_else p (VStr "{}")) ;;
  v2 <~ set_prop v1 "params" params ;;
  chain_id <~ get v2 "chain_id" ;;
  Normal (chain_id, v2).

Fixpoint build_version_map (rows : list jsval) (versionMap : list (jsval * jsval))
  : completion (list (jsval * jsval)) :=
  match rows with
  | [] => Normal versionMap
  | v :: rest =>
      kv <~ hydrate v ;;
      build_version_map rest (map_set (fst kv) (snd kv) versionMap)
  end.

Definition chain_view (versionMap : list (jsval * jsval)) (c : jsval)
  : completion jsval :=
  t <~ get c "tags" ;;
  tags <~ JSON_parse (or_else t (VStr "[]")) ;;
  id <~ get c "id" ;;
  Normal (VObj (assign "latestVersion" (or_else (map_get id versionMap) VNull)
                  (assign "tags" tags (spread c)))).

Definition list_chains : M S Response :=
  chains <- try_catch (query SelectChains)
              (fun e =>
                 if missing_relation e then
                   query ExecInit ;;; query SelectChains
                 else throw e) ;;
  versions <- query SelectLatestVersions ;;
  versionMap <- lift (build_version_map versions []) ;;
  data <- lift (traverse (chain_view versionMap) chains) ;;
  lift (json (VArr data) 200).

(** POST /api/chains *)
Definition defaultModules : string :=
  JSON_stringify
    (VArr [VObj [("id", VStr (randomUUID inv 2));
                 ("name", VStr "光照");
                 ("content", VStr "cinematic lighting");
                 ("isActive", VBool true)]]).

Definition defaultParams : string :=
  JSON_stringify
    (VObj [("width", VInt 832); ("height", VInt 1216); ("steps", VInt 28);
           ("scale", VInt 5); ("sampler", VStr "k_euler_ancestral")]).

Definition create_chain : M S Response :=
  b <- lift (json_body request) ;;
  name <- lift (get b "name") ;;
  description <- lift (get b "description") ;;
  let id := randomUUID inv 0 in
  let now := Date_now inv 0 in
  try_catch (query (InsertChain id name description "[]" now now))
    (fun e =>
       if missing_relation e then
         query ExecInit ;;; query (InsertChain id name description "[]" now now)
       else throw e) ;;;
  let vId := randomUUID inv 1 in
  query (InsertVersion vId id 1 (VStr "masterpiece, best quality, {character}")
           (VStr "lowres, bad anatomy") defaultModules defaultParams now) ;;;
  lift (json (VObj [("id", VStr id)]) 200).

(** PUT /api/chains/{id} *)
Definition pushed (updates : jsval) (k column : string)
  : completion (list string * list jsval) :=
  v <~ get updates k ;;
  match v with
  | VUndefined => Normal ([], [])
  | _ => Normal ([(column ++ " = ?")%string], [v])
  end.

Definition update_chain (id : string) : M S Response :=
  updates <- lift (json_body request) ;;
  n <- lift (pushed updates "name" "name") ;;
  d <- lift (pushed updates "description" "description") ;;
  p <- lift (pushed updates "previewImage" "preview_image") ;;
  let fields := (fst n ++ fst d ++ fst p)%list in
  let values := (snd n ++ snd d ++ snd p)%list in
  (if (0 <? Z.of_nat (List.length fields)) then
     query (UpdateChain (fields ++ ["updated_at = ?"])%list
                        (values ++ [VInt (Date_now inv 0); VStr id])%list)
   else ret tt) ;;;
  lift success.

(** DELETE /api/chains/{id} *)
Definition delete_chain (id : string) : M S Response :=
  query (DeleteChain id) ;;; lift success.

(** POST /api/chains/{id}/versions. The handler matches the path a second
    time with the same expression to capture the id, so its [if (!match)]
    never fires. *)
Definition create_version (chainId : string) : M S Response :=
  b <- lift (json_body request) ;;
  maxVerResult <- query (SelectMaxVersion chainId) ;;
  let nextVer := max_v_or_0 maxVerResult + 1 in
  let newId := randomUUID inv 0 in
  basePrompt <- lift (get b "basePrompt") ;;
  negativePrompt <- lift (get b "negativePrompt") ;;
  modules <- lift (get b "modules") ;;
  params <- lift (get b "params") ;;
  query (InsertVersion newId chainId nextVer
           (or_else basePrompt (VStr "")) (or_else negativePrompt (VStr ""))
           (JSON_stringify (or_else modules (VArr [])))
           (JSON_stringify (or_else params (VObj [])))
           (Date_now inv 0)) ;;;
  query (TouchChain (Date_now inv 1) chainId) ;;;
  lift (json (VObj [("id", VStr newId); ("version", VInt nextVer)]) 200).

(** GET, POST /api/artists and DELETE /api/artists/{id} *)
Definition list_artists : M S Response :=
  results <- try_catch (query SelectArtists)
               (fun e =>
                  if missing_table e then query ExecInit ;;; ret []
                  else throw e) ;;
  lift (json (VArr results) 200).

Definition upsert_artist_stmt (b : jsval) : M S unit :=
  id <- lift (get b "id") ;;
  name <- lift (get b "name") ;;
  imageUrl <- lift (get b "imageUrl") ;;
  query (UpsertArtist id name imageUrl).

Definition upsert_artist : M S Response :=
  b <- lift (json_body request) ;;
  try_catch (upsert_artist_stmt b)
    (fun e =>
       if missing_table e then query ExecInit ;;; upsert_artist_stmt b
       else throw e) ;;;
  lift success.

Definition delete_artist (id : string) : M S Response :=
  query (DeleteArtist id) ;;; lift success.

(** GET, POST /api/inspirations and DELETE /api/inspirations/{id} *)
Definition list_inspirations : M S Response :=
  results <- try_catch (query SelectInspirations)
               (fun e =>
                  if missing_table e then query ExecInit ;;; ret []
                  else throw e) ;;
  lift (json (VArr results) 200).

Definition upsert_inspiration_stmt (b : jsval) : M S unit :=
  id <- lift (get b "id") ;;
  title <- lift (get b "title") ;;
  imageUrl <- lift (get b "imageUrl") ;;
  prompt <- lift (get b "prompt") ;;
  createdAt <- lift (get b "createdAt") ;;
  query (UpsertInspiration id title imageUrl prompt createdAt).

Definition upsert_inspiration : M S Response :=
  b <- lift (json_body request) ;;
  try_catch (upsert_inspiration_stmt b)
    (fun e =>
       if missing_table e then query ExecInit ;;; upsert_inspiration_stmt b
       else throw e) ;;;
  lift success.

Definition delete_inspiration (id : string) : M S Response :=
  query (DeleteInspiration id) ;;; lift success.

(** The routes behind the database guard, in the order of the source. *)
Definition store_routes : M S Response :=
  let p := path request in
  let m := method request in
  if String.eqb p "/api/chains" && String.eqb m "GET" then list_chains
  else if String.eqb p "/api/chains" && String.eqb m "POST" then create_chain
  else
    match chainIdMatch p, String.eqb m "PUT", String.eqb m "DELETE" with
    | Some id, true, _ => update_chain id
    | Some id, false, true => delete_chain id
    | _, _, _ =>
        match versionsMatch p, String.eqb m "POST" with
        | Some chainId, true => create_version chainId
        | _, _ =>
            if String.eqb p "/api/artists" && String.eqb m "GET" then list_artists
            else if String.eqb p "/api/artists" && String.eqb m "POST" then upsert_artist
            else
              match artistIdMatch p, String.eqb m "DELETE" with
              | Some id, true => delete_artist id
              | _, _ =>
                  if String.eqb p "/api/inspirations" && String.eqb m "GET"
                  then list_inspirations
                  else if String.eqb p "/api/inspirations" && String.eqb m "POST"
                  then upsert_inspiration
                  else
                    match inspIdMatch p, String.eqb m "DELETE" with
                    | Some id, true => delete_inspiration id
                    | _, _ =>
                        if startsWith p "/api/" then lift (error "Not Found" 404)
                        else ret (ASSETS env request)
                    end
              end
        end
    end.

Definition not_configured : string :=
  ("Database not configured. Please bind a D1 database named "
   ++ dquote ++ "DB" ++ dquote ++ ".")%string.

Definition configuration_error : string :=
  ("Configuration Error: " ++ dquote ++ "DB" ++ dquote
   ++ " variable is a string/invalid. Do NOT add " ++ dquote ++ "DB" ++ dquote
   ++ " to [vars] in wrangler.toml or Dashboard Environment Variables."
   ++ " It must be a D1 Binding only.")%string.

(** The body of the [try] block: the auth check, the two routes that need
    no database, the database guard ([!env.DB], then [typeof env.DB ===
    'string']), the store routes. *)
Definition api : M S Response :=
  if admin_only && wrong_key then lift (error "Unauthorized" 401)
  else if String.eqb (path request) "/api/verify-key"
          && String.eqb (method request) "POST" then verify_key
  else if String.eqb (path request) "/api/generate"
          && String.eqb (method request) "POST" then generate
  else
    match DB env with
    | NoBinding => lift (error not_configured 503)
    | StringBinding s =>
        if negb (truthy (VStr s)) then lift (error not_configured 503)
        else lift (error configuration_error 500)
    | D1Binding => store_routes
    end.

(** [export default { async fetch(request, env) }]. *)
Definition fetch : M S Response :=
  if negb (startsWith (path request) "/api/") then ret (ASSETS env request)
  else if String.eqb (method request) "OPTIONS" then
    lift (new_Response NoBody corsHeaders 200)
  else try_catch api (fun e => lift (error e 500)).

End Handler.

End Worker.

(* ================================================================== *)
(** * A reference D1 database for the schema of INIT_SQL *)
(* ================================================================== *)

(** The store the worker talks to is SQLite behind D1. This instance of
    [D1Database] gives each statement of [Stmt] the meaning SQLite gives
    it on the tables [INIT_SQL] creates: primary keys, NOT NULL columns, the
    foreign key of [versions] with its cascade (D1 enforces foreign keys),
    [INSERT OR REPLACE], [MAX] over no row being NULL, a missing table
    being an error. A column that only ever receives a value of one static
    type has that type; the others hold an [sqlval] as bound (the
    conversions of SQLite's column affinity are not modelled). *)

Module Sqlite.

Inductive sqlval : Type :=
| SqlNull
| SqlNum (q : Q)
| SqlText (s : string).

(** What [bind] accepts: D1 refuses [undefined] and objects. *)
Definition bind_value (v : jsval) : completion sqlval :=
  match v with
  | VUndefined =>
      Throw "D1_TYPE_ERROR: Type 'undefined' not supported for value 'undefined'"
  | VNull => Normal SqlNull
  | VBool b => Normal (SqlNum (if b then 1 else 0))
  | VNum q => Normal (SqlNum q)
  | VStr s => Normal (SqlText s)
  | VArr _ | VObj _ =>
      Throw "D1_TYPE_ERROR: Type 'object' not supported for value '[object Object]'"
  end.

Definition to_js (x : sqlval) : jsval :=
  match x with
  | SqlNull => VNull
  | SqlNum q => VNum q
  | SqlText s => VStr s
  end.

Definition is_null (x : sqlval) : bool :=
  match x with SqlNull => true | _ => false end.

(** [a = b] in a WHERE clause or a uniqueness check: never true of NULL. *)
Definition sql_eqb (a b : sqlval) : bool :=
  match a, b with
  | SqlNum x, SqlNum y => Qeq_bool x y
  | SqlText x, SqlText y => String.eqb x y
  | _, _ => false
  end.

(** The order of ORDER BY: NULL first, then numbers, then text. *)
Definition sql_leb (a b : sqlval) : bool :=
  match a, b with
  | SqlNull, _ => true
  | _, SqlNull => false
  | SqlNum x, SqlNum y => Qle_bool x y
  | SqlNum _, SqlText _ => true
  | SqlText _, SqlNum _ => false
  | SqlText x, SqlText y => String.leb x y
  end.

Fixpoint insert_by {A} (le : A -> A -> bool) (a : A) (l : list A) : list A :=
  match l with
  | [] => [a]
  | b :: rest => if le a b then a :: l else b :: insert_by le a rest
  end.

Definition sort_by {A} (le : A -> A -> bool) (l : list A) : list A :=
  fold_right (insert_by le) [] l.

Record ChainRow : Type := {
  c_id : string;
  c_name : sqlval;
  c_description : sqlval;
  c_tags : string;
  c_preview_image : sqlval;
  c_created_at : Z;
  c_updated_at : sqlval
}.

Record VersionRow : Type := {
  v_id : string;
  v_chain_id : string;
  v_version : Z;
  v_base_prompt : sqlval;
  v_negative_prompt : sqlval;
  v_modules : string;
  v_params : string;
  v_created_at : Z
}.

Record ArtistRow : Type := {
  a_id : sqlval;
  a_name : sqlval;
  a_image_url : sqlval
}.

Record InspirationRow : Type := {
  i_id : sqlval;
  i_title : sqlval;
  i_image_url : sqlval;
  i_prompt : sqlval;
  i_created_at : sqlval
}.

(** A database: each table of the schema, [None] while it does not exist. *)
Record Db : Type := {
  chains : option (list ChainRow);
  versions : option (list VersionRow);
  artists : option (list ArtistRow);
  inspirations : option (list InspirationRow)
}.

Definition with_chains (d : Db) (rows : list ChainRow) : Db :=
  {| chains := Some rows; versions := versions d;
     artists := artists d; inspirations := inspirations d |}.

Definition with_versions (d : Db) (rows : list VersionRow) : Db :=
  {| chains := chains d; versions := Some rows;
     artists := artists d; inspirations := inspirations d |}.

Definition with_artists (d : Db) (rows : list ArtistRow) : Db :=
  {| chains := chains d; versions := versions d;
     artists := Some rows; inspirations := inspirations d |}.

Definition with_inspirations (d : Db) (rows : list InspirationRow) : Db :=
  {| chains := chains d; versions := versions d;
     artists := artists d; inspirations := Some rows |}.

Definition no_such_table (t : string) : string :=
  ("D1_ERROR: no such table: " ++ t ++ ": SQLITE_ERROR")%string.

Definition not_null_failed (column : string) : string :=
  ("D1_ERROR: NOT NULL constraint failed: " ++ column ++ ": SQLITE_CONSTRAINT")%string.

Definition unique_failed (column : string) : string :=
  ("D1_ERROR: UNIQUE constraint failed: " ++ column ++ ": SQLITE_CONSTRAINT")%string.

Definition foreign_key_failed : string :=
  "D1_ERROR: FOREIGN KEY constraint failed: SQLITE_CONSTRAINT".

Definition wrong_bindings : string :=
  "D1_ERROR: Wrong number of parameter bindings for SQL query.".

(** ** Rows as the objects [all()] returns *)

Definition chain_js (r : ChainRow) : jsval :=
  VObj [ ("id", VStr (c_id r)); ("name", to_js (c_name r));
         ("description", to_js (c_description r)); ("tags", VStr (c_tags r));
         ("preview_image", to_js (c_preview_image r));
         ("created_at", VInt (c_created_at r));
         ("updated_at", to_js (c_updated_at r)) ].

Definition version_js (r : VersionRow) : jsval :=
  VObj [ ("id", VStr (v_id r)); ("chain_id", VStr (v_chain_id r));
         ("version", VInt (v_version r));
         ("base_prompt", to_js (v_base_prompt r));
         ("negative_prompt", to_js (v_negative_prompt r));
         ("modules", VStr (v_modules r)); ("params", VStr (v_params r));
         ("created_at", VInt (v_created_at r)) ].

Definition artist_js (r : ArtistRow) : jsval :=
  VObj [ ("id", to_js (a_id r)); ("name", to_js (a_name r));
         ("image_url", to_js (a_image_url r)) ].

Definition inspiration_js (r : InspirationRow) : jsval :=
  VObj [ ("id", to_js (i_id r)); ("title", to_js (i_title r));
         ("image_url", to_js (i_image_url r)); ("prompt", to_js (i_prompt r));
         ("created_at", to_js (i_created_at r)) ].

(** ** The statements *)

(** The [version] values of a chain, in table order, and [MAX] over them. *)
Definition of_chain (chain : string) (v : VersionRow) : bool :=
  String.eqb (v_chain_id v) chain.

Definition chain_versions (chain : string) (vs : list VersionRow) : list Z :=
  map v_version (filter (of_chain chain) vs).

Fixpoint maximum (l : list Z) : option Z :=
  match l with
  | [] => None
  | a :: rest =>
      match maximum rest with
      | None => Some a
      | Some m => Some (Z.max a m)
      end
  end.

Definition select_chains (d : Db) : completion (list jsval) * Db :=
  match chains d with
  | None => (Throw (no_such_table "chains"), d)
  | Some rows =>
      (Normal (map chain_js
                 (sort_by (fun a b => sql_leb (c_updated_at b) (c_updated_at a)) rows)),
       d)
  end.

Definition is_latest (vs : list VersionRow) (v : VersionRow) : bool :=
  match maximum (chain_versions (v_chain_id v) vs) with
  | Some m => v_version v =? m
  | None => false
  end.

Definition select_latest_versions (d : Db) : completion (list jsval) * Db :=
  match versions d with
  | None => (Throw (no_such_table "versions"), d)
  | Some vs => (Normal (map version_js (filter (is_latest vs) vs)), d)
  end.

Definition insert_chain (id : string) (name description : jsval) (tags : string)
           (created_at updated_at : Z) (d : Db) : completion unit * Db :=
  match bind_value name, bind_value description with
  | Throw e, _ => (Throw e, d)
  | _, Throw e => (Throw e, d)
  | Normal n, Normal ds =>
      match chains d with
      | None => (Throw (no_such_table "chains"), d)
      | Some rows =>
          if is_null n then (Throw (not_null_failed "chains.name"), d)
          else if existsb (fun r => String.eqb (c_id r) id) rows
          then (Throw (unique_failed "chains.id"), d)
          else
            (Normal tt,
             with_chains d
               (rows ++ [{| c_id := id; c_name := n; c_description := ds;
                            c_tags := tags; c_preview_image := SqlNull;
                            c_created_at := created_at;
                            c_updated_at := SqlNum (inject_Z updated_at) |}]))
      end
  end.

Definition insert_version (id chain_id : string) (version : Z)
           (base_prompt negative_prompt : jsval) (modules params : string)
           (created_at : Z) (d : Db) : completion unit * Db :=
  match bind_value base_prompt, bind_value negative_prompt with
  | Throw e, _ => (Throw e, d)
  | _, Throw e => (Throw e, d)
  | Normal bp, Normal np =>
      match versions d with
      | None => (Throw (no_such_table "versions"), d)
      | Some vs =>
          if existsb (fun v => String.eqb (v_id v) id) vs
          then (Throw (unique_failed "versions.id"), d)
          else
            match chains d with
            | None => (Throw (no_such_table "main.chains"), d)
            | Some rows =>
                if existsb (fun r => String.eqb (c_id r) chain_id) rows then
                  (Normal tt,
                   with_versions d
                     (vs ++ [{| v_id := id; v_chain_id := chain_id;
                                v_version := version; v_base_prompt := bp;
                                v_negative_prompt := np; v_modules := modules;
                                v_params := params; v_created_at := created_at |}]))
                else (Throw foreign_key_failed, d)
            end
      end
  end.

(** One [column = ?] of the SET list applied to a row. *)
Definition set_column (assignment : string) (x : sqlval) (r : ChainRow)
  : completion ChainRow :=
  if String.eqb assignment "name = ?" then
    if is_null x then Throw (not_null_failed "chains.name")
    else Normal {| c_id := c_id r; c_name := x; c_description := c_description r;
                   c_tags := c_tags r; c_preview_image := c_preview_image r;
                   c_created_at := c_created_at r; c_updated_at := c_updated_at r |}
  else if String.eqb assignment "description = ?" then
    Normal {| c_id := c_id r; c_name := c_name r; c_description := x;
              c_tags := c_tags r; c_preview_image := c_preview_image r;
              c_created_at := c_created_at r; c_updated_at := c_updated_at r |}
  else if String.eqb assignment "preview_image = ?" then
    Normal {| c_id := c_id r; c_name := c_name r; c_description := c_description r;
              c_tags := c_tags r; c_preview_image := x;
              c_created_at := c_created_at r; c_updated_at := c_updated_at r |}
  else if String.eqb assignment "updated_at = ?" then
    Normal {| c_id := c_id r; c_name := c_name r; c_description := c_description r;
              c_tags := c_tags r; c_preview_image := c_preview_image r;
              c_created_at := c_created_at r; c_updated_at := x |}
  else Throw ("D1_ERROR: near " ++ assignment ++ ": syntax error: SQLITE_ERROR")%string.

Fixpoint set_columns (fields : list string) (xs : list sqlval) (r : ChainRow)
  : completion ChainRow :=
  match fields, xs with
  | [], _ => Normal r
  | _ :: _, [] => Throw wrong_bindings
  | f :: fields', x :: xs' =>
      r' <~ set_column f x r ;; set_columns fields' xs' r'
  end.

Definition update_chains_set (fields : list string) (values : list jsval) (d : Db)
  : completion unit * Db :=
  match traverse bind_value values with
  | Throw e => (Throw e, d)
  | Normal xs =>
      match chains d with
      | None => (Throw (no_such_table "chains"), d)
      | Some rows =>
          if negb (Nat.eqb (List.length xs) (Datatypes.S (List.length fields)))
             || Nat.eqb (List.length fields) 0
          then (Throw wrong_bindings, d)
          else
            match traverse
                    (fun r => if sql_eqb (SqlText (c_id r)) (last xs SqlNull)
                              then set_columns fields xs r else Normal r)
                    rows with
            | Throw e => (Throw e, d)
            | Normal rows' => (Normal tt, with_chains d rows')
            end
      end
  end.

Definition delete_from_chains (id : string) (d : Db) : completion unit * Db :=
  match chains d with
  | None => (Throw (no_such_table "chains"), d)
  | Some rows =>
      (Normal tt,
       {| chains := Some (filter (fun r => negb (String.eqb (c_id r) id)) rows);
          versions :=
            match versions d with
            | Some vs => Some (filter (fun v => negb (of_chain id v)) vs)
            | None => None
            end;
          artists := artists d;
          inspirations := inspirations d |})
  end.

Definition select_max_version (chain_id : string) (d : Db)
  : completion (option (option Z)) * Db :=
  match versions d with
  | None => (Throw (no_such_table "versions"), d)
  | Some vs => (Normal (Some (maximum (chain_versions chain_id vs))), d)
  end.

Definition touch (updated_at : Z) (id : string) (r : ChainRow) : ChainRow :=
  if String.eqb (c_id r) id then
    {| c_id := c_id r; c_name := c_name r; c_description := c_description r;
       c_tags := c_tags r; c_preview_image := c_preview_image r;
       c_created_at := c_created_at r;
       c_updated_at := SqlNum (inject_Z updated_at) |}
  else r.

Definition touch_chain (updated_at : Z) (id : string) (d : Db)
  : completion unit * Db :=
  match chains d with
  | None => (Throw (no_such_table "chains"), d)
  | Some rows => (Normal tt, with_chains d (map (touch updated_at id) rows))
  end.

Definition select_artists (d : Db) : completion (list jsval) * Db :=
  match artists d with
  | None => (Throw (no_such_table "artists"), d)
  | Some rows =>
      (Normal (map artist_js (sort_by (fun a b => sql_leb (a_name a) (a_name b)) rows)), d)
  end.

Definition replace_artist (id name image_url : jsval) (d : Db) : completion unit * Db :=
  match bind_value id, bind_value name, bind_value image_url with
  | Normal i, Normal n, Normal u =>
      match artists d with
      | None => (Throw (no_such_table "artists"), d)
      | Some rows =>
          if is_null n then (Throw (not_null_failed "artists.name"), d)
          else
            (Normal tt,
             with_artists d
               (filter (fun r => negb (sql_eqb (a_id r) i)) rows
                ++ [{| a_id := i; a_name := n; a_image_url := u |}]))
      end
  | Throw e, _, _ => (Throw e, d)
  | _, Throw e, _ => (Throw e, d)
  | _, _, Throw e => (Throw e, d)
  end.

Definition delete_from_artists (id : string) (d : Db) : completion unit * Db :=
  match artists d with
  | None => (Throw (no_such_table "artists"), d)
  | Some rows =>
      (Normal tt,
       with_artists d (filter (fun r => negb (sql_eqb (a_id r) (SqlText id))) rows))
  end.

Definition select_inspirations (d : Db) : completion (list jsval) * Db :=
  match inspirations d with
  | None => (Throw (no_such_table "inspirations"), d)
  | Some rows =>
      (Normal (map inspiration_js
                 (sort_by (fun a b => sql_leb (i_created_at b) (i_created_at a)) rows)),
       d)
  end.

Definition replace_inspiration (id title image_url prompt created_at : jsval) (d : Db)
  : completion unit * Db :=
  match traverse bind_value [id; title; image_url; prompt; created_at] with
  | Normal [i; t; u; p; c] =>
      match inspirations d with
      | None => (Throw (no_such_table "inspirations"), d)
      | Some rows =>
          if is_null t then (Throw (not_null_failed "inspirations.title"), d)
          else
            (Normal tt,
             with_inspirations d
               (filter (fun r => negb (sql_eqb (i_id r) i)) rows
                ++ [{| i_id := i; i_title := t; i_image_url := u;
                       i_prompt := p; i_created_at := c |}]))
      end
  | Normal _ => (Throw wrong_bindings, d)
  | Throw e => (Throw e, d)
  end.

Definition delete_from_inspirations (id : string) (d : Db) : completion unit * Db :=
  match inspirations d with
  | None => (Throw (no_such_table "inspirations"), d)
  | Some rows =>
      (Normal tt,
       with_inspirations d
         (filter (fun r => negb (sql_eqb (i_id r) (SqlText id))) rows))
  end.

(** ** [db.exec(INIT_SQL)] *)

Definition INIT_SQL : string := "
  CREATE TABLE IF NOT EXISTS chains (
    id TEXT PRIMARY KEY,
    name TEXT NOT NULL,
    description TEXT,
    tags TEXT,
    preview_image TEXT,
    created_at INTEGER,
    updated_at INTEGER
  );
  CREATE TABLE IF NOT EXISTS versions (
    id TEXT PRIMARY KEY,
    chain_id TEXT NOT NULL,
    version INTEGER NOT NULL,
    base_prompt TEXT,
    negative_prompt TEXT,
    modules TEXT,
    params TEXT,
    created_at INTEGER,
    FOREIGN KEY(chain_id) REFERENCES chains(id) ON DELETE CASCADE
  );
  CREATE TABLE IF NOT EXISTS artists (
    id TEXT PRIMARY KEY,
    name TEXT NOT NULL,
    image_url TEXT
  );
  CREATE TABLE IF NOT EXISTS inspirations (
    id TEXT PRIMARY KEY,
    title TEXT NOT NULL,
    image_url TEXT,
    prompt TEXT,
    created_at INTEGER
  );
  CREATE INDEX IF NOT EXISTS idx_versions_chain_id ON versions(chain_id);
".

(** [String.prototype.trim] and [split] at the line breaks. *)
Definition is_space (c : ascii) : bool :=
  match nat_of_ascii c with
  | 9%nat | 10%nat | 11%nat | 12%nat | 13%nat | 32%nat => true
  | _ => false
  end.

Fixpoint trim_start (s : string) : string :=
  match s with
  | EmptyString => EmptyString
  | String c rest => if is_space c then trim_start rest else s
  end.

Fixpoint trim_end (s : string) : string :=
  match s with
  | EmptyString => EmptyString
  | String c rest =>
      match trim_end rest with
      | EmptyString => if is_space c then EmptyString else String c EmptyString
      | kept => String c kept
      end
  end.

Definition trim (s : string) : string := trim_end (trim_start s).

Fixpoint lines (s : string) : list string :=
  match s with
  | EmptyString => [EmptyString]
  | String c rest =>
      if (nat_of_ascii c =? 10)%nat then EmptyString :: lines rest
      else
        match lines rest with
        | line :: more => String c line :: more
        | [] => [String c EmptyString]
        end
  end.

Fixpoint count (c : ascii) (s : string) : nat :=
  match s with
  | EmptyString => 0%nat
  | String a rest => ((if Ascii.eqb a c then 1 else 0) + count c rest)%nat
  end.

(** A line that opens a parenthesis it does not close is not a complete
    statement: SQLite answers "incomplete input". *)
Definition unclosed (line : string) : bool :=
  (count ")" line <? count "(" line)%nat.

Fixpoint first_unclosed (n : nat) (ls : list string) : option (nat * string) :=
  match ls with
  | [] => None
  | line :: rest =>
      if unclosed line then Some (n, line) else first_unclosed (Datatypes.S n) rest
  end.

Definition line_number (n : nat) : string :=
  NilEmpty.string_of_uint (Nat.to_uint n).

Definition exec_error (n : nat) (line : string) : string :=
  ("D1_EXEC_ERROR: Error in line " ++ line_number n ++ ": " ++ line
   ++ ": incomplete input: SQLITE_ERROR")%string.

(** The four CREATE TABLE IF NOT EXISTS (the index holds no data). *)
Definition create_tables (d : Db) : Db :=
  {| chains := Some (match chains d with Some rows => rows | None => [] end);
     versions := Some (match versions d with Some rows => rows | None => [] end);
     artists := Some (match artists d with Some rows => rows | None => [] end);
     inspirations :=
       Some (match inspirations d with Some rows => rows | None => [] end) |}.

(** [exec] of D1 takes its argument apart at the line breaks
    ([query.trim().split('\n')]) and runs every line as a statement of its
    own; the first line that fails makes it throw, and nothing is kept.
    [INIT_SQL] spreads each CREATE TABLE over several lines, so that its
    first line already is no statement: the call throws and creates
    nothing. Were every statement of the text on a line of its own, the
    call would create the tables that are missing. *)
Definition exec_init (d : Db) : completion unit * Db :=
  match first_unclosed 1 (lines (trim INIT_SQL)) with
  | Some (n, line) => (Throw (exec_error n line), d)
  | None => (Normal tt, create_tables d)
  end.

(** The error of [db.exec(INIT_SQL)]. *)
Definition init_error : string :=
  exec_error 1 "CREATE TABLE IF NOT EXISTS chains (".

Definition sqlite_run (s : Stmt) : Db -> completion (ResultOf s) * Db :=
  match s as s0 return Db -> completion (ResultOf s0) * Db with
  | SelectChains => select_chains
  | SelectLatestVersions => select_latest_versions
  | InsertChain id name description tags created_at updated_at =>
      insert_chain id name description tags created_at updated_at
  | InsertVersion id chain_id version bp np modules params created_at =>
      insert_version id chain_id version bp np modules params created_at
  | UpdateChain fields values => update_chains_set fields values
  | DeleteChain id => delete_from_chains id
  | SelectMaxVersion chain_id => select_max_version chain_id
  | TouchChain updated_at id => touch_chain updated_at id
  | SelectArtists => select_artists
  | UpsertArtist id name image_url => replace_artist id name image_url
  | DeleteArtist id => delete_from_artists id
  | SelectInspirations => select_inspirations
  | UpsertInspiration id title image_url prompt created_at =>
      replace_inspiration id title image_url prompt created_at
  | DeleteInspiration id => delete_from_inspirations id
  | ExecInit => exec_init
  end.

#[export] Instance sqlite : D1Database Db := {| run := sqlite_run |}.

(** A database on which nothing was ever run, and one whose four tables
    were created (by the statements of [INIT_SQL], run one by one) and are
    empty. *)
Definition blank : Db :=
  {| chains := None; versions := None; artists := None; inspirations := None |}.

Definition provisioned : Db :=
  {| chains := Some []; versions := Some []; artists := Some [];
     inspirations := Some [] |}.

End Sqlite.

(* ================================================================== *)
(** * Vocabulary of the properties *)
(* ================================================================== *)

Module Observe.
Import NaiService.

(** The value found in a nested object literal by following property names. *)
Fixpoint at_path (ks : list string) (v : jsval) : option jsval :=
  match ks with
  | [] => Some v
  | k :: rest =>
      match v with
      | VObj fields =>
          match lookup k fields with
          | Some inner => at_path rest inner
          | None => None
          end
      | _ => None
      end
  end.

(** One character caption on the wire: its text and its single centre. *)
Definition caption (text : string) (cx cy : Q) : jsval :=
  VObj [("char_caption", VStr text);
        ("centers", VArr [VObj [("x", VNum cx); ("y", VNum cy)]])].

(** A character's negative prompt, the empty string when it has none. *)
Definition negative_text (c : Character) : string :=
  match negativePrompt c with
  | present s => s
  | _ => ""
  end.

Definition positive_path : list string :=
  ["parameters"; "v4_prompt"; "caption"; "char_captions"].

Definition negative_path : list string :=
  ["parameters"; "v4_negative_prompt"; "caption"; "char_captions"].

(** The seed a request carried, as the decoder falls back on it. *)
Definition sent_or_zero (sent : option Q) : jsval :=
  match sent with
  | Some s => VNum s
  | None => VInt 0
  end.

(** The seed [decode] resolves, once the image entry is found. *)
Definition seed_after {BR : Browser} (files : ZipFiles) (seed0 : option Q) : jsval :=
  match jsonFile files with
  | Some name =>
      match file name files with
      | Some jsonText => seed_from_metadata jsonText (sent_or_zero seed0)
      | None => sent_or_zero seed0
      end
  | None => sent_or_zero seed0
  end.

(** ** Requests and runs of the worker *)

Section WorkerVocabulary.
Import Worker.

(** The same request with another [X-Master-Key] header (or none). *)
Definition with_key (r : Request) (key : option string) : Request :=
  {| method := method r; path := path r; x_master_key := key;
     json_body := json_body r |}.

(** The requests the auth check of the handler is written for. *)
Definition guarded (r : Request) : Prop :=
  method r = "PUT" \/ method r = "DELETE"
  \/ (method r = "POST"
      /\ (startsWith (path r) "/api/artists" = true
          \/ startsWith (path r) "/api/inspirations" = true)).

(** The provider call of POST /api/generate. *)
Definition provider_url : string := "https://image.novelai.net/ai/generate-image".

Definition provider_headers (env : Env) : list (string * string) :=
  [("Content-Type", "application/json");
   ("Authorization", ("Bearer " ++ NAI_API_KEY env)%string)].

End WorkerVocabulary.

(** ** Schema recovery, as a property of a handler *)

Section Recovery.
Import Worker.
Context {S : Type} {D : D1Database S}.

(** The world after the statements [issued] were run and left the store [d]. *)
Definition after (w : World S) (d : S) (issued : list Stmt) : World S :=
  {| store := d; log := (log w ++ map Query issued)%list |}.

(** The [try] block of [fetch] around a route: a throw is answered 500. *)
Definition handled (m : M S Response) : M S Response :=
  try_catch m (fun e => lift (error e 500)).

(** The classes of error messages. *)
Definition relation_missing (e : string) : Prop :=
  includes e "no such table" = true \/ includes e "object not found" = true.

Definition table_missing (e : string) : Prop :=
  includes e "no such table" = true.

Definition other_error (e : string) : Prop :=
  includes e "no such table" = false /\ includes e "object not found" = false.

(** [h] recovers from a failure of its statement [primary] that is in the
    class [recover]: it provisions the schema once and runs [primary] once
    more, whose failure then propagates; a first failure in the class
    [propagate] propagates at once. Whatever follows a successful retry
    provisions nothing and does not run [primary] again. *)
Definition provisions_and_retries (recover propagate : string -> Prop)
           (primary : Stmt) (h : M S Response) : Prop :=
  forall (w : World S) (e : string) (d1 : S),
    run primary (store w) = (Throw e, d1) ->
    (propagate e -> h w = ((error e 500), after w d1 [primary]))
    /\ (recover e ->
        (forall (e' : string) (d2 : S),
            run ExecInit d1 = (Throw e', d2) ->
            h w = ((error e' 500), after w d2 [primary; ExecInit]))
        /\ (forall (u : unit) (d2 : S),
               run ExecInit d1 = (Normal u, d2) ->
               (forall (e2 : string) (d3 : S),
                   run primary d2 = (Throw e2, d3) ->
                   h w = ((error e2 500),
                          after w d3 [primary; ExecInit; primary]))
               /\ (forall (r : ResultOf primary) (d3 : S),
                      run primary d2 = (Normal r, d3) ->
                      exists (answer : completion Response) (d4 : S)
                             (rest : list Stmt),
                        h w = (answer,
                               after w d4 ([primary; ExecInit; primary] ++ rest))
                        /\ ~ In ExecInit rest /\ ~ In primary rest))).

(** [h] provisions the schema once after a failure of [primary] in the class
    [recover] and answers the empty list, without running [primary] again. *)
Definition provisions_and_answers_empty (recover propagate : string -> Prop)
           (primary : Stmt) (h : M S Response) : Prop :=
  forall (w : World S) (e : string) (d1 : S),
    run primary (store w) = (Throw e, d1) ->
    (propagate e -> h w = ((error e 500), after w d1 [primary]))
    /\ (recover e ->
        (forall (e' : string) (d2 : S),
            run ExecInit d1 = (Throw e', d2) ->
            h w = ((error e' 500), after w d2 [primary; ExecInit]))
        /\ (forall (u : unit) (d2 : S),
               run ExecInit d1 = (Normal u, d2) ->
               h w = ((json (VArr []) 200), after w d2 [primary; ExecInit]))).

(** [h] runs [primary] once: any failure of it propagates, with no
    provisioning and no retry. *)
Definition issues_once (primary : Stmt) (h : M S Response) : Prop :=
  forall (w : World S) (e : string) (d1 : S),
    run primary (store w) = (Throw e, d1) ->
    h w = ((error e 500), after w d1 [primary]).

End Recovery.

(** ** The store, as the properties read it *)

Section StoreVocabulary.
Import Worker Sqlite.





(** A value that [bind] accepts after [|| '']: anything but an array or an
    object. *)
Definition scalar (v : jsval) : bool :=
  match v with
  | VArr _ | VObj _ => false
  | _ => true
  end.

(** The body of a version request: an object whose prompts, when present,
    are scalars. *)
Definition version_body (b : jsval) : Prop :=
  exists fields : list (string * jsval),
    b = VObj fields
    /\ (forall v, lookup "basePrompt" fields = Some v -> scalar v = true)
    /\ (forall v, lookup "negativePrompt" fields = Some v -> scalar v = true).

(** The row a version request inserts. *)
Definition bound_text (v : jsval) : sqlval :=
  match bind_value (or_else v (VStr "")) with
  | Normal x => x
  | Throw _ => SqlNull
  end.

Definition member (b : jsval) (k : string) : jsval :=
  match get b k with
  | Normal v => v
  | Throw _ => VUndefined
  end.

Definition version_row {H : Host} (chainId : string) (version : Z) (b : jsval)
           (inv : Invocation) : VersionRow :=
  {| v_id := randomUUID inv 0;
     v_chain_id := chainId;
     v_version := version;
     v_base_prompt := bound_text (member b "basePrompt");
     v_negative_prompt := bound_text (member b "negativePrompt");
     v_modules := JSON_stringify (or_else (member b "modules") (VArr []));
     v_params := JSON_stringify (or_else (member b "params") (VObj []));
     v_created_at := Date_now inv 0 |}.

(** The number the next version of a chain gets. *)
Definition next_version (chainId : string) (vs : list VersionRow) : Z :=
  match maximum (chain_versions chainId vs) with
  | Some m => m + 1
  | None => 1
  end.

(** A version request for [chainId]: a POST whose path matches. *)
Definition version_request (chainId : string) (r : Request) : Prop :=
  method r = "POST" /\ versionsMatch (path r) = Some chainId
  /\ exists b : jsval, json_body r = Normal b /\ version_body b.

Definition body_of (r : Request) : jsval :=
  match json_body r with
  | Normal b => b
  | Throw _ => VUndefined
  end.

(** Requests served one after the other, each with its invocation. *)
Fixpoint serve {S : Type} {D : D1Database S} {H : Host} (env : Env)
         (calls : list (Request * Invocation)) (w : World S)
  : list (completion Response) * World S :=
  match calls with
  | [] => ([], w)
  | (r, inv) :: rest =>
      let (answer, w1) := fetch env r inv w in
      let (answers, w2) := serve env rest w1 in
      (answer :: answers, w2)
  end.




(** The chain rows after the version requests [calls] on chain [id]: each
    request stamps the chain with its second clock reading. *)
Definition final_chains (id : string) (calls : list (Request * Invocation))
           (rows : list ChainRow) : list ChainRow :=
  fold_left (fun acc c => map (touch (Date_now (snd c) 1) id) acc) calls rows.

End StoreVocabulary.

End Observe.

(* ================================================================== *)
(** * Concrete platforms for closed examples *)
(* ================================================================== *)

Module Fixture.
Import NaiService Worker Sqlite.

Definition quoted (s : string) : string := (dquote ++ s ++ dquote)%string.

(** Metadata texts and what [JSON.parse] makes of them. *)
Definition seed_42_text : string := ("{" ++ quoted "seed" ++ ":42}")%string.
Definition seed_0_text : string := ("{" ++ quoted "seed" ++ ":0}")%string.
Definition seed_string_text : string :=
  ("{" ++ quoted "seed" ++ ":" ++ quoted "1234" ++ "}")%string.
Definition no_seed_text : string := ("{" ++ quoted "steps" ++ ":28}")%string.
Definition garbage_text : string := "not json".

Definition parse_text (t : string) : completion jsval :=
  if String.eqb t seed_42_text then Normal (VObj [("seed", VInt 42)])
  else if String.eqb t seed_0_text then Normal (VObj [("seed", VInt 0)])
  else if String.eqb t seed_string_text then Normal (VObj [("seed", VStr "1234")])
  else if String.eqb t no_seed_text then Normal (VObj [("steps", VInt 28)])
  else if String.eqb t "[]" then Normal (VArr [])
  else if String.eqb t "{}" then Normal (VObj [])
  else Throw "Unexpected token in JSON".

#[export] Instance prompt_utils : PromptUtils := {|
  NAI_QUALITY_TAGS := ", very aesthetic, masterpiece, no text";
  NAI_UC_PRESETS := fun i =>
    if Qeq_bool i 0 then Some "lowres, artistic error, "
    else if Qeq_bool i 1 then Some "lowres, "
    else None
|}.

#[export] Instance browser : Browser := {|
  postBinary := fun _ _ _ => Throw "offline";
  loadAsync := fun _ => Throw "offline";
  base64 := fun content => content;
  NaiService.JSON_parse := parse_text
|}.

Definition a_character (p : string) (n : maybe string) (cx cy : Q) : Character :=
  {| prompt := p; negativePrompt := n; x := cx; y := cy |}.

Definition some_params (s : maybe Q) (q : maybe bool) (cs : maybe (list Character))
  : NAIParams :=
  {| seed := s; qualityToggle := q; ucPreset := absent; characters := cs;
     useCoords := absent; width := 832; height := 1216; scale := 5;
     sampler := "k_euler_ancestral"; steps := 28; variety := absent;
     cfgRescale := absent |}.

(** A worker host whose provider answers 429 with a message. *)
#[export] Instance host : Host := {|
  Worker.JSON_parse := fun v =>
    match v with
    | VStr t => parse_text t
    | _ => Throw "Unexpected token in JSON"
    end;
  JSON_stringify := fun v =>
    match v with
    | VArr [] => "[]"
    | VObj [] => "{}"
    | _ => "{...}"
    end;
  global_fetch := fun _ _ _ =>
    Normal {| up_status := 429; up_text := "Concurrent generation is locked";
              up_blob := "" |}
|}.

Definition env : Env := {|
  ASSETS := fun _ => {| status := 200; headers := []; body := AssetBody "index.html" |};
  DB := D1Binding;
  NAI_API_KEY := "pst-key";
  MASTER_KEY := "master"
|}.

(** The n-th invocation: its identifiers are [n-0], [n-1], ... and its clock
    starts at [1000 * n]. *)
Definition digit (n : nat) : string :=
  String (Ascii.ascii_of_nat (48 + n)) "".

Definition invocation (n : nat) : Invocation := {|
  randomUUID := fun k => (digit n ++ "-" ++ digit k)%string;
  Date_now := fun k => 1000 * Z.of_nat n + Z.of_nat k
|}.

Definition request (m p : string) (key : option string) (b : jsval) : Request :=
  {| method := m; path := p; x_master_key := key; json_body := Normal b |}.

Definition fresh : World Db := {| store := blank; log := [] |}.

Definition ready : World Db := {| store := provisioned; log := [] |}.

(** A store with the chain [1-0] and its first version. *)
Definition foo_chain : ChainRow :=
  {| c_id := "1-0"; c_name := SqlText "Foo"; c_description := SqlText "bar";
     c_tags := "[]"; c_preview_image := SqlNull; c_created_at := 1000;
     c_updated_at := SqlNum 1000 |}.

Definition foo_v1 : VersionRow :=
  {| v_id := "1-1"; v_chain_id := "1-0"; v_version := 1;
     v_base_prompt := SqlText "masterpiece, best quality, {character}";
     v_negative_prompt := SqlText "lowres, bad anatomy";
     v_modules := "{...}"; v_params := "{...}"; v_created_at := 1000 |}.

Definition one_chain : World Db :=
  {| store := {| chains := Some [foo_chain]; versions := Some [foo_v1];
                 artists := Some []; inspirations := Some [] |};
     log := [] |}.

End Fixture.

(* ================================================================== *)
(** * Vocabulary of the further properties *)
(* ================================================================== *)

Module Behaviour.
Import NaiService Worker Sqlite Observe.

(** ** The client *)

(** The seed [generateImage] reports when the archive carries no metadata:
    the one it sent, 0 when it sent none. *)
Definition reported_seed (params : NAIParams) : jsval :=
  match seed params with
  | present s => if Qeq_bool s (-1) then VInt 0 else VNum s
  | _ => VInt 0
  end.

Definition authorization (apiKey : string) : list (string * string) :=
  [("Authorization", ("Bearer " ++ apiKey)%string)].

(** ** The worker *)

(** Every header of [corsHeaders] is on the response. *)
Definition cors (r : Response) : Prop :=
  forall h : string * string, In h corsHeaders -> In h (headers r).

(** The request passes the auth check: it is not a guarded one, or it
    carries the secret. *)
Definition passes_auth (env : Env) (r : Request) : Prop :=
  guarded r -> x_master_key r = Some (MASTER_KEY env).

(** The two routes that are served before the database guard. *)
Definition needs_no_database (r : Request) : Prop :=
  method r = "POST"
  /\ (path r = "/api/verify-key" \/ path r = "/api/generate").


(** Every table that exists in [d] exists in [d'] with the same rows. *)
Definition keeps_rows (d d' : Db) : Prop :=
  (forall rows, chains d = Some rows -> chains d' = Some rows)
  /\ (forall rows, versions d = Some rows -> versions d' = Some rows)
  /\ (forall rows, artists d = Some rows -> artists d' = Some rows)
  /\ (forall rows, inspirations d = Some rows -> inspirations d' = Some rows).

(** The two rows POST /api/chains inserts. *)
Definition new_chain (inv : Invocation) (name description : sqlval) : ChainRow :=
  {| c_id := randomUUID inv 0; c_name := name; c_description := description;
     c_tags := "[]"; c_preview_image := SqlNull;
     c_created_at := Date_now inv 0;
     c_updated_at := SqlNum (inject_Z (Date_now inv 0)) |}.

Definition seed_version {H : Host} (inv : Invocation) : VersionRow :=
  {| v_id := randomUUID inv 1; v_chain_id := randomUUID inv 0; v_version := 1;
     v_base_prompt := SqlText "masterpiece, best quality, {character}";
     v_negative_prompt := SqlText "lowres, bad anatomy";
     v_modules := defaultModules inv; v_params := defaultParams;
     v_created_at := Date_now inv 0 |}.

(** A request to create a chain with the given name and description. *)
Definition chain_request (name description : string) (r : Request) : Prop :=
  method r = "POST" /\ path r = "/api/chains"
  /\ exists b : jsval,
       json_body r = Normal b
       /\ get b "name" = Normal (VStr name)
       /\ get b "description" = Normal (VStr description).

(** The artist object a listing returns for a row. *)
Definition listed_artist (id name image : string) : jsval :=
  VObj [("id", VStr id); ("name", VStr name); ("image_url", VStr image)].

(** A path segment: not empty, and without a slash. *)
Definition segment (s : string) : Prop :=
  s <> "" /\ includes s "/" = false.

(** Whenever [m] answers, the answer carries the CORS headers. *)
Definition answers_cors {S : Type} (m : M S Response) : Prop :=
  forall (w : World S) (r : Response) (w' : World S),
    m w = (Normal r, w') -> cors r.

(** [o.id === id] for a listed object. *)
Definition has_id (id : string) (o : jsval) : bool :=
  match get o "id" with
  | Normal v => same_value v (VStr id)
  | Throw _ => false
  end.

(** The items of a JSON array body. *)
Definition items_of (answer : completion Response) : list jsval :=
  match answer with
  | Normal {| body := JsonBody (VArr items) |} => items
  | _ => []
  end.

(** [JSON.parse] accepts the texts GET /api/chains reads of a version row
    ([modules] and [params], or their defaults when empty) and of a chain
    row ([tags]). *)
Definition readable_version {H : Host} (r : VersionRow) : Prop :=
  (exists j : jsval,
      JSON_parse (or_else (VStr (v_modules r)) (VStr "[]")) = Normal j)
  /\ (exists j : jsval,
         JSON_parse (or_else (VStr (v_params r)) (VStr "{}")) = Normal j).

Definition readable_chain {H : Host} (c : ChainRow) : Prop :=
  exists j : jsval, JSON_parse (or_else (VStr (c_tags c)) (VStr "[]")) = Normal j.

(** What [JSON.parse] gives for [v] on a host that accepts it. *)
Definition parsed {H : Host} (v : jsval) : jsval :=
  match JSON_parse v with
  | Normal j => j
  | Throw _ => VUndefined
  end.

(** A version row as GET /api/chains hands it out: [modules] and [params]
    parsed, the other columns as stored. *)
Definition hydrated {H : Host} (r : VersionRow) : jsval :=
  VObj (assign "params" (parsed (or_else (VStr (v_params r)) (VStr "{}")))
          (assign "modules" (parsed (or_else (VStr (v_modules r)) (VStr "[]")))
             (spread (version_js r)))).

(** The last row of a chain among [rows], the one a [Map] filled in row
    order ends up with. *)
Fixpoint last_of (chain : string) (rows : list VersionRow) : option VersionRow :=
  match rows with
  | [] => None
  | r :: rest =>
      match last_of chain rest with
      | Some x => Some x
      | None => if of_chain chain r then Some r else None
      end
  end.

(** A chain row as GET /api/chains hands it out, [rows] being the rows of
    the latest-version query. *)
Definition listed_chain {H : Host} (rows : list VersionRow) (c : ChainRow) : jsval :=
  VObj (assign "latestVersion"
          (match last_of (c_id c) rows with
           | Some r => hydrated r
           | None => VNull
           end)
          (assign "tags" (parsed (or_else (VStr (c_tags c)) (VStr "[]")))
             (spread (chain_js c)))).

(** ORDER BY updated_at DESC over the chain rows. *)
Definition newest_first (cs : list ChainRow) : list ChainRow :=
  sort_by (fun a b => sql_leb (c_updated_at b) (c_updated_at a)) cs.

(** What may follow the captured segment of a path pattern: the end of
    the path, or a slash. *)
Definition slash_or_end (tail : string) : Prop :=
  tail = "" \/ exists t : string, tail = String "/"%char t.

(** A store with one artist and one inspiration. *)
Definition gallery : World Db :=
  {| store := {| chains := Some []; versions := Some [];
                 artists := Some [{| a_id := SqlText "a1"; a_name := SqlText "wlop";
                                     a_image_url := SqlText "https://img/1.png" |}];
                 inspirations :=
                   Some [{| i_id := SqlText "i1"; i_title := SqlText "dusk";
                            i_image_url := SqlText "https://img/2.png";
                            i_prompt := SqlText "sunset, city";
                            i_created_at := SqlNum 5 |}] |};
     log := [] |}.

(** Whenever [m] answers, the answer satisfies [P]. *)
Definition answers {S : Type} (P : Response -> Prop) (m : M S Response) : Prop :=
  forall (w : World S) (r : Response) (w' : World S),
    m w = (Normal r, w') -> P r.

(** The answer is not the refusal of the auth check (nor any other 401). *)
Definition not_refused (r : Response) : Prop := status r <> 401.

(** ** Further concrete platforms *)

(** A browser whose proxy answers with an archive of one image. *)
Definition online : Browser := {|
  postBinary := fun _ _ _ => Normal "zip";
  loadAsync := fun _ => Normal [("image_0.png", "PNG")];
  base64 := fun content => content;
  NaiService.JSON_parse := Fixture.parse_text
|}.

(** A worker host whose provider answers 200 with an archive. *)
Definition serving : Host := {|
  Worker.JSON_parse := fun v =>
    match v with
    | VStr t => Fixture.parse_text t
    | _ => Throw "Unexpected token in JSON"
    end;
  JSON_stringify := fun v =>
    match v with
    | VArr [] => "[]"
    | VObj [] => "{}"
    | _ => "{...}"
    end;
  global_fetch := fun _ _ _ =>
    Normal {| up_status := 200; up_text := ""; up_blob := "zip" |}
|}.

(** A worker host whose provider answers 304. *)
Definition stale : Host := {|
  Worker.JSON_parse := fun v =>
    match v with
    | VStr t => Fixture.parse_text t
    | _ => Throw "Unexpected token in JSON"
    end;
  JSON_stringify := fun v =>
    match v with
    | VArr [] => "[]"
    | VObj [] => "{}"
    | _ => "{...}"
    end;
  global_fetch := fun _ _ _ =>
    Normal {| up_status := 304; up_text := ""; up_blob := "" |}
|}.

(** The chain of [one_chain] with a second version, as a version request
    with an empty body leaves it. *)
Definition foo_v2 : VersionRow :=
  {| v_id := "2-0"; v_chain_id := "1-0"; v_version := 2;
     v_base_prompt := SqlText ""; v_negative_prompt := SqlText "";
     v_modules := "[]"; v_params := "{}"; v_created_at := 2000 |}.

Definition two_versions : World Db :=
  {| store := {| chains := Some [Fixture.foo_chain];
                 versions := Some [Fixture.foo_v1; foo_v2];
                 artists := Some []; inspirations := Some [] |};
     log := [] |}.

End Behaviour.

(* ================================================================== *)
(** * Properties of the request compiler *)
(* ================================================================== *)

Section ObjectLiterals.

Lemma lookup_assign_same (k : string) (v : jsval) (l : list (string * jsval)) :
  lookup k (assign k v l) = Some v.
Proof.
  induction l as [|[k' v'] l IH]; cbn [assign lookup].
  - rewrite String.eqb_refl. reflexivity.
  - destruct (String.eqb k k') eqn:E; cbn [lookup].
    + rewrite String.eqb_refl. reflexivity.
    + rewrite E. exact IH.
Qed.

Lemma lookup_assign_other (k k0 : string) (v : jsval) (l : list (string * jsval)) :
  String.eqb k k0 = false ->
  lookup k (assign k0 v l) = lookup k l.
Proof.
  intros Hk. induction l as [|[k' v'] l IH]; cbn [assign lookup].
  - rewrite Hk. reflexivity.
  - destruct (String.eqb k0 k') eqn:E; cbn [lookup].
    + apply String.eqb_eq in E. subst k'. rewrite Hk. reflexivity.
    + destruct (String.eqb k k'); [reflexivity|exact IH].
Qed.

End ObjectLiterals.

Section CompilerProperties.
Import NaiService Observe.
Context {PU : PromptUtils}.
Variables (prompt0 negative : string) (params : NAIParams).

Lemma parameters_lookup_other (k : string) :
  String.eqb k "seed" = false ->
  lookup k (parameters prompt0 negative params)
  = lookup k (parameters_literal prompt0 negative params).
Proof.
  intros Hk. unfold parameters.
  destruct (sent_seed params) as [s|]; [|reflexivity].
  apply lookup_assign_other. exact Hk.
Qed.

Lemma literal_has_no_seed :
  lookup "seed" (parameters_literal prompt0 negative params) = None.
Proof. reflexivity. Qed.

Lemma payload_parameters (k : string) :
  at_path ["parameters"; k] (payload prompt0 negative params)
  = match lookup k (parameters prompt0 negative params) with
    | Some v => Some v
    | None => None
    end.
Proof. reflexivity. Qed.

Lemma payload_nested (k : string) (ks : list string) :
  String.eqb k "seed" = false ->
  at_path ("parameters" :: k :: ks) (payload prompt0 negative params)
  = match lookup k (parameters_literal prompt0 negative params) with
    | Some v => at_path ks v
    | None => None
    end.
Proof.
  intros Hk. unfold payload. cbn [at_path lookup]. cbn.
  rewrite (parameters_lookup_other k Hk). reflexivity.
Qed.

End CompilerProperties.

Section CaptionLemmas.
Import NaiService Observe.

Lemma negative_caption_text (c : Character) :
  or_else (maybe_js VStr (negativePrompt c)) (VStr "") = VStr (negative_text c).
Proof.
  unfold negative_text, or_else.
  destruct (negativePrompt c) as [| |s]; cbn [maybe_js truthy]; try reflexivity.
  destruct (String.eqb s "") eqn:E; cbn [negb]; [|reflexivity].
  apply String.eqb_eq in E. subst s. reflexivity.
Qed.

Lemma has_characters_nonempty (params : NAIParams) (cs : list Character) :
  characters params = present cs -> cs <> [] ->
  truthy (hasCharacters params) = true /\ the_characters params = cs.
Proof.
  intros Hc Hne. unfold hasCharacters, the_characters. rewrite Hc.
  split; [|reflexivity]. destruct cs as [|c cs]; [contradiction|].
  cbn [truthy List.length]. apply Z.ltb_lt. lia.
Qed.

Lemma has_characters_none (params : NAIParams) :
  characters params = absent \/ characters params = null
  \/ characters params = present [] ->
  truthy (hasCharacters params) = false.
Proof.
  unfold hasCharacters. intros [H|[H|H]]; rewrite H; reflexivity.
Qed.

End CaptionLemmas.

Section CompilerTheorems.
Import NaiService Observe Fixture.

(** C3. Seed policy of the request compiler: a seed that is set and is not
    the sentinel -1 (zero included) becomes the [seed] field of the payload's
    parameters, with that exact value; a seed that is absent ([undefined] or
    [null]) or is -1 leaves the payload without any [seed] field. *)
Theorem seed_field_policy :
  forall (PU : PromptUtils) (prompt0 negative : string) (params : NAIParams),
    (forall s : Q,
        seed params = present s -> ~ (s == -1)%Q ->
        at_path ["parameters"; "seed"] (payload prompt0 negative params)
        = Some (VNum s))
    /\ (seed params = absent \/ seed params = null
        \/ (exists s : Q, seed params = present s /\ (s == -1)%Q) ->
        at_path ["parameters"; "seed"] (payload prompt0 negative params) = None).
Proof.
  intros PU prompt0 negative params. split.
  - intros s Hs Hne. rewrite payload_parameters. unfold parameters, sent_seed.
    rewrite Hs. destruct (Qeq_bool s (-1)) eqn:E.
    + apply Qeq_bool_iff in E. contradiction.
    + cbn [negb]. rewrite lookup_assign_same. reflexivity.
  - intros H. rewrite payload_parameters. unfold parameters, sent_seed.
    destruct H as [H|[H|[s [H Hs]]]]; rewrite H.
    + reflexivity.
    + reflexivity.
    + apply Qeq_bool_iff in Hs. rewrite Hs. reflexivity.
Qed.

Lemma seed_field_policy_witness :
  at_path ["parameters"; "seed"]
    (payload "1girl" "lowres" (Fixture.some_params (present 0%Q) absent absent))
  = Some (VNum 0)
  /\ at_path ["parameters"; "seed"]
       (payload "1girl" "lowres" (Fixture.some_params (present (-1)%Q) absent absent))
     = None
  /\ at_path ["parameters"; "seed"]
       (payload "1girl" "lowres" (Fixture.some_params absent absent absent))
     = None.
Proof.
  split; [|split].
  - apply (proj1 (seed_field_policy Fixture.prompt_utils "1girl" "lowres"
                    (Fixture.some_params (present 0%Q) absent absent)) 0%Q).
    + reflexivity.
    + intro H. vm_compute in H. discriminate H.
  - apply (proj2 (seed_field_policy Fixture.prompt_utils "1girl" "lowres"
                    (Fixture.some_params (present (-1)%Q) absent absent))).
    right. right. exists (-1)%Q. split; reflexivity.
  - apply (proj2 (seed_field_policy Fixture.prompt_utils "1girl" "lowres"
                    (Fixture.some_params absent absent absent))).
    left. reflexivity.
Defined.

(** C5. Quality-tag suffix: with [qualityToggle] explicitly [false] the
    prompt of the payload (its [input] and the base caption of [v4_prompt])
    is the given prompt unchanged; with the toggle omitted or [true] it is
    the given prompt followed by one copy of the quality-tag constant. *)
Theorem quality_suffix_policy :
  forall (PU : PromptUtils) (prompt0 negative : string) (params : NAIParams),
    (qualityToggle params = present false ->
       at_path ["input"] (payload prompt0 negative params) = Some (VStr prompt0)
       /\ at_path ["parameters"; "v4_prompt"; "caption"; "base_caption"]
            (payload prompt0 negative params) = Some (VStr prompt0))
    /\ (qualityToggle params <> present false ->
       at_path ["input"] (payload prompt0 negative params)
       = Some (VStr (prompt0 ++ NAI_QUALITY_TAGS))
       /\ at_path ["parameters"; "v4_prompt"; "caption"; "base_caption"]
            (payload prompt0 negative params)
          = Some (VStr (prompt0 ++ NAI_QUALITY_TAGS))).
Proof.
  intros PU prompt0 negative params. split; intros H.
  - assert (E : finalPrompt prompt0 params = prompt0).
    { unfold finalPrompt, quality_on. rewrite H. reflexivity. }
    split.
    + unfold payload. cbn [at_path lookup]. cbn. rewrite E. reflexivity.
    + rewrite payload_nested by reflexivity. cbn. rewrite E. reflexivity.
  - assert (E : finalPrompt prompt0 params = (prompt0 ++ NAI_QUALITY_TAGS)%string).
    { unfold finalPrompt, quality_on.
      destruct (qualityToggle params) as [| |[|]]; try reflexivity.
      contradiction H. reflexivity. }
    split.
    + unfold payload. cbn [at_path lookup]. cbn. rewrite E. reflexivity.
    + rewrite payload_nested by reflexivity. cbn. rewrite E. reflexivity.
Qed.

Lemma quality_suffix_policy_witness :
  at_path ["input"]
    (payload "1girl" "lowres" (Fixture.some_params absent (present false) absent))
  = Some (VStr "1girl")
  /\ at_path ["input"]
       (payload "1girl" "lowres" (Fixture.some_params absent absent absent))
     = Some (VStr "1girl, very aesthetic, masterpiece, no text").
Proof.
  split.
  - apply (proj1 (quality_suffix_policy Fixture.prompt_utils "1girl" "lowres"
                    (Fixture.some_params absent (present false) absent))).
    reflexivity.
  - apply (proj2 (quality_suffix_policy Fixture.prompt_utils "1girl" "lowres"
                    (Fixture.some_params absent absent absent))).
    discriminate.
Defined.

(** C6. Character captions: for a non-empty [characters] of length n the
    payload carries a positive and a negative caption sequence, each of
    length n and in the order of the input; entry i of the positive one has
    character i's prompt, entry i of the negative one has its negative
    prompt (the empty string when it has none), and both have character i's
    coordinates. With no characters both sequences are empty. *)
Theorem character_captions_mirror :
  forall (PU : PromptUtils) (prompt0 negative : string) (params : NAIParams),
    (forall cs : list Character,
        characters params = present cs -> cs <> [] ->
        exists pos neg : list jsval,
          at_path positive_path (payload prompt0 negative params) = Some (VArr pos)
          /\ at_path negative_path (payload prompt0 negative params) = Some (VArr neg)
          /\ List.length pos = List.length cs
          /\ List.length neg = List.length cs
          /\ forall (i : nat) (c : Character),
               nth_error cs i = Some c ->
               nth_error pos i = Some (caption (prompt c) (x c) (y c))
               /\ nth_error neg i = Some (caption (negative_text c) (x c) (y c)))
    /\ (characters params = absent \/ characters params = null
        \/ characters params = present [] ->
        at_path positive_path (payload prompt0 negative params) = Some (VArr [])
        /\ at_path negative_path (payload prompt0 negative params) = Some (VArr [])).
Proof.
  intros PU prompt0 negative params. split.
  - intros cs Hc Hne.
    destruct (has_characters_nonempty params cs Hc Hne) as [Ht Hcs].
    exists (map (fun c => caption (prompt c) (x c) (y c)) cs),
           (map (fun c => caption (negative_text c) (x c) (y c)) cs).
    split; [|split; [|split; [|split]]].
    + unfold positive_path. rewrite payload_nested by reflexivity. cbn.
      unfold charCaptions. rewrite Ht, Hcs. reflexivity.
    + unfold negative_path. rewrite payload_nested by reflexivity. cbn.
      unfold charNegativeCaptions. rewrite Ht, Hcs. do 2 f_equal.
      apply map_ext. intros c. rewrite negative_caption_text. reflexivity.
    + apply length_map.
    + apply length_map.
    + intros i c Hi. split.
      * rewrite nth_error_map, Hi. reflexivity.
      * rewrite nth_error_map, Hi. reflexivity.
  - intros H. pose proof (has_characters_none params H) as Ht. split.
    + unfold positive_path. rewrite payload_nested by reflexivity. cbn.
      unfold charCaptions. rewrite Ht. reflexivity.
    + unfold negative_path. rewrite payload_nested by reflexivity. cbn.
      unfold charNegativeCaptions. rewrite Ht. reflexivity.
Qed.

Lemma character_captions_mirror_witness :
  exists pos neg : list jsval,
    at_path positive_path
      (payload "2girls" "lowres"
         (Fixture.some_params absent absent
            (present [Fixture.a_character "girl, red hair" (present "hat") (1#2) (1#4);
                      Fixture.a_character "girl, blue hair" absent (3#4) (1#2)])))
    = Some (VArr pos)
    /\ at_path negative_path
         (payload "2girls" "lowres"
            (Fixture.some_params absent absent
               (present [Fixture.a_character "girl, red hair" (present "hat") (1#2) (1#4);
                         Fixture.a_character "girl, blue hair" absent (3#4) (1#2)])))
       = Some (VArr neg)
    /\ List.length pos = 2%nat /\ List.length neg = 2%nat
    /\ nth_error pos 1 = Some (caption "girl, blue hair" (3#4) (1#2))
    /\ nth_error neg 1 = Some (caption "" (3#4) (1#2)).
Proof.
  destruct (proj1 (character_captions_mirror Fixture.prompt_utils "2girls" "lowres"
                     (Fixture.some_params absent absent
                        (present [Fixture.a_character "girl, red hair" (present "hat") (1#2) (1#4);
                                  Fixture.a_character "girl, blue hair" absent (3#4) (1#2)])))
                  _ eq_refl ltac:(discriminate))
    as (pos & neg & Hp & Hn & Lp & Ln & Hi).
  exists pos, neg.
  split; [exact Hp|]. split; [exact Hn|]. split; [exact Lp|]. split; [exact Ln|].
  exact (Hi 1%nat (Fixture.a_character "girl, blue hair" absent (3#4) (1#2)) eq_refl).
Defined.

End CompilerTheorems.

(* ================================================================== *)
(** * Properties of the archive decoder *)
(* ================================================================== *)

Section DecoderLemmas.
Import NaiService Observe.
Context {BR : Browser}.

Lemma ends_with_nonempty (s suf : string) :
  suf <> "" -> endsWith s suf = true -> truthy (VStr s) = true.
Proof.
  intros Hsuf H. unfold endsWith in H. apply andb_true_iff in H.
  destruct H as [Hlen _]. apply Nat.leb_le in Hlen.
  destruct s as [|a s]; [|reflexivity].
  destruct suf as [|b suf]; [contradiction|]. simpl in Hlen. lia.
Qed.

Lemma jsonFile_truthy (files : ZipFiles) (name : string) :
  jsonFile files = Some name -> truthy (VStr name) = true.
Proof.
  unfold jsonFile. intros H. apply find_some in H. destruct H as [_ H].
  apply (ends_with_nonempty name ".json"); [discriminate|exact H].
Qed.

Lemma file_listed (files : ZipFiles) (name : string) :
  In name (map fst files) -> exists content, file name files = Some content.
Proof.
  induction files as [|[n c] files IH]; cbn [map fst In file]; [contradiction|].
  intros [H|H].
  - subst n. rewrite String.eqb_refl. eauto.
  - destruct (String.eqb name n); [eauto|exact (IH H)].
Qed.

Lemma decode_first (name content : string) (rest : ZipFiles) (seed0 : option Q) :
  name <> "" ->
  decode ((name, content) :: rest) seed0
  = Normal {| image := "data:image/png;base64," ++ base64 content;
              resolved_seed := seed_after ((name, content) :: rest) seed0 |}.
Proof.
  intros Hname. unfold decode. cbn [map fst].
  assert (Ht : truthy (VStr name) = true).
  { cbn [truthy]. destruct (String.eqb name "") eqn:E; [|reflexivity].
    apply String.eqb_eq in E. contradiction. }
  rewrite Ht. cbn [negb]. cbn [file]. rewrite String.eqb_refl.
  unfold seed_after. fold (sent_or_zero seed0).
  destruct (jsonFile ((name, content) :: rest)) as [n|] eqn:J; [|reflexivity].
  rewrite (jsonFile_truthy _ _ J). reflexivity.
Qed.

End DecoderLemmas.

Section DecoderTheorems.
Import NaiService Observe Fixture.

(** C9. The image of a decoded archive is its first listed entry, and an
    archive without entries is refused with "No image found in response"
    and no result. (Entries are named: the guard [!filename] holds for a
    missing first name and would hold for an empty one.) *)
Theorem first_entry_is_image :
  forall (BR : Browser) (files : ZipFiles) (seed0 : option Q),
    (files = [] -> decode files seed0 = Throw "No image found in response")
    /\ (forall (name content : string) (rest : ZipFiles),
           files = (name, content) :: rest -> name <> "" ->
           exists g : Generated,
             decode files seed0 = Normal g
             /\ image g = ("data:image/png;base64," ++ base64 content)%string).
Proof.
  intros BR files seed0. split.
  - intros H. subst files. reflexivity.
  - intros name content rest H Hname. subst files.
    rewrite (decode_first name content rest seed0 Hname).
    eexists. split; reflexivity.
Qed.

Lemma first_entry_is_image_witness :
  decode [] (Some 7%Q) = Throw "No image found in response"
  /\ exists g : Generated,
       decode [("image_0.png", "PNG"); ("meta.json", seed_42_text)] (Some 7%Q)
       = Normal g
       /\ image g = "data:image/png;base64,PNG".
Proof.
  split.
  - exact (proj1 (first_entry_is_image browser [] (Some 7%Q)) eq_refl).
  - exact (proj2 (first_entry_is_image browser
                    [("image_0.png", "PNG"); ("meta.json", seed_42_text)] (Some 7%Q))
                 "image_0.png" "PNG" [("meta.json", seed_42_text)] eq_refl
                 ltac:(discriminate)).
Defined.

(** C4, as the code has it. The decode of an archive with a (named) first
    entry always succeeds, and its resolved seed is: the [seed] member of the
    parsed metadata when the first entry whose name ends in [.json] parses
    to a value with a truthy [seed] member, any non-zero number in
    particular, whatever seed was sent; the sent seed, or 0 when none was
    sent, when no name ends in [.json], when that first metadata entry does
    not parse, or when what it parses to has no [seed] member. *)
Theorem resolved_seed_precedence :
  forall (BR : Browser) (files : ZipFiles) (seed0 : option Q)
         (name content : string) (rest : ZipFiles),
    files = (name, content) :: rest -> name <> "" ->
    exists g : Generated,
      decode files seed0 = Normal g
      /\ (forall (meta text : string) (j s : jsval),
             jsonFile files = Some meta -> file meta files = Some text ->
             JSON_parse text = Normal j -> get j "seed" = Normal s ->
             truthy s = true ->
             resolved_seed g = s)
      /\ (forall (meta text : string) (fields : list (string * jsval)) (q : Q),
             jsonFile files = Some meta -> file meta files = Some text ->
             JSON_parse text = Normal (VObj fields) ->
             lookup "seed" fields = Some (VNum q) -> ~ (q == 0)%Q ->
             resolved_seed g = VNum q)
      /\ (jsonFile files = None -> resolved_seed g = sent_or_zero seed0)
      /\ (forall (meta text e : string),
             jsonFile files = Some meta -> file meta files = Some text ->
             JSON_parse text = Throw e ->
             resolved_seed g = sent_or_zero seed0)
      /\ (forall (meta text : string) (j : jsval),
             jsonFile files = Some meta -> file meta files = Some text ->
             JSON_parse text = Normal j ->
             (get j "seed" = Normal VUndefined \/ exists e, get j "seed" = Throw e) ->
             resolved_seed g = sent_or_zero seed0).
Proof.
  intros BR files seed0 name content rest Hf Hname. subst files.
  eexists. split; [apply (decode_first name content rest seed0 Hname)|].
  cbn [resolved_seed]. unfold seed_after.
  split; [|split; [|split; [|split]]].
  - intros meta text j s HJ HF HP HG HT. rewrite HJ, HF.
    unfold seed_from_metadata. rewrite HP, HG, HT. reflexivity.
  - intros meta text fields q HJ HF HP HL Hq. rewrite HJ, HF.
    unfold seed_from_metadata. rewrite HP. cbn [get]. rewrite HL.
    cbn [truthy]. destruct (Qeq_bool q 0) eqn:E; [|reflexivity].
    apply Qeq_bool_iff in E. contradiction.
  - intros HJ. rewrite HJ. reflexivity.
  - intros meta text e HJ HF HP. rewrite HJ, HF.
    unfold seed_from_metadata. rewrite HP. reflexivity.
  - intros meta text j HJ HF HP HG. rewrite HJ, HF.
    unfold seed_from_metadata. rewrite HP.
    destruct HG as [HG|[e HG]]; rewrite HG; reflexivity.
Qed.

Lemma resolved_seed_precedence_witness :
  exists g : Generated,
    decode [("image_0.png", "PNG"); ("meta.json", seed_42_text)] (Some 7%Q) = Normal g
    /\ resolved_seed g = VInt 42.
Proof.
  destruct (resolved_seed_precedence browser
              [("image_0.png", "PNG"); ("meta.json", seed_42_text)] (Some 7%Q)
              "image_0.png" "PNG" [("meta.json", seed_42_text)] eq_refl
              ltac:(discriminate))
    as (g & Hg & Ha & _).
  exists g. split; [exact Hg|].
  exact (Ha "meta.json" seed_42_text (VObj [("seed", VInt 42)]) (VInt 42)
            eq_refl eq_refl eq_refl eq_refl eq_refl).
Defined.

(** C4 as stated fails on two archives. In the first the metadata has a
    [seed] member that is a string, not a number: the claim resolves to the
    sent seed 7, the code returns the string. In the second a metadata entry
    with the numeric seed 42 exists, listed after another [.json] entry that
    parses and has no seed: the claim resolves to 42, the code reads only
    the first [.json] name and returns the sent 7. *)
Lemma resolved_seed_counterexample :
  (exists g : Generated,
      decode [("image_0.png", "PNG"); ("meta.json", seed_string_text)] (Some 7%Q)
      = Normal g
      /\ JSON_parse seed_string_text = Normal (VObj [("seed", VStr "1234")])
      /\ resolved_seed g = VStr "1234"
      /\ resolved_seed g <> sent_or_zero (Some 7%Q))
  /\ (exists g : Generated,
         decode [("image_0.png", "PNG"); ("a.json", no_seed_text);
                 ("b.json", seed_42_text)] (Some 7%Q)
         = Normal g
         /\ JSON_parse no_seed_text = Normal (VObj [("steps", VInt 28)])
         /\ JSON_parse seed_42_text = Normal (VObj [("seed", VInt 42)])
         /\ resolved_seed g = VNum 7
         /\ resolved_seed g <> VInt 42).
Proof.
  split.
  - eexists. split; [reflexivity|]. split; [reflexivity|].
    split; [reflexivity|]. discriminate.
  - eexists. split; [reflexivity|]. split; [reflexivity|].
    split; [reflexivity|]. split; [reflexivity|]. discriminate.
Qed.

(** A metadata seed of 0 is a number and is skipped all the same ([if
    (json.seed)] tests truthiness): the sent seed is returned. *)
Example zero_metadata_seed_is_skipped :
  exists g : Generated,
    decode [("image_0.png", "PNG"); ("meta.json", seed_0_text)] (Some 7%Q) = Normal g
    /\ resolved_seed g = VNum 7.
Proof. eexists. split; reflexivity. Qed.

End DecoderTheorems.

(* ================================================================== *)
(** * Properties of the worker: routing *)
(* ================================================================== *)

Section PathLemmas.
Import Worker.

Lemma strip_spec (pre s rest : string) :
  strip pre s = Some rest -> s = (pre ++ rest)%string.
Proof.
  revert s. induction pre as [|a pre IH]; intros s Hs; cbn [strip] in Hs.
  - inversion Hs. reflexivity.
  - destruct s as [|b s]; [discriminate|].
    destruct (Ascii.eqb a b) eqn:E; [|discriminate].
    apply Ascii.eqb_eq in E. subst b. cbn [String.append]. f_equal.
    apply IH. exact Hs.
Qed.

Lemma match_segment_spec (pre suf p seg : string) :
  match_segment pre suf p = Some seg ->
  exists rest : string, p = (pre ++ rest)%string /\ seg <> "".
Proof.
  unfold match_segment. intros Hm.
  destruct (strip pre p) as [rest|] eqn:Hs; [|discriminate].
  exists rest. split; [apply strip_spec; exact Hs|].
  destruct (split_slash rest) as [sg tail].
  destruct (String.eqb sg "") eqn:E; cbn [negb andb] in Hm; [discriminate|].
  destruct (String.eqb tail suf); [|discriminate].
  inversion Hm. subst sg. intro Hc. subst seg. discriminate E.
Qed.

Lemma includes_nonempty (e sub : string) :
  sub <> "" -> includes e sub = true -> truthy (VStr e) = true.
Proof.
  intros Hsub H. destruct e as [|a e]; [|reflexivity].
  destruct sub as [|b sub]; [contradiction|]. discriminate H.
Qed.

End PathLemmas.

Section RoutingLemmas.
Import Worker Observe.
Context {S : Type} {D : D1Database S} {H : Host}.
Variables (env : Env) (inv : Invocation).

Lemma admin_only_guarded (r : Request) :
  admin_only r = true <-> guarded r.
Proof.
  unfold admin_only, guarded. rewrite !orb_true_iff, !andb_true_iff.
  rewrite !String.eqb_eq. tauto.
Qed.

Lemma wrong_key_spec (r : Request) :
  wrong_key env r = true <-> x_master_key r <> Some (MASTER_KEY env).
Proof.
  unfold wrong_key. destruct (x_master_key r) as [k|].
  - destruct (String.eqb k (MASTER_KEY env)) eqn:E; cbn [negb].
    + apply String.eqb_eq in E. subst k. split; [discriminate|].
      intros Hc. contradiction Hc. reflexivity.
    + split; [|reflexivity]. intros _ Hc. inversion Hc. subst k.
      rewrite String.eqb_refl in E. discriminate E.
  - split; [discriminate|reflexivity].
Qed.

(** An API request that is not a preflight runs the [try] block. *)
Lemma fetch_api (r : Request) :
  startsWith (path r) "/api/" = true ->
  String.eqb (method r) "OPTIONS" = false ->
  fetch env r inv = try_catch (api env r inv) (fun e => lift (error e 500)).
Proof.
  intros Hapi Hopt. unfold fetch. rewrite Hapi, Hopt. reflexivity.
Qed.

Lemma fetch_header_irrelevant (r : Request) (key : option string) (w : World S) :
  startsWith (path r) "/api/" = true ->
  admin_only r = false ->
  fetch env (with_key r key) inv w = fetch env r inv w.
Proof.
  intros Hapi Hadm. destruct r as [m p k b]. unfold with_key.
  cbn [method path x_master_key json_body] in *.
  unfold fetch. cbn [method path]. rewrite Hapi. cbn [negb].
  destruct (String.eqb m "OPTIONS"); [reflexivity|].
  unfold try_catch, api.
  assert (A : forall kk, admin_only {| method := m; path := p;
                                       x_master_key := kk; json_body := b |} = false).
  { intro kk. exact Hadm. }
  rewrite !A. cbn [andb method path]. unfold store_routes.
  cbn [method path]. rewrite Hapi. reflexivity.
Qed.

Lemma versions_route_unguarded (r : Request) :
  method r = "POST" -> versionsMatch (path r) <> None -> admin_only r = false.
Proof.
  intros Hm Hp. unfold admin_only. rewrite Hm.
  destruct (versionsMatch (path r)) as [seg|] eqn:E; [|contradiction].
  destruct (match_segment_spec _ _ _ _ E) as (rest & Hrest & _).
  rewrite Hrest. reflexivity.
Qed.

End RoutingLemmas.

Section RoutingTheorems.
Import Worker Sqlite Observe Fixture.

(** A caller without the secret creates a chain with its first version. *)
Example unauthenticated_create_chain :
  exists w' : World Db,
    fetch env (request "POST" "/api/chains" None
                 (VObj [("name", VStr "Foo"); ("description", VStr "bar")]))
          (invocation 1) ready
    = ((json (VObj [("id", VStr "1-0")]) 200), w')
    /\ option_map (map c_id) (chains (store w')) = Some ["1-0"]
    /\ option_map (map (fun v => (v_chain_id v, v_version v))) (versions (store w'))
       = Some [("1-0", 1)].
Proof. eexists. split; [reflexivity|]. split; reflexivity. Qed.

End RoutingTheorems.

(* ================================================================== *)
(** * Properties of the worker: the store routes *)
(* ================================================================== *)

Section Provisioning.
Import Worker Sqlite.

(** On D1 the provisioning call throws and leaves the database as it was. *)
Lemma exec_init_throws (d : Db) : exec_init d = (Throw init_error, d).
Proof. reflexivity. Qed.

End Provisioning.

Section StoreRoutes.
Import Worker Observe.
Context {S : Type} {D : D1Database S} {H : Host}.
Variables (env : Env) (inv : Invocation).
Hypothesis bound : DB env = D1Binding.

Ltac booleans :=
  cbn [String.eqb Ascii.eqb Bool.eqb startsWith String.prefix andb orb negb];
  rewrite ?andb_false_r, ?andb_true_r, ?orb_false_r, ?orb_true_r;
  cbn [andb orb negb].

Lemma authorized_key (r : Request) :
  x_master_key r = Some (MASTER_KEY env) -> wrong_key env r = false.
Proof.
  intros Hk. unfold wrong_key. rewrite Hk, String.eqb_refl. reflexivity.
Qed.

Lemma route_list_chains (r : Request) :
  method r = "GET" -> path r = "/api/chains" ->
  fetch env r inv = handled list_chains.
Proof.
  intros Hm Hp. rewrite fetch_api by (rewrite ?Hm, ?Hp; reflexivity).
  unfold api, admin_only, store_routes. rewrite Hm, Hp, bound. reflexivity.
Qed.

Lemma route_create_chain (r : Request) :
  method r = "POST" -> path r = "/api/chains" ->
  fetch env r inv = handled (create_chain r inv).
Proof.
  intros Hm Hp. rewrite fetch_api by (rewrite ?Hm, ?Hp; reflexivity).
  unfold api, admin_only, store_routes. rewrite Hm, Hp, bound. reflexivity.
Qed.

Lemma route_list_artists (r : Request) :
  method r = "GET" -> path r = "/api/artists" ->
  fetch env r inv = handled list_artists.
Proof.
  intros Hm Hp. rewrite fetch_api by (rewrite ?Hm, ?Hp; reflexivity).
  unfold api, admin_only, store_routes. rewrite Hm, Hp, bound. reflexivity.
Qed.

Lemma route_list_inspirations (r : Request) :
  method r = "GET" -> path r = "/api/inspirations" ->
  fetch env r inv = handled list_inspirations.
Proof.
  intros Hm Hp. rewrite fetch_api by (rewrite ?Hm, ?Hp; reflexivity).
  unfold api, admin_only, store_routes. rewrite Hm, Hp, bound. reflexivity.
Qed.

Lemma route_upsert_artist (r : Request) :
  method r = "POST" -> path r = "/api/artists" ->
  x_master_key r = Some (MASTER_KEY env) ->
  fetch env r inv = handled (upsert_artist r).
Proof.
  intros Hm Hp Hk. rewrite fetch_api by (rewrite ?Hm, ?Hp; reflexivity).
  unfold api. rewrite (authorized_key r Hk), andb_false_r.
  unfold store_routes. rewrite Hm, Hp, bound. reflexivity.
Qed.

Lemma route_upsert_inspiration (r : Request) :
  method r = "POST" -> path r = "/api/inspirations" ->
  x_master_key r = Some (MASTER_KEY env) ->
  fetch env r inv = handled (upsert_inspiration r).
Proof.
  intros Hm Hp Hk. rewrite fetch_api by (rewrite ?Hm, ?Hp; reflexivity).
  unfold api. rewrite (authorized_key r Hk), andb_false_r.
  unfold store_routes. rewrite Hm, Hp, bound. reflexivity.
Qed.

Lemma route_update_chain (r : Request) (id : string) :
  method r = "PUT" -> chainIdMatch (path r) = Some id ->
  x_master_key r = Some (MASTER_KEY env) ->
  fetch env r inv = handled (update_chain r inv id).
Proof.
  intros Hm Hp Hk.
  destruct (match_segment_spec _ _ _ _ Hp) as (rest & Hrest & _).
  rewrite fetch_api by (rewrite ?Hm, ?Hrest; reflexivity).
  unfold api. rewrite (authorized_key r Hk), andb_false_r.
  unfold store_routes. rewrite Hm, Hp, bound. booleans. reflexivity.
Qed.

Lemma route_delete_chain (r : Request) (id : string) :
  method r = "DELETE" -> chainIdMatch (path r) = Some id ->
  x_master_key r = Some (MASTER_KEY env) ->
  fetch env r inv = handled (delete_chain id).
Proof.
  intros Hm Hp Hk.
  destruct (match_segment_spec _ _ _ _ Hp) as (rest & Hrest & _).
  rewrite fetch_api by (rewrite ?Hm, ?Hrest; reflexivity).
  unfold api. rewrite (authorized_key r Hk), andb_false_r.
  unfold store_routes. rewrite Hm, Hp, bound. booleans. reflexivity.
Qed.

Lemma route_create_version (r : Request) (chainId : string) :
  method r = "POST" -> versionsMatch (path r) = Some chainId ->
  fetch env r inv = handled (create_version r inv chainId).
Proof.
  intros Hm Hp.
  destruct (match_segment_spec _ _ _ _ Hp) as (rest & Hrest & _).
  assert (Hv : String.eqb (path r) "/api/verify-key" = false)
    by (rewrite Hrest; reflexivity).
  assert (Hg : String.eqb (path r) "/api/generate" = false)
    by (rewrite Hrest; reflexivity).
  assert (Hc : String.eqb (path r) "/api/chains" = false)
    by (rewrite Hrest; reflexivity).
  rewrite fetch_api by (rewrite ?Hm, ?Hrest; reflexivity).
  unfold api.
  rewrite (versions_route_unguarded r Hm ltac:(rewrite Hp; discriminate)).
  rewrite Hv, Hg, bound. unfold store_routes. rewrite Hc, Hp, Hm. booleans.
  destruct (chainIdMatch (path r)); reflexivity.
Qed.

Lemma route_delete_artist (r : Request) (id : string) :
  method r = "DELETE" -> artistIdMatch (path r) = Some id ->
  x_master_key r = Some (MASTER_KEY env) ->
  fetch env r inv = handled (delete_artist id).
Proof.
  intros Hm Hp Hk.
  destruct (match_segment_spec _ _ _ _ Hp) as (rest & Hrest & _).
  assert (Hc : chainIdMatch (path r) = None) by (rewrite Hrest; reflexivity).
  rewrite fetch_api by (rewrite ?Hm, ?Hrest; reflexivity).
  unfold api. rewrite (authorized_key r Hk), andb_false_r.
  unfold store_routes. rewrite Hm, Hp, Hc, bound. booleans.
  destruct (versionsMatch (path r)); reflexivity.
Qed.

Lemma route_delete_inspiration (r : Request) (id : string) :
  method r = "DELETE" -> inspIdMatch (path r) = Some id ->
  x_master_key r = Some (MASTER_KEY env) ->
  fetch env r inv = handled (delete_inspiration id).
Proof.
  intros Hm Hp Hk.
  destruct (match_segment_spec _ _ _ _ Hp) as (rest & Hrest & _).
  assert (Hc : chainIdMatch (path r) = None) by (rewrite Hrest; reflexivity).
  assert (Ha : artistIdMatch (path r) = None) by (rewrite Hrest; reflexivity).
  rewrite fetch_api by (rewrite ?Hm, ?Hrest; reflexivity).
  unfold api. rewrite (authorized_key r Hk), andb_false_r.
  unfold store_routes. rewrite Hm, Hp, Hc, Ha, bound. booleans.
  destruct (versionsMatch (path r)); reflexivity.
Qed.

End StoreRoutes.

(* ================================================================== *)
(** * Properties of the worker: schema recovery *)
(* ================================================================== *)

Section RecoveryLemmas.
Import Worker Observe.
Context {S : Type} {D : D1Database S} {H : Host}.
Variable inv : Invocation.

Lemma relation_missing_true (e : string) :
  relation_missing e -> missing_relation e = true.
Proof.
  unfold relation_missing, missing_relation. intros [E|E].
  - rewrite (includes_nonempty e "no such table" ltac:(discriminate) E), E.
    reflexivity.
  - rewrite (includes_nonempty e "object not found" ltac:(discriminate) E), E.
    apply orb_true_r.
Qed.

Lemma table_missing_true (e : string) :
  table_missing e -> missing_table e = true.
Proof.
  unfold table_missing, missing_table. intros E.
  rewrite (includes_nonempty e "no such table" ltac:(discriminate) E), E.
  reflexivity.
Qed.

Lemma other_error_relation (e : string) :
  other_error e -> missing_relation e = false.
Proof.
  unfold other_error, missing_relation. intros [E1 E2]. rewrite E1, E2.
  apply andb_false_r.
Qed.

Lemma other_error_table (e : string) :
  other_error e -> missing_table e = false.
Proof.
  unfold other_error, missing_table. intros [E1 _]. rewrite E1.
  apply andb_false_r.
Qed.

Ltac run_monad :=
  unfold handled, bind, try_catch, query, lift, ret, throw; cbn [store log].

Ltac ran Hrun := cbn [store log]; rewrite Hrun; cbn [store log].

Ltac same_world :=
  unfold after; cbn [map app]; rewrite <- ?app_assoc; cbn [app]; reflexivity.

Ltac not_in :=
  let X := fresh "X" in cbn [In]; intros X;
  repeat (destruct X as [X|X]; [discriminate X|]); exact X.

Lemma list_chains_recovers :
  provisions_and_retries relation_missing other_error SelectChains
    (handled list_chains).
Proof.
  intros w e d1 Hrun. unfold list_chains. split.
  - intros Ho. run_monad. ran Hrun. rewrite (other_error_relation e Ho).
    same_world.
  - intros Hr. split; [|intros u d2 Hinit; split].
    + intros e' d2 Hinit. run_monad. ran Hrun.
      rewrite (relation_missing_true e Hr). ran Hinit. same_world.
    + intros e2 d3 Hrun2. run_monad. ran Hrun.
      rewrite (relation_missing_true e Hr). ran Hinit. ran Hrun2. same_world.
    + intros r d3 Hrun2. run_monad. ran Hrun.
      rewrite (relation_missing_true e Hr). ran Hinit. ran Hrun2.
      destruct (run SelectLatestVersions d3) as [[vs|ev] d4] eqn:E.
      * destruct (build_version_map vs []) as [vm|x];
          [destruct (traverse (chain_view vm) r) as [data|x]|];
          eexists; exists d4, [SelectLatestVersions];
          (split; [same_world|split; not_in]).
      * eexists. exists d4, [SelectLatestVersions].
        split; [same_world|split; not_in].
Qed.

Lemma create_chain_recovers (r : Request) (b name description : jsval) :
  json_body r = Normal b ->
  get b "name" = Normal name -> get b "description" = Normal description ->
  provisions_and_retries relation_missing other_error
    (InsertChain (randomUUID inv 0) name description "[]"
                 (Date_now inv 0) (Date_now inv 0))
    (handled (create_chain r inv)).
Proof.
  intros Hb Hn Hd w e d1 Hrun. unfold create_chain. split.
  - intros Ho. run_monad. rewrite Hb, Hn, Hd. ran Hrun.
    rewrite (other_error_relation e Ho). same_world.
  - intros Hr. split; [|intros u d2 Hinit; split].
    + intros e' d2 Hinit. run_monad. rewrite Hb, Hn, Hd. ran Hrun.
      rewrite (relation_missing_true e Hr). ran Hinit. same_world.
    + intros e2 d3 Hrun2. run_monad. rewrite Hb, Hn, Hd. ran Hrun.
      rewrite (relation_missing_true e Hr). ran Hinit. ran Hrun2. same_world.
    + intros u' d3 Hrun2. run_monad. rewrite Hb, Hn, Hd. ran Hrun.
      rewrite (relation_missing_true e Hr). ran Hinit. ran Hrun2.
      match goal with
      | |- context [run ?s d3] => destruct (run s d3) as [[u''|ev] d4] eqn:E;
          eexists; exists d4, [s]; (split; [same_world|split; not_in])
      end.
Qed.

Lemma upsert_artist_recovers (r : Request) (b id name imageUrl : jsval) :
  json_body r = Normal b ->
  get b "id" = Normal id -> get b "name" = Normal name ->
  get b "imageUrl" = Normal imageUrl ->
  provisions_and_retries table_missing other_error
    (UpsertArtist id name imageUrl) (handled (upsert_artist r)).
Proof.
  intros Hb Hi Hn Hu w e d1 Hrun. unfold upsert_artist, upsert_artist_stmt. split.
  - intros Ho. run_monad. rewrite Hb, Hi, Hn, Hu. ran Hrun.
    rewrite (other_error_table e Ho). same_world.
  - intros Hr. split; [|intros u d2 Hinit; split].
    + intros e' d2 Hinit. run_monad. rewrite Hb, Hi, Hn, Hu. ran Hrun.
      rewrite (table_missing_true e Hr). ran Hinit. same_world.
    + intros e2 d3 Hrun2. run_monad. rewrite Hb, Hi, Hn, Hu. ran Hrun.
      rewrite (table_missing_true e Hr). ran Hinit. ran Hrun2. same_world.
    + intros u' d3 Hrun2. run_monad. rewrite Hb, Hi, Hn, Hu. ran Hrun.
      rewrite (table_missing_true e Hr). ran Hinit. ran Hrun2.
      eexists. exists d3, []. split; [same_world|split; not_in].
Qed.

Lemma upsert_inspiration_recovers (r : Request)
      (b id title imageUrl prompt createdAt : jsval) :
  json_body r = Normal b ->
  get b "id" = Normal id -> get b "title" = Normal title ->
  get b "imageUrl" = Normal imageUrl -> get b "prompt" = Normal prompt ->
  get b "createdAt" = Normal createdAt ->
  provisions_and_retries table_missing other_error
    (UpsertInspiration id title imageUrl prompt createdAt)
    (handled (upsert_inspiration r)).
Proof.
  intros Hb Hi Ht Hu Hp Hc w e d1 Hrun.
  unfold upsert_inspiration, upsert_inspiration_stmt. split.
  - intros Ho. run_monad. rewrite Hb, Hi, Ht, Hu, Hp, Hc. ran Hrun.
    rewrite (other_error_table e Ho). same_world.
  - intros Hr. split; [|intros u d2 Hinit; split].
    + intros e' d2 Hinit. run_monad. rewrite Hb, Hi, Ht, Hu, Hp, Hc. ran Hrun.
      rewrite (table_missing_true e Hr). ran Hinit. same_world.
    + intros e2 d3 Hrun2. run_monad. rewrite Hb, Hi, Ht, Hu, Hp, Hc. ran Hrun.
      rewrite (table_missing_true e Hr). ran Hinit. ran Hrun2. same_world.
    + intros u' d3 Hrun2. run_monad. rewrite Hb, Hi, Ht, Hu, Hp, Hc. ran Hrun.
      rewrite (table_missing_true e Hr). ran Hinit. ran Hrun2.
      eexists. exists d3, []. split; [same_world|split; not_in].
Qed.

Lemma list_artists_provisions :
  provisions_and_answers_empty table_missing other_error SelectArtists
    (handled list_artists).
Proof.
  intros w e d1 Hrun. unfold list_artists. split.
  - intros Ho. run_monad. ran Hrun. rewrite (other_error_table e Ho). same_world.
  - intros Hr. split.
    + intros e' d2 Hinit. run_monad. ran Hrun.
      rewrite (table_missing_true e Hr). ran Hinit. same_world.
    + intros u d2 Hinit. run_monad. ran Hrun.
      rewrite (table_missing_true e Hr). ran Hinit. same_world.
Qed.

Lemma list_inspirations_provisions :
  provisions_and_answers_empty table_missing other_error SelectInspirations
    (handled list_inspirations).
Proof.
  intros w e d1 Hrun. unfold list_inspirations. split.
  - intros Ho. run_monad. ran Hrun. rewrite (other_error_table e Ho). same_world.
  - intros Hr. split.
    + intros e' d2 Hinit. run_monad. ran Hrun.
      rewrite (table_missing_true e Hr). ran Hinit. same_world.
    + intros u d2 Hinit. run_monad. ran Hrun.
      rewrite (table_missing_true e Hr). ran Hinit. same_world.
Qed.

Lemma delete_artist_once (id : string) :
  issues_once (DeleteArtist id) (handled (delete_artist id)).
Proof.
  intros w e d1 Hrun. unfold delete_artist. run_monad. ran Hrun. same_world.
Qed.

Lemma delete_inspiration_once (id : string) :
  issues_once (DeleteInspiration id) (handled (delete_inspiration id)).
Proof.
  intros w e d1 Hrun. unfold delete_inspiration. run_monad. ran Hrun. same_world.
Qed.

Lemma delete_chain_once (id : string) :
  issues_once (DeleteChain id) (handled (delete_chain id)).
Proof.
  intros w e d1 Hrun. unfold delete_chain. run_monad. ran Hrun. same_world.
Qed.

Lemma create_version_once (r : Request) (b : jsval) (chainId : string) :
  json_body r = Normal b ->
  issues_once (SelectMaxVersion chainId) (handled (create_version r inv chainId)).
Proof.
  intros Hb w e d1 Hrun. unfold create_version. run_monad. rewrite Hb.
  ran Hrun. same_world.
Qed.

Lemma update_chain_once (r : Request) (b : jsval) (id : string)
      (n d p : list string * list jsval) :
  json_body r = Normal b ->
  pushed b "name" "name" = Normal n ->
  pushed b "description" "description" = Normal d ->
  pushed b "previewImage" "preview_image" = Normal p ->
  fst n ++ fst d ++ fst p <> [] ->
  issues_once
    (UpdateChain ((fst n ++ fst d ++ fst p) ++ ["updated_at = ?"])
                 ((snd n ++ snd d ++ snd p) ++ [VInt (Date_now inv 0); VStr id]))
    (handled (update_chain r inv id)).
Proof.
  intros Hb Hn Hd Hp Hne w e d1 Hrun. unfold update_chain. run_monad.
  rewrite Hb, Hn, Hd, Hp.
  assert (Hpos : (0 <? Z.of_nat (List.length (fst n ++ fst d ++ fst p))) = true).
  { apply Z.ltb_lt. destruct (fst n ++ fst d ++ fst p); [contradiction|].
    cbn [List.length]. lia. }
  rewrite Hpos. ran Hrun. same_world.
Qed.

End RecoveryLemmas.

Section RecoveryTheorems.
Import Worker Sqlite Observe Fixture.

(** C2, as the code has it. Behind a bound database, four routes answer a
    first failure of their statement whose message is in their
    missing-relation class by running the schema statements once: when that
    call returns, they run their statement once more, and a failure of the
    retry propagates; when that call throws, its error propagates and the
    statement is not run again; a first failure of another class propagates
    at once, and the schema statements are not run. These are listing and
    creating chains, for a message that contains "no such table" or "object
    not found", and upserting an artist or an inspiration, for a message
    that contains "no such table". Listing artists or inspirations runs the
    schema statements once on "no such table" and, when that call returns,
    answers the empty list without running the query again. Deleting an
    artist, an inspiration or a chain, updating a chain and creating a
    version run their first statement once: its failure, of any class,
    propagates with no provisioning and no retry. *)
Theorem schema_recovery_by_route :
  forall (S : Type) (D : D1Database S) (H : Host) (env : Env) (inv : Invocation),
    DB env = D1Binding ->
    (forall r : Request,
        method r = "GET" -> path r = "/api/chains" ->
        provisions_and_retries relation_missing other_error SelectChains
          (fetch env r inv))
    /\ (forall (r : Request) (b name description : jsval),
           method r = "POST" -> path r = "/api/chains" ->
           json_body r = Normal b ->
           get b "name" = Normal name -> get b "description" = Normal description ->
           provisions_and_retries relation_missing other_error
             (InsertChain (randomUUID inv 0) name description "[]"
                          (Date_now inv 0) (Date_now inv 0))
             (fetch env r inv))
    /\ (forall (r : Request) (b id name imageUrl : jsval),
           method r = "POST" -> path r = "/api/artists" ->
           x_master_key r = Some (MASTER_KEY env) ->
           json_body r = Normal b ->
           get b "id" = Normal id -> get b "name" = Normal name ->
           get b "imageUrl" = Normal imageUrl ->
           provisions_and_retries table_missing other_error
             (UpsertArtist id name imageUrl) (fetch env r inv))
    /\ (forall (r : Request) (b id title imageUrl prompt createdAt : jsval),
           method r = "POST" -> path r = "/api/inspirations" ->
           x_master_key r = Some (MASTER_KEY env) ->
           json_body r = Normal b ->
           get b "id" = Normal id -> get b "title" = Normal title ->
           get b "imageUrl" = Normal imageUrl -> get b "prompt" = Normal prompt ->
           get b "createdAt" = Normal createdAt ->
           provisions_and_retries table_missing other_error
             (UpsertInspiration id title imageUrl prompt createdAt)
             (fetch env r inv))
    /\ (forall r : Request,
           method r = "GET" -> path r = "/api/artists" ->
           provisions_and_answers_empty table_missing other_error SelectArtists
             (fetch env r inv))
    /\ (forall r : Request,
           method r = "GET" -> path r = "/api/inspirations" ->
           provisions_and_answers_empty table_missing other_error
             SelectInspirations (fetch env r inv))
    /\ (forall (r : Request) (id : string),
           method r = "DELETE" -> artistIdMatch (path r) = Some id ->
           x_master_key r = Some (MASTER_KEY env) ->
           issues_once (DeleteArtist id) (fetch env r inv))
    /\ (forall (r : Request) (id : string),
           method r = "DELETE" -> inspIdMatch (path r) = Some id ->
           x_master_key r = Some (MASTER_KEY env) ->
           issues_once (DeleteInspiration id) (fetch env r inv))
    /\ (forall (r : Request) (id : string),
           method r = "DELETE" -> chainIdMatch (path r) = Some id ->
           x_master_key r = Some (MASTER_KEY env) ->
           issues_once (DeleteChain id) (fetch env r inv))
    /\ (forall (r : Request) (id : string) (b : jsval)
               (n d p : list string * list jsval),
           method r = "PUT" -> chainIdMatch (path r) = Some id ->
           x_master_key r = Some (MASTER_KEY env) ->
           json_body r = Normal b ->
           pushed b "name" "name" = Normal n ->
           pushed b "description" "description" = Normal d ->
           pushed b "previewImage" "preview_image" = Normal p ->
           fst n ++ fst d ++ fst p <> [] ->
           issues_once
             (UpdateChain ((fst n ++ fst d ++ fst p) ++ ["updated_at = ?"])
                          ((snd n ++ snd d ++ snd p)
                           ++ [VInt (Date_now inv 0); VStr id]))
             (fetch env r inv))
    /\ (forall (r : Request) (chainId : string) (b : jsval),
           method r = "POST" -> versionsMatch (path r) = Some chainId ->
           json_body r = Normal b ->
           issues_once (SelectMaxVersion chainId) (fetch env r inv)).
Proof.
  intros S D H env inv bound.
  repeat match goal with |- _ /\ _ => split end.
  - intros r Hm Hp. rewrite (route_list_chains env inv bound r Hm Hp).
    apply list_chains_recovers.
  - intros r b name description Hm Hp Hb Hn Hd.
    rewrite (route_create_chain env inv bound r Hm Hp).
    apply (create_chain_recovers inv r b); assumption.
  - intros r b id name imageUrl Hm Hp Hk Hb Hi Hn Hu.
    rewrite (route_upsert_artist env inv bound r Hm Hp Hk).
    apply (upsert_artist_recovers r b); assumption.
  - intros r b id title imageUrl prompt createdAt Hm Hp Hk Hb Hi Ht Hu Hpr Hc.
    rewrite (route_upsert_inspiration env inv bound r Hm Hp Hk).
    apply (upsert_inspiration_recovers r b); assumption.
  - intros r Hm Hp. rewrite (route_list_artists env inv bound r Hm Hp).
    apply list_artists_provisions.
  - intros r Hm Hp. rewrite (route_list_inspirations env inv bound r Hm Hp).
    apply list_inspirations_provisions.
  - intros r id Hm Hp Hk. rewrite (route_delete_artist env inv bound r id Hm Hp Hk).
    apply delete_artist_once.
  - intros r id Hm Hp Hk.
    rewrite (route_delete_inspiration env inv bound r id Hm Hp Hk).
    apply delete_inspiration_once.
  - intros r id Hm Hp Hk. rewrite (route_delete_chain env inv bound r id Hm Hp Hk).
    apply delete_chain_once.
  - intros r id b n d p Hm Hp Hk Hb Hn Hd Hpp Hne.
    rewrite (route_update_chain env inv bound r id Hm Hp Hk).
    apply (update_chain_once inv r b); assumption.
  - intros r chainId b Hm Hp Hb.
    rewrite (route_create_version env inv bound r chainId Hm Hp).
    apply (create_version_once inv r b). exact Hb.
Qed.

Lemma schema_recovery_by_route_witness :
  (exists answer : Response,
      fetch env (request "POST" "/api/chains" None
                   (VObj [("name", VStr "Foo"); ("description", VStr "bar")]))
            (invocation 1) fresh
      = (Normal answer,
         after fresh blank
           [InsertChain "1-0" (VStr "Foo") (VStr "bar") "[]" 1000 1000; ExecInit])
      /\ status answer = 500)
  /\ (exists answer : Response,
         fetch env (request "DELETE" "/api/chains/1-0" (Some "master") VNull)
               (invocation 2) fresh
         = (Normal answer, after fresh blank [DeleteChain "1-0"])
         /\ status answer = 500
         /\ body answer = JsonBody (VObj [("error", VStr (no_such_table "chains"))])).
Proof.
  pose proof (schema_recovery_by_route Db sqlite host env (invocation 1) eq_refl)
    as (_ & Hcreate & _).
  pose proof (schema_recovery_by_route Db sqlite host env (invocation 2) eq_refl)
    as (_ & _ & _ & _ & _ & _ & _ & _ & Hdelete & _).
  split.
  - destruct (Hcreate
                (request "POST" "/api/chains" None
                   (VObj [("name", VStr "Foo"); ("description", VStr "bar")]))
                (VObj [("name", VStr "Foo"); ("description", VStr "bar")])
                (VStr "Foo") (VStr "bar") eq_refl eq_refl eq_refl eq_refl eq_refl
                fresh (no_such_table "chains") blank eq_refl) as [_ Hrecover].
    destruct (Hrecover (or_introl eq_refl)) as [Hinit _].
    eexists. split; [exact (Hinit init_error blank eq_refl)|reflexivity].
  - eexists. split;
      [exact (Hdelete (request "DELETE" "/api/chains/1-0" (Some "master") VNull)
                "1-0" eq_refl eq_refl eq_refl fresh (no_such_table "chains") blank
                eq_refl)|].
    split; reflexivity.
Defined.

(** C2 as stated fails on a database without tables. Deleting an artist:
    the DELETE fails with a "no such table" message, which is in the class
    the claim speaks of, and the handler answers 500 with it: the schema
    statements were not run and the DELETE was not run again. *)
Lemma schema_recovery_counterexample :
  run (DeleteArtist "a1") blank = (Throw (no_such_table "artists"), blank)
  /\ includes (no_such_table "artists") "no such table" = true
  /\ exists r : Response,
       fetch env (request "DELETE" "/api/artists/a1" (Some "master") VNull)
             (invocation 1) fresh
       = (Normal r, {| store := blank; log := [Query (DeleteArtist "a1")] |})
       /\ status r = 500
       /\ body r = JsonBody (VObj [("error", VStr (no_such_table "artists"))]).
Proof.
  split; [reflexivity|]. split; [reflexivity|].
  eexists. split; [reflexivity|]. split; reflexivity.
Qed.

End RecoveryTheorems.

(* ================================================================== *)
(** * Properties of the worker: versions and chain metadata *)
(* ================================================================== *)

Section ListLemmas.
Import Sqlite Observe.


Lemma maximum_nil_iff (l : list Z) : maximum l = None <-> l = [].
Proof.
  destruct l as [|a l]; cbn [maximum]; [tauto|].
  destruct (maximum l); split; discriminate.
Qed.

Lemma maximum_spec (l : list Z) (M : Z) :
  maximum l = Some M -> In M l /\ forall x, In x l -> x <= M.
Proof.
  revert M. induction l as [|a l IH]; intros M HM; cbn [maximum] in HM;
    [discriminate|].
  destruct (maximum l) as [m|] eqn:E.
  - inversion HM; subst M. destruct (IH m eq_refl) as [Hin Hle]. split.
    + destruct (Z.max_spec a m) as [[_ ->]|[_ ->]];
        [right; exact Hin|left; reflexivity].
    + intros x [->|Hx]; [lia|]. specialize (Hle x Hx). lia.
  - inversion HM; subst M. apply maximum_nil_iff in E. subst l. split.
    + left; reflexivity.
    + intros x [->|[]]. lia.
Qed.



Lemma chain_versions_snoc (chain : string) (vs : list VersionRow) (row : VersionRow) :
  v_chain_id row = chain ->
  chain_versions chain (vs ++ [row]) = chain_versions chain vs ++ [v_version row].
Proof.
  intros Hc. unfold chain_versions. rewrite filter_app, map_app. cbn [filter].
  unfold of_chain at 2. rewrite Hc, String.eqb_refl. reflexivity.
Qed.

Lemma bind_scalar (v : jsval) :
  scalar v = true -> bind_value (or_else v (VStr "")) = Normal (bound_text v).
Proof.
  intros Hs. unfold bound_text, or_else.
  destruct v as [| |b|q|s|xs|fs]; try discriminate Hs; cbn [truthy].
  - reflexivity.
  - reflexivity.
  - destruct b; reflexivity.
  - destruct (negb (Qeq_bool q 0)); reflexivity.
  - destruct (negb (String.eqb s "")); reflexivity.
Qed.

Lemma member_scalar (fields : list (string * jsval)) (k : string) :
  (forall v, lookup k fields = Some v -> scalar v = true) ->
  scalar (member (VObj fields) k) = true.
Proof.
  intros Hs. unfold member. cbn [get]. destruct (lookup k fields) as [v|] eqn:E.
  - apply Hs. reflexivity.
  - reflexivity.
Qed.

Lemma max_v_or_0_next (chain : string) (vs : list VersionRow) :
  Worker.max_v_or_0 (Some (maximum (chain_versions chain vs))) + 1
  = next_version chain vs.
Proof.
  unfold Worker.max_v_or_0, next_version.
  destruct (maximum (chain_versions chain vs)) as [M|]; [|reflexivity].
  destruct (M =? 0) eqn:E; [|reflexivity].
  apply Z.eqb_eq in E. subst M. reflexivity.
Qed.

Lemma existsb_in_ids {A} (key : A -> string) (id : string) (l : list A) :
  existsb (fun a => String.eqb (key a) id) l = true <-> In id (map key l).
Proof.
  rewrite existsb_exists, in_map_iff. split.
  - intros (a & Ha & E). apply String.eqb_eq in E. eauto.
  - intros (a & E & Ha). exists a. split; [exact Ha|].
    apply String.eqb_eq. exact E.
Qed.

Lemma touch_ids (t : Z) (id : string) (rows : list ChainRow) :
  map c_id (map (touch t id) rows) = map c_id rows.
Proof.
  rewrite map_map. apply map_ext. intros r. unfold touch.
  destruct (String.eqb (c_id r) id); reflexivity.
Qed.


Lemma final_chains_ids (id : string) (calls : list (Worker.Request * Worker.Invocation))
      (rows : list ChainRow) :
  map c_id (final_chains id calls rows) = map c_id rows.
Proof.
  unfold final_chains. revert rows.
  induction calls as [|c calls IH]; intros rows; cbn [fold_left]; [reflexivity|].
  rewrite IH. apply touch_ids.
Qed.

End ListLemmas.

Section VersionLemmas.
Import Worker Sqlite Observe.
Context {H : Host}.
Variable env : Env.
Hypothesis bound : DB env = D1Binding.

Lemma create_version_step (r : Request) (inv : Invocation) (chainId : string)
      (w : World Db) (cs : list ChainRow) (vs : list VersionRow) :
  version_request chainId r ->
  chains (store w) = Some cs -> versions (store w) = Some vs ->
  In chainId (map c_id cs) ->
  ~ In (randomUUID inv 0) (map v_id vs) ->
  fetch env r inv w
  = ((json (VObj [("id", VStr (randomUUID inv 0));
                         ("version", VInt (next_version chainId vs))]) 200),
     after w
       (with_chains
          (with_versions (store w)
             (vs ++ [version_row chainId (next_version chainId vs) (body_of r) inv]))
          (map (touch (Date_now inv 1) chainId) cs))
       [SelectMaxVersion chainId;
        InsertVersion (randomUUID inv 0) chainId (next_version chainId vs)
          (or_else (member (body_of r) "basePrompt") (VStr ""))
          (or_else (member (body_of r) "negativePrompt") (VStr ""))
          (JSON_stringify (or_else (member (body_of r) "modules") (VArr [])))
          (JSON_stringify (or_else (member (body_of r) "params") (VObj [])))
          (Date_now inv 0);
        TouchChain (Date_now inv 1) chainId]).
Proof.
  intros (Hm & Hp & b & Hb & fields & -> & Hbase & Hneg) Hcs Hvs Hin Hfresh.
  rewrite (route_create_version env inv bound r chainId Hm Hp).
  unfold handled, create_version, body_of. rewrite Hb.
  unfold bind, try_catch, lift, ret, query. cbn [store log].
  cbn [run sqlite sqlite_run]. unfold select_max_version. rewrite Hvs.
  cbn [store log get]. rewrite max_v_or_0_next.
  unfold insert_version. cbn [store log].
  change (match lookup "basePrompt" fields with Some v => v | None => VUndefined end)
    with (member (VObj fields) "basePrompt").
  change (match lookup "negativePrompt" fields with Some v => v | None => VUndefined end)
    with (member (VObj fields) "negativePrompt").
  change (match lookup "modules" fields with Some v => v | None => VUndefined end)
    with (member (VObj fields) "modules").
  change (match lookup "params" fields with Some v => v | None => VUndefined end)
    with (member (VObj fields) "params").
  rewrite (bind_scalar _ (member_scalar fields "basePrompt" Hbase)).
  rewrite (bind_scalar _ (member_scalar fields "negativePrompt" Hneg)).
  rewrite Hvs.
  assert (Hid : existsb (fun v => String.eqb (v_id v) (randomUUID inv 0)) vs = false).
  { destruct (existsb _ vs) eqn:E; [|reflexivity].
    apply existsb_in_ids in E. contradiction. }
  rewrite Hid, Hcs.
  rewrite (proj2 (existsb_in_ids c_id chainId cs) Hin).
  cbn [store log]. unfold touch_chain. cbn [chains with_versions]. rewrite Hcs.
  unfold after, version_row. cbn [map]. rewrite <- !app_assoc. reflexivity.
Qed.



End VersionLemmas.

Section VersionTheorems.
Import Worker Sqlite Observe Fixture.





End VersionTheorems.

(* ================================================================== *)
(** * Further properties of the client *)
(* ================================================================== *)

Section ClientBehaviour.
Import NaiService Observe Behaviour Fixture.

Lemma sent_seed_reported (params : NAIParams) :
  sent_or_zero (sent_seed params) = reported_seed params.
Proof.
  unfold sent_seed, reported_seed.
  destruct (seed params) as [| |s]; try reflexivity.
  destruct (Qeq_bool s (-1)); reflexivity.
Qed.

(** X1. Negative preset: the flat [negative_prompt] and the base caption of
    [v4_negative_prompt] always carry the same text. With preset 4 it is
    the given negative prompt; with any other preset (0 when [ucPreset] is
    not set) it is the table's entry for that preset followed by the given
    negative prompt, and the given negative prompt alone when the table has
    no entry. *)
Theorem negative_preset_policy :
  forall (PU : PromptUtils) (prompt0 negative : string) (params : NAIParams),
    exists text : string,
      at_path ["parameters"; "negative_prompt"] (payload prompt0 negative params)
      = Some (VStr text)
      /\ at_path ["parameters"; "v4_negative_prompt"; "caption"; "base_caption"]
           (payload prompt0 negative params)
         = Some (VStr text)
      /\ ((presetId params == 4)%Q -> text = negative)
      /\ (~ (presetId params == 4)%Q ->
          (forall s : string,
              NAI_UC_PRESETS (presetId params) = Some s ->
              text = (s ++ negative)%string)
          /\ (NAI_UC_PRESETS (presetId params) = None -> text = negative))
      /\ (ucPreset params = absent \/ ucPreset params = null ->
          presetId params = 0%Q).
Proof.
  intros PU prompt0 negative params.
  exists (finalNegative negative params).
  split; [rewrite payload_nested by reflexivity; reflexivity|].
  split; [rewrite payload_nested by reflexivity; reflexivity|].
  split; [|split].
  - intros H4. apply Qeq_bool_iff in H4. unfold finalNegative. rewrite H4.
    reflexivity.
  - intros H4. assert (E : Qeq_bool (presetId params) 4 = false).
    { destruct (Qeq_bool (presetId params) 4) eqn:E; [|reflexivity].
      apply Qeq_bool_iff in E. contradiction. }
    unfold finalNegative. rewrite E. cbn [negb]. split.
    + intros s Hs. rewrite Hs. cbn [truthy].
      destruct (String.eqb s "") eqn:Es; [|reflexivity].
      apply String.eqb_eq in Es. subst s. reflexivity.
    + intros Hn. rewrite Hn. reflexivity.
  - unfold presetId. intros [H0|H0]; rewrite H0; reflexivity.
Qed.

Lemma negative_preset_policy_witness :
  exists text : string,
    at_path ["parameters"; "negative_prompt"]
      (payload "1girl" "blurry" (some_params absent absent absent))
    = Some (VStr text)
    /\ text = "lowres, artistic error, blurry".
Proof.
  destruct (negative_preset_policy prompt_utils "1girl" "blurry"
              (some_params absent absent absent))
    as (text & Hflat & _ & _ & Hother & _).
  exists text. split; [exact Hflat|].
  exact (proj1 (Hother ltac:(intro H; vm_compute in H; discriminate H))
               "lowres, artistic error, " eq_refl).
Defined.

(** X2. Coordinate flag: [use_coords] is [params.useCoords] when that is
    set; otherwise it is true for a non-empty [characters], false for an
    empty one, and [undefined] or [null] (not false) when [characters]
    itself is [undefined] or [null]. *)
Theorem use_coords_flag :
  forall (PU : PromptUtils) (prompt0 negative : string) (params : NAIParams),
    exists flag : jsval,
      at_path ["parameters"; "v4_prompt"; "use_coords"]
        (payload prompt0 negative params) = Some flag
      /\ (forall b : bool, useCoords params = present b -> flag = VBool b)
      /\ (useCoords params = absent \/ useCoords params = null ->
          (forall cs : list Character,
              characters params = present cs ->
              flag = VBool (negb (Nat.eqb (List.length cs) 0)))
          /\ (characters params = absent -> flag = VUndefined)
          /\ (characters params = null -> flag = VNull)).
Proof.
  intros PU prompt0 negative params. exists (useCoordsFlag params).
  split; [rewrite payload_nested by reflexivity; reflexivity|].
  unfold useCoordsFlag, hasCharacters. split.
  - intros b Hb. rewrite Hb. reflexivity.
  - intros Hu.
    assert (E : coalesce (maybe_js VBool (useCoords params))
                  match characters params with
                  | absent => VUndefined
                  | null => VNull
                  | present cs => VBool (0 <? Z.of_nat (List.length cs))
                  end
                = match characters params with
                  | absent => VUndefined
                  | null => VNull
                  | present cs => VBool (0 <? Z.of_nat (List.length cs))
                  end).
    { destruct Hu as [Hu|Hu]; rewrite Hu; reflexivity. }
    rewrite E. split; [|split].
    + intros cs Hc. rewrite Hc. destruct cs; reflexivity.
    + intros Hc. rewrite Hc. reflexivity.
    + intros Hc. rewrite Hc. reflexivity.
Qed.

(** X3. [generateImage] end to end: a failure of the proxy call or of the
    archive loader is thrown on unchanged, and an archive without entries
    is "No image found in response". With an archive that has a named first
    entry and no [.json] entry, the result is that entry as a PNG data URL
    and the seed that was sent: [params.seed] itself, zero included, and 0
    when [params.seed] was absent or -1. *)
Theorem generate_image_reports_seed :
  forall (PU : PromptUtils) (BR : Browser) (apiKey prompt0 negative : string)
         (params : NAIParams),
    (forall e : string,
        postBinary "/generate" (payload prompt0 negative params)
                   (authorization apiKey) = Throw e ->
        generateImage apiKey prompt0 negative params = Throw e)
    /\ (forall blob e : string,
           postBinary "/generate" (payload prompt0 negative params)
                      (authorization apiKey) = Normal blob ->
           loadAsync blob = Throw e ->
           generateImage apiKey prompt0 negative params = Throw e)
    /\ (forall blob : string,
           postBinary "/generate" (payload prompt0 negative params)
                      (authorization apiKey) = Normal blob ->
           loadAsync blob = Normal [] ->
           generateImage apiKey prompt0 negative params
           = Throw "No image found in response")
    /\ (forall (blob name content : string) (rest : ZipFiles),
           postBinary "/generate" (payload prompt0 negative params)
                      (authorization apiKey) = Normal blob ->
           loadAsync blob = Normal ((name, content) :: rest) ->
           name <> "" ->
           jsonFile ((name, content) :: rest) = None ->
           generateImage apiKey prompt0 negative params
           = Normal {| image := "data:image/png;base64," ++ base64 content;
                       resolved_seed := reported_seed params |}).
Proof.
  intros PU BR apiKey prompt0 negative params. unfold generateImage, authorization.
  split; [|split; [|split]].
  - intros e Hp. rewrite Hp. reflexivity.
  - intros blob e Hp Hl. rewrite Hp, Hl. reflexivity.
  - intros blob Hp Hl. rewrite Hp, Hl. reflexivity.
  - intros blob name content rest Hp Hl Hname Hj. rewrite Hp, Hl.
    rewrite (decode_first name content rest (sent_seed params) Hname).
    unfold seed_after. rewrite Hj, sent_seed_reported. reflexivity.
Qed.

Lemma generate_image_reports_seed_witness :
  @generateImage prompt_utils online "pst-key" "1girl" "lowres"
     (some_params (present 0%Q) absent absent)
  = Normal {| image := "data:image/png;base64,PNG"; resolved_seed := VNum 0 |}
  /\ @generateImage prompt_utils online "pst-key" "1girl" "lowres"
       (some_params (present (-1)%Q) absent absent)
     = Normal {| image := "data:image/png;base64,PNG"; resolved_seed := VInt 0 |}.
Proof.
  split.
  - exact (proj2 (proj2 (proj2
             (generate_image_reports_seed prompt_utils online "pst-key" "1girl"
                "lowres" (some_params (present 0%Q) absent absent))))
             "zip" "image_0.png" "PNG" [] eq_refl eq_refl
             ltac:(discriminate) eq_refl).
  - exact (proj2 (proj2 (proj2
             (generate_image_reports_seed prompt_utils online "pst-key" "1girl"
                "lowres" (some_params (present (-1)%Q) absent absent))))
             "zip" "image_0.png" "PNG" [] eq_refl eq_refl
             ltac:(discriminate) eq_refl).
Defined.

End ClientBehaviour.

(* ================================================================== *)
(** * Further properties of the worker: the gateway *)
(* ================================================================== *)

Section GatewayLemmas.
Import Worker Observe Behaviour.
Context {S : Type} {D : D1Database S} {H : Host}.

Lemma new_Response_cors (b : Body) (hs : list (string * string)) (st : Z)
      (r : Response) :
  (forall h, In h corsHeaders -> In h hs) ->
  new_Response b hs st = Normal r -> cors r.
Proof.
  intros Hhs. unfold new_Response.
  destruct ((st <? 200) || (599 <? st)); [discriminate|].
  destruct (has_body b && null_body_status st); [discriminate|].
  intros E. inversion E. exact Hhs.
Qed.

Lemma cors_json (data : jsval) (st : Z) (r : Response) :
  json data st = Normal r -> cors r.
Proof. apply new_Response_cors. intros h Hh. right. exact Hh. Qed.

Lemma cors_error (msg : string) (st : Z) (r : Response) :
  error msg st = Normal r -> cors r.
Proof. apply new_Response_cors. intros h Hh. right. exact Hh. Qed.

Lemma ac_lift (c : completion Response) :
  (forall r, c = Normal r -> cors r) -> answers_cors (S := S) (lift c).
Proof. intros Hc w r w' E. inversion E. subst. apply Hc. reflexivity. Qed.

Lemma ac_ret (r : Response) : cors r -> answers_cors (S := S) (ret r).
Proof. intros Hr w r' w' E. inversion E. subst. exact Hr. Qed.

Lemma ac_throw (e : string) : answers_cors (S := S) (throw e).
Proof. intros w r' w' E. discriminate E. Qed.

Lemma ac_bind {A : Type} (m : M S A) (k : A -> M S Response) :
  (forall a, answers_cors (k a)) -> answers_cors (bind m k).
Proof.
  intros Hk w r w' E. unfold bind in E.
  destruct (m w) as [[a|e] w1]; [|discriminate E].
  exact (Hk a w1 r w' E).
Qed.

Ltac ac :=
  repeat first
    [ apply ac_bind; intros
    | apply ac_lift; first [apply cors_json | apply cors_error]
    | apply ac_throw
    | match goal with
      | |- answers_cors (if ?b then _ else _) => destruct b
      | |- answers_cors (match ?x with _ => _ end) => destruct x
      end ].

Lemma store_routes_cors (env : Env) (r : Request) (inv : Invocation) :
  startsWith (path r) "/api/" = true -> answers_cors (store_routes env r inv).
Proof.
  intros Hapi. unfold store_routes. rewrite Hapi.
  unfold list_chains, create_chain, update_chain, delete_chain, create_version,
    list_artists, upsert_artist, delete_artist, list_inspirations,
    upsert_inspiration, delete_inspiration, success.
  ac.
Qed.

Lemma api_cors (env : Env) (r : Request) (inv : Invocation) :
  startsWith (path r) "/api/" = true -> answers_cors (api env r inv).
Proof.
  intros Hapi. unfold api.
  destruct (admin_only r && wrong_key env r); [ac|].
  destruct (String.eqb (path r) "/api/verify-key" && String.eqb (method r) "POST").
  { unfold verify_key, success. ac. }
  destruct (String.eqb (path r) "/api/generate" && String.eqb (method r) "POST").
  { unfold generate. ac. apply ac_lift. intros r0. apply new_Response_cors.
    intros h Hh. apply in_or_app. left. exact Hh. }
  destruct (DB env) as [|s|]; [ac| |apply store_routes_cors; exact Hapi].
  destruct (negb (truthy (VStr s))); ac.
Qed.

Lemma passes_check (env : Env) (r : Request) :
  passes_auth env r -> admin_only r && wrong_key env r = false.
Proof.
  intros Hp. destruct (admin_only r) eqn:E; [|reflexivity].
  apply admin_only_guarded in E. cbn [andb].
  unfold wrong_key. rewrite (Hp E), String.eqb_refl. reflexivity.
Qed.

Lemma route_excluded (r : Request) (p : string) :
  ~ needs_no_database r -> (p = "/api/verify-key" \/ p = "/api/generate") ->
  String.eqb (path r) p && String.eqb (method r) "POST" = false.
Proof.
  intros Hn Hp.
  destruct (String.eqb (path r) p) eqn:E1; [|reflexivity].
  destruct (String.eqb (method r) "POST") eqn:E2; [|reflexivity].
  apply String.eqb_eq in E1, E2. exfalso. apply Hn. split; [exact E2|].
  rewrite E1. exact Hp.
Qed.

End GatewayLemmas.

Section GatewayTheorems.
Import Worker Sqlite Observe Behaviour Fixture.

(** X4. The handler always answers: whatever a route throws is turned into
    a response, so [fetch] never throws; and every answer to a request
    under /api/ carries the three CORS headers, errors and preflights
    included. *)
Theorem fetch_always_answers :
  forall (S : Type) (D : D1Database S) (H : Host) (env : Env) (inv : Invocation)
         (request : Request) (w : World S),
    exists (r : Response) (w' : World S),
      fetch env request inv w = (Normal r, w')
      /\ (startsWith (path request) "/api/" = true -> cors r).
Proof.
  intros S D H env inv request w. unfold fetch.
  destruct (startsWith (path request) "/api/") eqn:Hapi; cbn [negb].
  - destruct (String.eqb (method request) "OPTIONS").
    + eexists. eexists. split; [reflexivity|]. intros _ h Hh. exact Hh.
    + unfold try_catch.
      destruct (api env request inv w) as [[r|e] w'] eqn:E.
      * exists r, w'. split; [reflexivity|]. intros _.
        exact (api_cors env request inv Hapi w r w' E).
      * eexists. exists w'. split; [reflexivity|]. intros _.
        apply (cors_error e 500). reflexivity.
  - eexists. eexists. split; [reflexivity|]. discriminate.
Qed.

(** X5. The database guard: a request under /api/ that is not a preflight,
    passes the auth check and is not one of the two routes served without a
    database is answered 503 "Database not configured" when [env.DB] is
    unbound or the empty string, and 500 "Configuration Error" when it is
    any other string; nothing is run in either case. *)
Theorem database_guard :
  forall (S : Type) (D : D1Database S) (H : Host) (env : Env) (inv : Invocation)
         (request : Request) (w : World S),
    startsWith (path request) "/api/" = true ->
    method request <> "OPTIONS" ->
    passes_auth env request ->
    ~ needs_no_database request ->
    (DB env = NoBinding \/ DB env = StringBinding "" ->
     fetch env request inv w = ((error not_configured 503), w))
    /\ (forall s : string,
           s <> "" -> DB env = StringBinding s ->
           fetch env request inv w = ((error configuration_error 500), w)).
Proof.
  intros S D H env inv request w Hapi Hopt Hauth Hroute.
  assert (Ho : String.eqb (method request) "OPTIONS" = false).
  { destruct (String.eqb (method request) "OPTIONS") eqn:E; [|reflexivity].
    apply String.eqb_eq in E. contradiction. }
  rewrite (fetch_api env inv request Hapi Ho). unfold try_catch, api.
  rewrite (passes_check env request Hauth).
  rewrite (route_excluded request "/api/verify-key" Hroute (or_introl eq_refl)).
  rewrite (route_excluded request "/api/generate" Hroute (or_intror eq_refl)).
  split.
  - intros [Hdb|Hdb]; rewrite Hdb; reflexivity.
  - intros s Hs Hdb. rewrite Hdb. cbn [truthy].
    destruct (String.eqb s "") eqn:E; [|reflexivity].
    apply String.eqb_eq in E. contradiction.
Qed.

Lemma database_guard_witness :
  fetch {| ASSETS := ASSETS env; DB := NoBinding; NAI_API_KEY := "pst-key";
           MASTER_KEY := "master" |}
        (request "GET" "/api/chains" None VNull) (invocation 1) fresh
  = ((error not_configured 503), fresh)
  /\ fetch {| ASSETS := ASSETS env; DB := StringBinding "my-database";
              NAI_API_KEY := "pst-key"; MASTER_KEY := "master" |}
           (request "DELETE" "/api/chains/1-0" (Some "master") VNull)
           (invocation 1) fresh
     = ((error configuration_error 500), fresh).
Proof.
  split.
  - apply (proj1 (database_guard Db sqlite host
                    {| ASSETS := ASSETS env; DB := NoBinding;
                       NAI_API_KEY := "pst-key"; MASTER_KEY := "master" |}
                    (invocation 1) (request "GET" "/api/chains" None VNull) fresh
                    eq_refl ltac:(discriminate)
                    ltac:(intros [Hg|[Hg|[Hg _]]]; discriminate Hg)
                    ltac:(intros [Hg _]; discriminate Hg))).
    left. reflexivity.
  - apply (proj2 (database_guard Db sqlite host
                    {| ASSETS := ASSETS env; DB := StringBinding "my-database";
                       NAI_API_KEY := "pst-key"; MASTER_KEY := "master" |}
                    (invocation 1)
                    (request "DELETE" "/api/chains/1-0" (Some "master") VNull) fresh
                    eq_refl ltac:(discriminate) ltac:(intros _; reflexivity)
                    ltac:(intros [Hg _]; discriminate Hg)) "my-database").
    + discriminate.
    + reflexivity.
Defined.



(** X7. A successful generation: when the provider answers POST
    /api/generate with a status in 200..299, the worker answers 200 with the
    provider's archive as it came, typed application/zip and with the CORS
    headers; the provider was called once, with the server's own key as
    bearer and the request body re-serialised, and the store was not
    touched (no database binding is needed). *)
Theorem provider_success_passthrough :
  forall (S : Type) (D : D1Database S) (H : Host) (env : Env) (inv : Invocation)
         (request : Request) (w : World S) (b : jsval) (answer : Upstream),
    path request = "/api/generate" -> method request = "POST" ->
    json_body request = Normal b ->
    global_fetch provider_url (provider_headers env) (JSON_stringify b) = Normal answer ->
    ok answer = true ->
    fetch env request inv w
    = (Normal {| status := 200;
                 headers := corsHeaders ++ [("Content-Type", "application/zip")];
                 body := BlobBody (up_blob answer) |},
       {| store := store w;
          log := log w ++ [Outgoing provider_url (provider_headers env)
                                    (JSON_stringify b)] |}).
Proof.
  intros S D H env inv request w b answer Hp Hm Hb Hf Hok.
  rewrite fetch_api by (rewrite ?Hp, ?Hm; reflexivity).
  unfold try_catch, api, admin_only. rewrite Hp, Hm.
  cbn [String.eqb Ascii.eqb Bool.eqb startsWith String.prefix andb orb].
  unfold generate, bind, lift, outgoing, ret. rewrite Hb.
  fold provider_url. fold (provider_headers env). rewrite Hf, Hok. reflexivity.
Qed.

Lemma provider_success_passthrough_witness :
  @fetch Db sqlite serving
     {| ASSETS := ASSETS env; DB := NoBinding; NAI_API_KEY := "pst-key";
        MASTER_KEY := "master" |}
     (request "POST" "/api/generate" None (VObj [])) (invocation 1) fresh
  = (Normal {| status := 200;
               headers := corsHeaders ++ [("Content-Type", "application/zip")];
               body := BlobBody "zip" |},
     {| store := blank;
        log := [Outgoing provider_url
                  [("Content-Type", "application/json");
                   ("Authorization", "Bearer pst-key")] "{}"] |}).
Proof.
  exact (provider_success_passthrough Db sqlite serving
           {| ASSETS := ASSETS env; DB := NoBinding; NAI_API_KEY := "pst-key";
              MASTER_KEY := "master" |}
           (invocation 1) (request "POST" "/api/generate" None (VObj [])) fresh
           (VObj []) {| up_status := 200; up_text := ""; up_blob := "zip" |}
           eq_refl eq_refl eq_refl eq_refl eq_refl).
Defined.

End GatewayTheorems.

(* ================================================================== *)
(** * Further properties of the worker: the store *)
(* ================================================================== *)

Section StoreBehaviourLemmas.
Import Worker Sqlite Observe Behaviour.

Lemma not_in_existsb {A} (key : A -> string) (id : string) (l : list A) :
  ~ In id (map key l) -> existsb (fun a => String.eqb (key a) id) l = false.
Proof.
  intros Hn. destruct (existsb _ l) eqn:E; [|reflexivity].
  apply existsb_in_ids in E. contradiction.
Qed.

Lemma keeps_rows_refl (d : Db) : keeps_rows d d.
Proof. repeat split; intros rows Hr; exact Hr. Qed.

Context {H : Host}.
Variable env : Env.
Hypothesis bound : DB env = D1Binding.

Lemma create_chain_rows (inv : Invocation) (r : Request)
      (name description : string) (w : World Db)
      (cs : list ChainRow) (vs : list VersionRow) :
  chain_request name description r ->
  chains (store w) = Some cs -> versions (store w) = Some vs ->
  ~ In (randomUUID inv 0) (map c_id cs) ->
  ~ In (randomUUID inv 1) (map v_id vs) ->
  exists w' : World Db,
    fetch env r inv w
    = (json (VObj [("id", VStr (randomUUID inv 0))]) 200, w')
    /\ chains (store w')
       = Some (cs ++ [new_chain inv (SqlText name) (SqlText description)])
    /\ versions (store w') = Some (vs ++ [seed_version inv])
    /\ artists (store w') = artists (store w)
    /\ inspirations (store w') = inspirations (store w).
Proof.
  intros (Hm & Hp & b & Hb & Hn & Hd) Hcs Hvs Hc Hv.
  rewrite (route_create_chain env inv bound r Hm Hp).
  unfold handled, create_chain, bind, try_catch, lift, ret, query.
  rewrite Hb, Hn, Hd. cbn [store log run sqlite sqlite_run].
  apply not_in_existsb in Hc. apply not_in_existsb in Hv.
  destruct w as [[cs0 vs0 ars ins] l]. cbn [store chains versions] in *. subst cs0 vs0.
  unfold insert_chain, insert_version. cbn [bind_value chains versions is_null].
  rewrite Hc. cbn [store log with_chains chains versions]. rewrite Hv.
  rewrite existsb_app. cbn [existsb c_id].
  rewrite String.eqb_refl, orb_true_r.
  eexists. split; [reflexivity|]. repeat split.
Qed.

(** Without the chains table the insert fails, the provisioning call throws,
    and the request is answered 500 with the store as it was. *)
Lemma create_chain_unprovisioned (inv : Invocation) (r : Request)
      (name description : string) (w : World Db) :
  chain_request name description r ->
  chains (store w) = None ->
  exists (answer : Response) (w' : World Db),
    fetch env r inv w = (Normal answer, w')
    /\ status answer = 500
    /\ body answer = JsonBody (VObj [("error", VStr init_error)])
    /\ store w' = store w.
Proof.
  intros (Hm & Hp & b & Hb & Hn & Hd) Hcs.
  rewrite (route_create_chain env inv bound r Hm Hp).
  unfold handled, create_chain, bind, try_catch, lift, ret, query.
  rewrite Hb, Hn, Hd. cbn [store log run sqlite sqlite_run].
  unfold insert_chain. cbn [bind_value is_null]. rewrite Hcs.
  change (missing_relation (no_such_table "chains")) with true.
  cbn [store log]. rewrite exec_init_throws.
  eexists. eexists. split; [reflexivity|]. repeat split.
Qed.

Lemma list_chains_keeps (w : World Db) :
  keeps_rows (store w) (store (snd (handled list_chains w))).
Proof.
  unfold handled, list_chains, bind, try_catch, lift, ret, throw, query.
  cbn [run sqlite sqlite_run store log]. unfold select_chains at 1.
  destruct (chains (store w)) as [cs|] eqn:Ec.
  - cbn [store log]. unfold select_latest_versions.
    destruct (versions (store w)) as [vs|]; cbn [store log].
    + destruct (build_version_map _ _) as [vm|e]; [|apply keeps_rows_refl].
      destruct (traverse _ _); apply keeps_rows_refl.
    + apply keeps_rows_refl.
  - change (missing_relation (no_such_table "chains")) with true.
    cbn [store log]. rewrite exec_init_throws. apply keeps_rows_refl.
Qed.

Lemma list_artists_keeps (w : World Db) :
  keeps_rows (store w) (store (snd (handled list_artists w))).
Proof.
  unfold handled, list_artists, bind, try_catch, lift, ret, throw, query.
  cbn [run sqlite sqlite_run store log]. unfold select_artists.
  destruct (artists (store w)) as [rows|] eqn:Ea.
  - apply keeps_rows_refl.
  - change (missing_table (no_such_table "artists")) with true.
    cbn [store log]. rewrite exec_init_throws. apply keeps_rows_refl.
Qed.

Lemma list_inspirations_keeps (w : World Db) :
  keeps_rows (store w) (store (snd (handled list_inspirations w))).
Proof.
  unfold handled, list_inspirations, bind, try_catch, lift, ret, throw, query.
  cbn [run sqlite sqlite_run store log]. unfold select_inspirations.
  destruct (inspirations (store w)) as [rows|] eqn:Ea.
  - apply keeps_rows_refl.
  - change (missing_table (no_such_table "inspirations")) with true.
    cbn [store log]. rewrite exec_init_throws. apply keeps_rows_refl.
Qed.

End StoreBehaviourLemmas.

Section StoreBehaviourTheorems.
Import Worker Sqlite Observe Behaviour Fixture.

(** X8. Creating a chain (POST /api/chains with a name and a description,
    fresh identifiers). On a store whose chains and versions tables exist
    the answer is the new id and exactly two rows are appended: the chain,
    with tags "[]", no preview image and both timestamps equal, and its first
    version, numbered 1, with the default prompts, modules and parameters;
    the other tables are untouched. On a store without the chains table the
    insert fails, the provisioning call throws, and the answer is 500 with
    nothing stored. *)
Theorem create_chain_seeds_version :
  forall (H : Host) (env : Env) (inv : Invocation) (r : Request)
         (name description : string) (w : World Db),
    DB env = D1Binding ->
    chain_request name description r ->
    (forall (cs : list ChainRow) (vs : list VersionRow),
        chains (store w) = Some cs -> versions (store w) = Some vs ->
        ~ In (randomUUID inv 0) (map c_id cs) ->
        ~ In (randomUUID inv 1) (map v_id vs) ->
        exists (answer : Response) (w' : World Db),
          fetch env r inv w = (Normal answer, w')
          /\ status answer = 200
          /\ body answer = JsonBody (VObj [("id", VStr (randomUUID inv 0))])
          /\ chains (store w')
             = Some (cs ++ [new_chain inv (SqlText name) (SqlText description)])
          /\ versions (store w') = Some (vs ++ [seed_version inv])
          /\ artists (store w') = artists (store w)
          /\ inspirations (store w') = inspirations (store w)
          /\ chain_versions (randomUUID inv 0) (vs ++ [seed_version inv])
             = chain_versions (randomUUID inv 0) vs ++ [1])
    /\ (chains (store w) = None ->
        exists (answer : Response) (w' : World Db),
          fetch env r inv w = (Normal answer, w')
          /\ status answer = 500
          /\ store w' = store w).
Proof.
  intros H env inv r name description w bound Hr. split.
  - intros cs vs Hcs Hvs Hc Hv.
    destruct (create_chain_rows env bound inv r name description w cs vs
                Hr Hcs Hvs Hc Hv)
      as (w' & Hf & Hcs' & Hvs' & Ha & Hi).
    eexists. exists w'. split; [exact Hf|].
    repeat match goal with |- _ /\ _ => split end;
      try reflexivity; try assumption.
    apply chain_versions_snoc. reflexivity.
  - intros Hnone.
    destruct (create_chain_unprovisioned env bound inv r name description w
                Hr Hnone)
      as (answer & w' & Hf & Hst & _ & Hw).
    exists answer, w'. split; [exact Hf|]. split; [exact Hst|exact Hw].
Qed.

Lemma create_chain_seeds_version_witness :
  (exists (answer : Response) (w' : World Db),
      fetch env (request "POST" "/api/chains" None
                   (VObj [("name", VStr "Foo"); ("description", VStr "bar")]))
            (invocation 2) one_chain
      = (Normal answer, w')
      /\ body answer = JsonBody (VObj [("id", VStr "2-0")])
      /\ option_map (map (fun v => (v_chain_id v, v_version v)))
           (versions (store w'))
         = Some [("1-0", 1); ("2-0", 1)])
  /\ (exists (answer : Response) (w' : World Db),
         fetch env (request "POST" "/api/chains" None
                      (VObj [("name", VStr "Foo"); ("description", VStr "bar")]))
               (invocation 1) fresh
         = (Normal answer, w')
         /\ status answer = 500
         /\ store w' = blank).
Proof.
  pose proof (create_chain_seeds_version host env (invocation 2)
                (request "POST" "/api/chains" None
                   (VObj [("name", VStr "Foo"); ("description", VStr "bar")]))
                "Foo" "bar" one_chain eq_refl
                (conj eq_refl (conj eq_refl
                   (ex_intro _ (VObj [("name", VStr "Foo"); ("description", VStr "bar")])
                      (conj eq_refl (conj eq_refl eq_refl)))))) as [Hboth _].
  pose proof (create_chain_seeds_version host env (invocation 1)
                (request "POST" "/api/chains" None
                   (VObj [("name", VStr "Foo"); ("description", VStr "bar")]))
                "Foo" "bar" fresh eq_refl
                (conj eq_refl (conj eq_refl
                   (ex_intro _ (VObj [("name", VStr "Foo"); ("description", VStr "bar")])
                      (conj eq_refl (conj eq_refl eq_refl)))))) as [_ Hnone].
  split.
  - destruct (Hboth [foo_chain] [foo_v1] eq_refl eq_refl)
      as (answer & w' & Hf & _ & Hb & _ & Hvs & _).
    + cbn. intuition discriminate.
    + cbn. intuition discriminate.
    + exists answer, w'. split; [exact Hf|]. split; [exact Hb|].
      rewrite Hvs. reflexivity.
  - destruct (Hnone eq_refl) as (answer & w' & Hf & Hst & Hw).
    exists answer, w'. split; [exact Hf|]. split; [exact Hst|exact Hw].
Defined.



(** X10. The three listings are read-only: GET /api/chains, /api/artists
    and /api/inspirations leave every existing table with the rows it had,
    whatever they answer. *)
Theorem listings_keep_rows :
  forall (H : Host) (env : Env) (inv : Invocation) (r : Request) (w : World Db),
    DB env = D1Binding ->
    method r = "GET" ->
    path r = "/api/chains" \/ path r = "/api/artists" \/ path r = "/api/inspirations" ->
    keeps_rows (store w) (store (snd (fetch env r inv w))).
Proof.
  intros H env inv r w bound Hm [Hp|[Hp|Hp]].
  - rewrite (route_list_chains env inv bound r Hm Hp). apply list_chains_keeps.
  - rewrite (route_list_artists env inv bound r Hm Hp). apply list_artists_keeps.
  - rewrite (route_list_inspirations env inv bound r Hm Hp).
    apply list_inspirations_keeps.
Qed.

Lemma listings_keep_rows_witness :
  keeps_rows (store one_chain)
    (store (snd (fetch env (request "GET" "/api/chains" None VNull)
                       (invocation 2) one_chain))).
Proof.
  exact (listings_keep_rows host env (invocation 2)
           (request "GET" "/api/chains" None VNull) one_chain
           eq_refl eq_refl (or_introl eq_refl)).
Defined.

End StoreBehaviourTheorems.

(* ================================================================== *)
(** * Further properties of the worker: rows that come and go *)
(* ================================================================== *)

Section RowLemmas.
Import Worker Sqlite Observe Behaviour.

Lemma filter_insert_out {A} (p : A -> bool) (le : A -> A -> bool) (a : A)
      (l : list A) :
  p a = false -> filter p (insert_by le a l) = filter p l.
Proof.
  intros Hp. induction l as [|b l IH]; cbn [insert_by filter].
  - rewrite Hp. reflexivity.
  - destruct (le a b); cbn [filter]; [rewrite Hp; reflexivity|].
    rewrite IH. reflexivity.
Qed.

Lemma filter_insert_only {A} (p : A -> bool) (le : A -> A -> bool) (a : A)
      (l : list A) :
  p a = true -> filter p l = [] -> filter p (insert_by le a l) = [a].
Proof.
  intros Hp. induction l as [|b l IH]; cbn [insert_by filter]; intros Hl.
  - rewrite Hp. reflexivity.
  - destruct (p b) eqn:Eb; [discriminate Hl|].
    destruct (le a b); cbn [filter]; rewrite ?Hp, ?Eb, ?Hl; [reflexivity|].
    apply IH. exact Hl.
Qed.

Lemma filter_sort_few {A} (p : A -> bool) (le : A -> A -> bool) (l : list A) :
  (List.length (filter p l) <= 1)%nat -> filter p (sort_by le l) = filter p l.
Proof.
  unfold sort_by. induction l as [|a l IH]; cbn [fold_right filter];
    [reflexivity|].
  destruct (p a) eqn:Ea; cbn [List.length]; intros Hlen.
  - assert (Hl : filter p l = [])
      by (destruct (filter p l); [reflexivity|cbn in Hlen; lia]).
    rewrite Hl. apply filter_insert_only; [exact Ea|].
    rewrite IH; [exact Hl|]. rewrite Hl. cbn. lia.
  - rewrite filter_insert_out by exact Ea. apply IH. exact Hlen.
Qed.

Lemma filter_filter_neg {A} (p : A -> bool) (l : list A) :
  filter p (filter (fun a => negb (p a)) l) = [].
Proof.
  induction l as [|a l IH]; cbn [filter]; [reflexivity|].
  destruct (p a) eqn:E; cbn [negb filter]; [exact IH|]. rewrite E. exact IH.
Qed.


Lemma in_insert_by {A} (le : A -> A -> bool) (a x : A) (l : list A) :
  In x (insert_by le a l) <-> x = a \/ In x l.
Proof.
  induction l as [|b l IH]; cbn [insert_by In].
  - intuition congruence.
  - destruct (le a b); cbn [In]; [intuition congruence|]. rewrite IH.
    intuition congruence.
Qed.

Lemma in_sort_by {A} (le : A -> A -> bool) (x : A) (l : list A) :
  In x (sort_by le l) <-> In x l.
Proof.
  unfold sort_by. induction l as [|a l IH]; cbn [fold_right In]; [tauto|].
  rewrite in_insert_by, IH. intuition congruence.
Qed.

Lemma has_id_artist (i : string) (r : ArtistRow) :
  has_id i (artist_js r) = sql_eqb (a_id r) (SqlText i).
Proof.
  unfold has_id, artist_js. cbn [get lookup String.eqb Ascii.eqb Bool.eqb].
  destruct (a_id r); reflexivity.
Qed.

Lemma filter_map_artists (i : string) (l : list ArtistRow) :
  filter (has_id i) (map artist_js l)
  = map artist_js (filter (fun r => sql_eqb (a_id r) (SqlText i)) l).
Proof.
  induction l as [|r l IH]; cbn [map filter]; [reflexivity|].
  rewrite has_id_artist.
  destruct (sql_eqb (a_id r) (SqlText i)); cbn [map]; rewrite IH; reflexivity.
Qed.





Context {H : Host}.
Variable env : Env.
Hypothesis bound : DB env = D1Binding.

Lemma artist_listed_once (inv1 inv2 : Invocation) (post listing : Request)
      (b : jsval) (i n u : string) (w : World Db) (rows : list ArtistRow) :
  method post = "POST" -> path post = "/api/artists" ->
  x_master_key post = Some (MASTER_KEY env) ->
  json_body post = Normal b ->
  get b "id" = Normal (VStr i) -> get b "name" = Normal (VStr n) ->
  get b "imageUrl" = Normal (VStr u) ->
  method listing = "GET" -> path listing = "/api/artists" ->
  artists (store w) = Some rows ->
  exists (items : list jsval) (w' : World Db),
    serve env [(post, inv1); (listing, inv2)] w
    = ([success; json (VArr items) 200], w')
    /\ filter (has_id i) items = [listed_artist i n u]
    /\ (forall r : ArtistRow,
           In r rows -> sql_eqb (a_id r) (SqlText i) = false ->
           In (artist_js r) items).
Proof.
  intros Hm Hp Hk Hb Hi Hn Hu Hm2 Hp2 Hrows. cbn [serve].
  rewrite (route_upsert_artist env inv1 bound post Hm Hp Hk).
  rewrite (route_list_artists env inv2 bound listing Hm2 Hp2).
  unfold handled, upsert_artist, upsert_artist_stmt, list_artists, bind,
    try_catch, lift, ret, throw, query.
  rewrite Hb, Hi, Hn, Hu. cbn [store log run sqlite sqlite_run].
  unfold replace_artist. cbn [bind_value is_null]. rewrite Hrows.
  cbn [store log with_artists artists]. unfold select_artists.
  cbn [artists with_artists].
  eexists. eexists. split; [reflexivity|]. split.
  - rewrite filter_map_artists.
    assert (Hf : filter (fun r => sql_eqb (a_id r) (SqlText i))
                   (filter (fun r => negb (sql_eqb (a_id r) (SqlText i))) rows
                    ++ [{| a_id := SqlText i; a_name := SqlText n;
                           a_image_url := SqlText u |}])
                 = [{| a_id := SqlText i; a_name := SqlText n;
                       a_image_url := SqlText u |}]).
    { rewrite filter_app,
        (filter_filter_neg (fun r => sql_eqb (a_id r) (SqlText i))).
      cbn [filter a_id sql_eqb app]. rewrite String.eqb_refl. reflexivity. }
    rewrite filter_sort_few; rewrite Hf; [reflexivity|cbn; lia].
  - intros r Hin Hne. apply in_map. apply in_sort_by. apply in_or_app. left.
    apply filter_In. split; [exact Hin|]. rewrite Hne. reflexivity.
Qed.



Lemma chain_without_version (inv : Invocation) (r : Request)
      (name description : string) (w : World Db) (cs : list ChainRow) :
  chain_request name description r ->
  chains (store w) = Some cs -> versions (store w) = None ->
  ~ In (randomUUID inv 0) (map c_id cs) ->
  exists w' : World Db,
    fetch env r inv w = ((error (no_such_table "versions") 500), w')
    /\ chains (store w')
       = Some (cs ++ [new_chain inv (SqlText name) (SqlText description)])
    /\ versions (store w') = None.
Proof.
  intros (Hm & Hp & b & Hb & Hn & Hd) Hcs Hvs Hc.
  rewrite (route_create_chain env inv bound r Hm Hp).
  unfold handled, create_chain, bind, try_catch, lift, ret, query.
  rewrite Hb, Hn, Hd. cbn [store log run sqlite sqlite_run].
  unfold insert_chain, insert_version. cbn [bind_value is_null].
  rewrite Hcs, (not_in_existsb c_id _ cs Hc).
  cbn [store log with_chains versions chains]. rewrite Hvs.
  eexists. split; [reflexivity|]. split; [reflexivity|].
  cbn [store versions with_chains]. exact Hvs.
Qed.

End RowLemmas.

Section RowTheorems.
Import Worker Sqlite Observe Behaviour Fixture.

(** X11. An artist upserted is listed once, under other key names: on a
    store that has the artists table, after an authorised POST /api/artists
    with [{id, name, imageUrl}] (strings), GET /api/artists answers an array
    with exactly one object of that id, and it is [{id, name, image_url}]:
    the image comes back as [image_url], and an artist stored before under
    the same id is replaced. The artists of every other id are still
    listed. *)
Theorem artist_upsert_then_list :
  forall (H : Host) (env : Env) (inv1 inv2 : Invocation) (post listing : Request)
         (b : jsval) (i n u : string) (w : World Db) (rows : list ArtistRow),
    DB env = D1Binding ->
    method post = "POST" -> path post = "/api/artists" ->
    x_master_key post = Some (MASTER_KEY env) ->
    json_body post = Normal b ->
    get b "id" = Normal (VStr i) -> get b "name" = Normal (VStr n) ->
    get b "imageUrl" = Normal (VStr u) ->
    method listing = "GET" -> path listing = "/api/artists" ->
    artists (store w) = Some rows ->
    exists (first second : Response) (items : list jsval) (w' : World Db),
      serve env [(post, inv1); (listing, inv2)] w
      = ([Normal first; Normal second], w')
      /\ status first = 200
      /\ body first = JsonBody (VObj [("success", VBool true)])
      /\ status second = 200
      /\ body second = JsonBody (VArr items)
      /\ filter (has_id i) items = [listed_artist i n u]
      /\ (forall r : ArtistRow,
             In r rows -> sql_eqb (a_id r) (SqlText i) = false ->
             In (artist_js r) items).
Proof.
  intros H env inv1 inv2 post listing b i n u w rows bound
         Hm Hp Hk Hb Hi Hn Hu Hm2 Hp2 Hrows.
  destruct (artist_listed_once env bound inv1 inv2 post listing b i n u w rows
              Hm Hp Hk Hb Hi Hn Hu Hm2 Hp2 Hrows)
    as (items & w' & Hs & Hone & Hrest).
  eexists. eexists. exists items, w'. split; [exact Hs|].
  repeat match goal with |- _ /\ _ => split end;
    try reflexivity; assumption.
Qed.

Lemma artist_upsert_then_list_witness :
  exists (first second : Response) (items : list jsval) (w' : World Db),
    serve env
      [(request "POST" "/api/artists" (Some "master")
          (VObj [("id", VStr "a1"); ("name", VStr "WLOP");
                 ("imageUrl", VStr "https://img/3.png")]), invocation 1);
       (request "GET" "/api/artists" None VNull, invocation 2)]
      gallery
    = ([Normal first; Normal second], w')
    /\ body second = JsonBody (VArr items)
    /\ filter (has_id "a1") items
       = [listed_artist "a1" "WLOP" "https://img/3.png"].
Proof.
  destruct (artist_upsert_then_list host env (invocation 1) (invocation 2)
              (request "POST" "/api/artists" (Some "master")
                 (VObj [("id", VStr "a1"); ("name", VStr "WLOP");
                        ("imageUrl", VStr "https://img/3.png")]))
              (request "GET" "/api/artists" None VNull)
              (VObj [("id", VStr "a1"); ("name", VStr "WLOP");
                     ("imageUrl", VStr "https://img/3.png")])
              "a1" "WLOP" "https://img/3.png" gallery
              [{| a_id := SqlText "a1"; a_name := SqlText "wlop";
                  a_image_url := SqlText "https://img/1.png" |}]
              eq_refl eq_refl eq_refl eq_refl eq_refl eq_refl eq_refl eq_refl
              eq_refl eq_refl eq_refl)
    as (first & second & items & w' & Hs & _ & _ & _ & Hb & Hone & _).
  exists first, second, items, w'. split; [exact Hs|]. split; [exact Hb|exact Hone].
Defined.





(** X14. Creating a chain is two inserts without a transaction, and only
    the first one is inside the [try] that looks for a missing table: on a
    store that has the chains table and no versions table, the chain row is
    inserted, the insert of its first version fails with "no such table",
    the answer is 500, and the chain stays in the store without any
    version. *)
Theorem create_chain_is_not_atomic :
  forall (H : Host) (env : Env) (inv : Invocation) (r : Request)
         (name description : string) (w : World Db) (cs : list ChainRow),
    DB env = D1Binding ->
    chain_request name description r ->
    chains (store w) = Some cs -> versions (store w) = None ->
    ~ In (randomUUID inv 0) (map c_id cs) ->
    exists w' : World Db,
      fetch env r inv w = ((error (no_such_table "versions") 500), w')
      /\ chains (store w')
         = Some (cs ++ [new_chain inv (SqlText name) (SqlText description)])
      /\ versions (store w') = None.
Proof.
  intros H env inv r name description w cs bound.
  apply (chain_without_version env bound).
Qed.

Lemma create_chain_is_not_atomic_witness :
  exists w' : World Db,
    fetch env (request "POST" "/api/chains" None
                 (VObj [("name", VStr "Foo"); ("description", VStr "bar")]))
          (invocation 1)
          {| store := {| chains := Some []; versions := None;
                         artists := None; inspirations := None |};
             log := [] |}
    = ((error (no_such_table "versions") 500), w')
    /\ option_map (map c_id) (chains (store w')) = Some ["1-0"]
    /\ versions (store w') = None.
Proof.
  destruct (create_chain_is_not_atomic host env (invocation 1)
              (request "POST" "/api/chains" None
                 (VObj [("name", VStr "Foo"); ("description", VStr "bar")]))
              "Foo" "bar"
              {| store := {| chains := Some []; versions := None;
                             artists := None; inspirations := None |};
                 log := [] |}
              [] eq_refl
              (conj eq_refl (conj eq_refl
                 (ex_intro _ (VObj [("name", VStr "Foo"); ("description", VStr "bar")])
                    (conj eq_refl (conj eq_refl eq_refl)))))
              eq_refl eq_refl (fun x => x))
    as (w' & Hf & Hcs & Hvs).
  exists w'. split; [exact Hf|]. rewrite Hcs. split; [reflexivity|exact Hvs].
Defined.

End RowTheorems.

(* ================================================================== *)
(** * Further properties of the worker: the chain listing *)
(* ================================================================== *)

Section ListingLemmas.
Import Worker Sqlite Observe Behaviour.

Lemma traverse_map {A B C} (f : B -> completion C) (g : A -> B) (h : A -> C)
      (l : list A) :
  (forall a, In a l -> f (g a) = Normal (h a)) ->
  traverse f (map g l) = Normal (map h l).
Proof.
  induction l as [|a l IH]; intros Hf; cbn [traverse map]; [reflexivity|].
  rewrite (Hf a (or_introl eq_refl)), IH; [reflexivity|].
  intros x Hx. apply Hf. right. exact Hx.
Qed.

Context {H : Host}.
Variable env : Env.
Hypothesis bound : DB env = D1Binding.

Lemma parse_parsed (v : jsval) :
  (exists j : jsval, JSON_parse v = Normal j) -> JSON_parse v = Normal (parsed v).
Proof. intros [j Hj]. unfold parsed. rewrite Hj. reflexivity. Qed.

Lemma hydrate_row (r : VersionRow) :
  readable_version r ->
  hydrate (version_js r) = Normal (VStr (v_chain_id r), hydrated r).
Proof.
  intros [Hmod Hpar]. unfold hydrate, hydrated, version_js, and_then.
  cbn [get lookup String.eqb Ascii.eqb Bool.eqb].
  rewrite (parse_parsed _ Hmod). cbn [set_prop get].
  rewrite lookup_assign_other by reflexivity.
  cbn [lookup String.eqb Ascii.eqb Bool.eqb].
  rewrite (parse_parsed _ Hpar). cbn [set_prop get].
  rewrite !lookup_assign_other by reflexivity.
  cbn [lookup String.eqb Ascii.eqb Bool.eqb spread]. reflexivity.
Qed.

Lemma map_get_set (k k' : string) (v : jsval) (m : list (jsval * jsval)) :
  Forall (fun kv => exists s, fst kv = VStr s) m ->
  map_get (VStr k) (map_set (VStr k') v m)
  = if String.eqb k k' then v else map_get (VStr k) m.
Proof.
  induction 1 as [|[k0 v0] m [s Hs] Hm IH]; cbn [map_set map_get same_value].
  - destruct (String.eqb k k'); reflexivity.
  - cbn [fst] in Hs. subst k0. cbn [same_value].
    destruct (String.eqb k' s) eqn:E; cbn [map_get same_value].
    + apply String.eqb_eq in E. subst s.
      destruct (String.eqb k k'); reflexivity.
    + destruct (String.eqb k s) eqn:E2.
      * apply String.eqb_eq in E2. subst s.
        rewrite String.eqb_sym in E. rewrite E. reflexivity.
      * exact IH.
Qed.

Lemma map_set_keys (k : string) (v : jsval) (m : list (jsval * jsval)) :
  Forall (fun kv => exists s, fst kv = VStr s) m ->
  Forall (fun kv => exists s, fst kv = VStr s) (map_set (VStr k) v m).
Proof.
  induction 1 as [|[k0 v0] m Hk Hm IH]; cbn [map_set].
  - constructor; [exists k; reflexivity|constructor].
  - destruct (same_value (VStr k) k0); constructor; assumption.
Qed.

Lemma version_map (rows : list VersionRow) (m : list (jsval * jsval)) :
  Forall readable_version rows ->
  Forall (fun kv => exists s, fst kv = VStr s) m ->
  exists m',
    build_version_map (map version_js rows) m = Normal m'
    /\ forall id, map_get (VStr id) m'
                  = match last_of id rows with
                    | Some r => hydrated r
                    | None => map_get (VStr id) m
                    end.
Proof.
  intros Hrows. revert m. induction Hrows as [|r rows Hr Hrows IH]; intros m Hm;
    cbn [map build_version_map last_of].
  - exists m. split; reflexivity.
  - rewrite (hydrate_row r Hr). cbn [and_then fst snd].
    destruct (IH _ (map_set_keys (v_chain_id r) (hydrated r) m Hm))
      as (m' & Hb & Hg).
    exists m'. split; [exact Hb|]. intros id. rewrite Hg.
    destruct (last_of id rows); [reflexivity|].
    rewrite map_get_set by exact Hm. unfold of_chain.
    rewrite (String.eqb_sym (v_chain_id r) id).
    destruct (String.eqb id (v_chain_id r)); reflexivity.
Qed.

Lemma chain_view_row (m : list (jsval * jsval)) (rows : list VersionRow)
      (c : ChainRow) :
  readable_chain c ->
  (forall id, map_get (VStr id) m
              = match last_of id rows with
                | Some r => hydrated r
                | None => VUndefined
                end) ->
  chain_view m (chain_js c) = Normal (listed_chain rows c).
Proof.
  intros Hc Hm. unfold chain_view, listed_chain, chain_js, and_then.
  cbn [get lookup String.eqb Ascii.eqb Bool.eqb].
  rewrite (parse_parsed _ Hc). rewrite Hm.
  destruct (last_of (c_id c) rows); reflexivity.
Qed.

Lemma last_of_in (id : string) (rows : list VersionRow) (r : VersionRow) :
  last_of id rows = Some r -> In r rows /\ v_chain_id r = id.
Proof.
  induction rows as [|x rows IH]; cbn [last_of]; [discriminate|].
  destruct (last_of id rows) as [y|].
  - intros E. inversion E; subst y. destruct (IH eq_refl). split; [right|]; assumption.
  - unfold of_chain. destruct (String.eqb (v_chain_id x) id) eqn:E; [|discriminate].
    intros E2. inversion E2; subst x. apply String.eqb_eq in E.
    split; [left; reflexivity|exact E].
Qed.

Lemma last_of_none (id : string) (rows : list VersionRow) (r : VersionRow) :
  last_of id rows = None -> In r rows -> v_chain_id r <> id.
Proof.
  induction rows as [|x rows IH]; cbn [last_of In]; [tauto|].
  destruct (last_of id rows) as [y|]; [discriminate|].
  unfold of_chain. destruct (String.eqb (v_chain_id x) id) eqn:E; [discriminate|].
  intros _ [->|Hin]; [apply String.eqb_neq; exact E|apply IH; [reflexivity|exact Hin]].
Qed.

Lemma latest_row (id : string) (vs : list VersionRow) :
  match last_of id (filter (is_latest vs) vs) with
  | Some r => v_chain_id r = id /\ maximum (chain_versions id vs) = Some (v_version r)
  | None => chain_versions id vs = []
  end.
Proof.
  destruct (last_of id (filter (is_latest vs) vs)) as [r|] eqn:E.
  - apply last_of_in in E. destruct E as [Hin Hid]. split; [exact Hid|].
    apply filter_In in Hin. destruct Hin as [_ Hl]. unfold is_latest in Hl.
    rewrite Hid in Hl. destruct (maximum (chain_versions id vs)) as [m|];
      [|discriminate]. apply Z.eqb_eq in Hl. rewrite Hl. reflexivity.
  - destruct (maximum (chain_versions id vs)) as [m|] eqn:Em;
      [|apply maximum_nil_iff; exact Em].
    exfalso. destruct (maximum_spec _ _ Em) as [Hin _].
    unfold chain_versions in Hin. apply in_map_iff in Hin.
    destruct Hin as (r & Hv & Hin). apply filter_In in Hin.
    destruct Hin as [Hin Hc]. unfold of_chain in Hc. apply String.eqb_eq in Hc.
    apply (last_of_none id _ r E); [|exact Hc].
    apply filter_In. split; [exact Hin|]. unfold is_latest.
    rewrite Hc, Em. apply Z.eqb_eq. exact Hv.
Qed.



Lemma list_chains_answer (inv : Invocation) (r : Request) (w : World Db)
      (cs : list ChainRow) (vs : list VersionRow) :
  method r = "GET" -> path r = "/api/chains" ->
  chains (store w) = Some cs -> versions (store w) = Some vs ->
  (forall c, In c cs -> readable_chain c) ->
  (forall v, In v vs -> is_latest vs v = true -> readable_version v) ->
  exists w' : World Db,
    fetch env r inv w
    = (json (VArr (map (listed_chain (filter (is_latest vs) vs))
                       (newest_first cs))) 200, w')
    /\ store w' = store w.
Proof.
  intros Hm Hp Hcs Hvs Hrc Hrv. rewrite (route_list_chains env inv bound r Hm Hp).
  unfold handled, list_chains, bind, try_catch, lift, ret, query.
  cbn [store log run sqlite sqlite_run].
  unfold select_chains, select_latest_versions, newest_first. rewrite Hcs. cbn [store log].
  rewrite Hvs. cbn [store log].
  assert (Hall : Forall readable_version (filter (is_latest vs) vs)).
  { apply Forall_forall. intros v Hv. apply filter_In in Hv.
    destruct Hv as [Hin Hl]. exact (Hrv v Hin Hl). }
  destruct (version_map (filter (is_latest vs) vs) [] Hall (Forall_nil _))
    as (m & Hb & Hg).
  rewrite Hb.
  rewrite (traverse_map _ chain_js (listed_chain (filter (is_latest vs) vs))).
  - eexists. split; reflexivity.
  - intros c Hc. apply chain_view_row.
    + apply Hrc. apply in_sort_by in Hc. exact Hc.
    + intros id. rewrite Hg. reflexivity.
Qed.

Lemma listed_chain_id (rows : list VersionRow) (c : ChainRow) :
  get (listed_chain rows c) "id" = Normal (VStr (c_id c)).
Proof.
  unfold listed_chain. cbn [get]. rewrite !lookup_assign_other by reflexivity.
  reflexivity.
Qed.

Lemma listed_chain_latest (rows : list VersionRow) (c : ChainRow) :
  get (listed_chain rows c) "latestVersion"
  = Normal (match last_of (c_id c) rows with
            | Some r => hydrated r
            | None => VNull
            end).
Proof. unfold listed_chain. cbn [get]. rewrite lookup_assign_same. reflexivity. Qed.

Lemma hydrated_columns (r : VersionRow) :
  get (hydrated r) "chain_id" = Normal (VStr (v_chain_id r))
  /\ get (hydrated r) "version" = Normal (VInt (v_version r)).
Proof.
  unfold hydrated. cbn [get]. rewrite !lookup_assign_other by reflexivity.
  split; reflexivity.
Qed.

End ListingLemmas.

Section ListingTheorems.
Import Worker Sqlite Observe Behaviour Fixture.

(** X15. GET /api/chains joins every chain with its latest version in two
    queries: on a store with both tables, when [JSON.parse] accepts the
    [tags] of the chains and the [modules] and [params] of the latest
    versions, the answer is 200 with one object per chain, newest update
    first, nothing is written, and the [latestVersion] of a chain is [null]
    when the chain has no version and otherwise a version of that chain
    whose number is the highest one the chain has. *)
Theorem chains_listed_with_latest :
  forall (H : Host) (env : Env) (inv : Invocation) (r : Request) (w : World Db)
         (cs : list ChainRow) (vs : list VersionRow),
    DB env = D1Binding ->
    method r = "GET" -> path r = "/api/chains" ->
    chains (store w) = Some cs -> versions (store w) = Some vs ->
    (forall c : ChainRow, In c cs -> readable_chain c) ->
    (forall v : VersionRow, In v vs -> is_latest vs v = true -> readable_version v) ->
    exists (answer : Response) (data : list jsval) (w' : World Db),
      fetch env r inv w = (Normal answer, w')
      /\ status answer = 200
      /\ body answer = JsonBody (VArr data)
      /\ store w' = store w
      /\ map (fun o => get o "id") data
         = map (fun c => Normal (VStr (c_id c))) (newest_first cs)
      /\ forall (o : jsval) (id : string),
           In o data -> get o "id" = Normal (VStr id) ->
           exists latest : jsval,
             get o "latestVersion" = Normal latest
             /\ (chain_versions id vs = [] -> latest = VNull)
             /\ (forall m : Z,
                    maximum (chain_versions id vs) = Some m ->
                    get latest "chain_id" = Normal (VStr id)
                    /\ get latest "version" = Normal (VInt m)).
Proof.
  intros H env inv r w cs vs bound Hm Hp Hcs Hvs Hrc Hrv.
  destruct (list_chains_answer env bound inv r w cs vs Hm Hp Hcs Hvs Hrc Hrv)
    as (w' & Hf & Hst).
  eexists. eexists. exists w'. split; [exact Hf|].
  split; [reflexivity|]. split; [reflexivity|]. split; [exact Hst|]. split.
  - rewrite map_map. apply map_ext. intros c. apply listed_chain_id.
  - intros o id Hin Hid. apply in_map_iff in Hin. destruct Hin as (c & <- & _).
    rewrite listed_chain_id in Hid. inversion Hid; subst id.
    eexists. split; [apply listed_chain_latest|].
    pose proof (latest_row (c_id c) vs) as Hl.
    destruct (last_of (c_id c) (filter (is_latest vs) vs)) as [x|].
    + destruct Hl as [Hx Hmax]. split.
      * intros Hnil. rewrite Hnil in Hmax. discriminate Hmax.
      * intros m Em. rewrite Em in Hmax. inversion Hmax; subst m.
        destruct (hydrated_columns x) as [Hc Hv]. rewrite Hc, Hv, Hx.
        split; reflexivity.
    + split; [reflexivity|]. intros m Em. rewrite Hl in Em. discriminate Em.
Qed.

Lemma chains_listed_with_latest_witness :
  exists (answer : Response) (data : list jsval) (w' : World Db),
    fetch env (request "GET" "/api/chains" None VNull) (invocation 3) two_versions
    = (Normal answer, w')
    /\ status answer = 200
    /\ body answer = JsonBody (VArr data)
    /\ map (fun o => get o "id") data = [Normal (VStr "1-0")].
Proof.
  destruct (chains_listed_with_latest host env (invocation 3)
              (request "GET" "/api/chains" None VNull) two_versions
              [foo_chain] [foo_v1; foo_v2]
              eq_refl eq_refl eq_refl eq_refl eq_refl)
    as (answer & data & w' & Hf & Hst & Hb & _ & Hids & _).
  - intros c [<-|[]]. eexists. reflexivity.
  - intros v [<-|[<-|[]]] Hl; [discriminate Hl|].
    split; eexists; reflexivity.
  - exists answer, data, w'. split; [exact Hf|]. split; [exact Hst|].
    split; [exact Hb|exact Hids].
Defined.

End ListingTheorems.

(* ================================================================== *)
(** * Further properties of the worker: paths and the routes left over *)
(* ================================================================== *)

Section CaptureLemmas.
Import Worker Observe Behaviour.

Lemma includes_slash (c : ascii) (s : string) :
  includes (String c s) "/" = Ascii.eqb c "/"%char || includes s "/".
Proof.
  cbn [includes String.prefix]. f_equal.
  destruct (ascii_dec "/"%char c) as [<-|Hne].
  - destruct s; reflexivity.
  - symmetry. apply Ascii.eqb_neq. intro E. apply Hne. symmetry. exact E.
Qed.

Lemma strip_app (pre rest : string) : strip pre (pre ++ rest) = Some rest.
Proof.
  induction pre as [|a pre IH]; cbn [strip String.append]; [reflexivity|].
  rewrite Ascii.eqb_refl. exact IH.
Qed.

Lemma split_slash_spec (s seg tail : string) :
  split_slash s = (seg, tail) ->
  s = (seg ++ tail)%string /\ includes seg "/" = false /\ slash_or_end tail.
Proof.
  revert seg tail. induction s as [|c s IH]; intros seg tail; cbn [split_slash].
  - intros E. inversion E. split; [reflexivity|]. split; [reflexivity|left; reflexivity].
  - destruct (Ascii.eqb c "/"%char) eqn:Ec.
    + intros E. inversion E. apply Ascii.eqb_eq in Ec. subst c.
      split; [reflexivity|]. split; [reflexivity|right; eexists; reflexivity].
    + destruct (split_slash s) as [sg tl]. intros E. inversion E; subst seg tail.
      destruct (IH sg tl eq_refl) as (Hs & Hi & Ht). split; [|split].
      * cbn [String.append]. rewrite <- Hs. reflexivity.
      * rewrite includes_slash, Ec, Hi. reflexivity.
      * exact Ht.
Qed.

Lemma split_slash_app (seg tail : string) :
  includes seg "/" = false -> slash_or_end tail ->
  split_slash (seg ++ tail)%string = (seg, tail).
Proof.
  intros Hi Ht. induction seg as [|c seg IH]; cbn [String.append].
  - destruct Ht as [->|[t ->]]; reflexivity.
  - rewrite includes_slash in Hi. apply orb_false_iff in Hi. destruct Hi as [Hc Hi].
    cbn [split_slash]. rewrite Hc, (IH Hi). reflexivity.
Qed.

Lemma match_segment_iff (pre suf p id : string) :
  slash_or_end suf ->
  match_segment pre suf p = Some id
  <-> p = (pre ++ id ++ suf)%string /\ segment id.
Proof.
  intros Hsuf. unfold match_segment, segment. split.
  - intros Hm. destruct (strip pre p) as [rest|] eqn:Hs; [|discriminate].
    apply strip_spec in Hs. destruct (split_slash rest) as [sg tl] eqn:Hsp.
    apply split_slash_spec in Hsp. destruct Hsp as (Hr & Hi & _).
    destruct (String.eqb sg "") eqn:E; cbn [negb andb] in Hm; [discriminate|].
    destruct (String.eqb tl suf) eqn:E2; [|discriminate].
    inversion Hm; subst sg. apply String.eqb_eq in E2. subst tl.
    apply String.eqb_neq in E. subst rest. repeat split; assumption.
  - intros (-> & Hne & Hi). rewrite strip_app, (split_slash_app id suf Hi Hsuf).
    apply String.eqb_neq in Hne. rewrite Hne, String.eqb_refl. reflexivity.
Qed.

End CaptureLemmas.

Section FallbackLemmas.
Import Worker Observe Behaviour.
Context {S : Type} {D : D1Database S} {H : Host}.
Variable env : Env.
Variable inv : Invocation.
Hypothesis bound : DB env = D1Binding.

Lemma other_method_not_found (r : Request) (w : World S) :
  startsWith (path r) "/api/" = true ->
  method r <> "GET" -> method r <> "POST" -> method r <> "PUT" ->
  method r <> "DELETE" -> method r <> "OPTIONS" ->
  fetch env r inv w = ((error "Not Found" 404), w).
Proof.
  intros Hapi Hg Hpo Hpu Hd Ho.
  apply String.eqb_neq in Hg, Hpo, Hpu, Hd, Ho.
  rewrite fetch_api by assumption.
  unfold api, admin_only, store_routes. rewrite Hpo, Hpu, Hd, Hg, bound, Hapi.
  rewrite !andb_false_r. cbn [orb andb].
  destruct (chainIdMatch (path r)), (versionsMatch (path r)),
    (artistIdMatch (path r)), (inspIdMatch (path r)); reflexivity.
Qed.

Lemma get_not_found (r : Request) (w : World S) :
  startsWith (path r) "/api/" = true -> method r = "GET" ->
  path r <> "/api/chains" -> path r <> "/api/artists" ->
  path r <> "/api/inspirations" ->
  fetch env r inv w = ((error "Not Found" 404), w).
Proof.
  intros Hapi Hm Hc Ha Hi. apply String.eqb_neq in Hc, Ha, Hi.
  rewrite fetch_api by (rewrite ?Hm; assumption || reflexivity).
  unfold api, admin_only, store_routes. rewrite Hm, Hc, Ha, Hi, bound, Hapi.
  cbn [String.eqb Ascii.eqb Bool.eqb orb andb].
  rewrite !andb_false_r. cbn [orb andb].
  destruct (String.eqb (path r) "/api/verify-key"),
    (String.eqb (path r) "/api/generate"); cbn [andb];
  destruct (chainIdMatch (path r)), (versionsMatch (path r)),
    (artistIdMatch (path r)), (inspIdMatch (path r)); reflexivity.
Qed.

End FallbackLemmas.

Section RemovalLemmas.
Import Worker Sqlite Observe Behaviour.

Lemma has_id_inspiration (i : string) (r : InspirationRow) :
  has_id i (inspiration_js r) = sql_eqb (i_id r) (SqlText i).
Proof.
  unfold has_id, inspiration_js. cbn [get lookup String.eqb Ascii.eqb Bool.eqb].
  destruct (i_id r); reflexivity.
Qed.

Lemma filter_map_inspirations (i : string) (l : list InspirationRow) :
  filter (has_id i) (map inspiration_js l)
  = map inspiration_js (filter (fun r => sql_eqb (i_id r) (SqlText i)) l).
Proof.
  induction l as [|r l IH]; cbn [map filter]; [reflexivity|].
  rewrite has_id_inspiration.
  destruct (sql_eqb (i_id r) (SqlText i)); cbn [map]; rewrite IH; reflexivity.
Qed.

Context {H : Host}.
Variable env : Env.
Hypothesis bound : DB env = D1Binding.

Lemma artist_deleted (inv1 inv2 : Invocation) (del listing : Request)
      (id : string) (w : World Db) (rows : list ArtistRow) :
  method del = "DELETE" -> artistIdMatch (path del) = Some id ->
  x_master_key del = Some (MASTER_KEY env) ->
  method listing = "GET" -> path listing = "/api/artists" ->
  artists (store w) = Some rows ->
  exists (answer : completion Response) (w' : World Db),
    serve env [(del, inv1); (listing, inv2)] w = ([success; answer], w')
    /\ filter (has_id id) (items_of answer) = []
    /\ forall r, In r rows -> sql_eqb (a_id r) (SqlText id) = false ->
                 In (artist_js r) (items_of answer).
Proof.
  intros Hm Hp Hk Hm2 Hp2 Hrows. cbn [serve].
  rewrite (route_delete_artist env inv1 bound del id Hm Hp Hk).
  rewrite (route_list_artists env inv2 bound listing Hm2 Hp2).
  unfold handled, delete_artist, list_artists, bind, try_catch, lift, ret, query.
  cbn [store log run sqlite sqlite_run].
  unfold delete_from_artists. rewrite Hrows. cbn [store log].
  unfold select_artists. cbn [artists with_artists].
  eexists. eexists. split; [reflexivity|]. cbn [items_of json body]. split.
  - rewrite filter_map_artists, filter_sort_few;
      rewrite (filter_filter_neg (fun r => sql_eqb (a_id r) (SqlText id)));
      [reflexivity|cbn; lia].
  - intros r Hin Hne. apply in_map. apply in_sort_by. apply filter_In.
    split; [exact Hin|]. rewrite Hne. reflexivity.
Qed.

Lemma inspiration_deleted (inv1 inv2 : Invocation) (del listing : Request)
      (id : string) (w : World Db) (rows : list InspirationRow) :
  method del = "DELETE" -> inspIdMatch (path del) = Some id ->
  x_master_key del = Some (MASTER_KEY env) ->
  method listing = "GET" -> path listing = "/api/inspirations" ->
  inspirations (store w) = Some rows ->
  exists (answer : completion Response) (w' : World Db),
    serve env [(del, inv1); (listing, inv2)] w = ([success; answer], w')
    /\ filter (has_id id) (items_of answer) = []
    /\ forall r, In r rows -> sql_eqb (i_id r) (SqlText id) = false ->
                 In (inspiration_js r) (items_of answer).
Proof.
  intros Hm Hp Hk Hm2 Hp2 Hrows. cbn [serve].
  rewrite (route_delete_inspiration env inv1 bound del id Hm Hp Hk).
  rewrite (route_list_inspirations env inv2 bound listing Hm2 Hp2).
  unfold handled, delete_inspiration, list_inspirations, bind, try_catch, lift,
    ret, query.
  cbn [store log run sqlite sqlite_run].
  unfold delete_from_inspirations. rewrite Hrows. cbn [store log].
  unfold select_inspirations. cbn [inspirations with_inspirations].
  eexists. eexists. split; [reflexivity|]. cbn [items_of json body]. split.
  - rewrite filter_map_inspirations, filter_sort_few;
      rewrite (filter_filter_neg (fun r => sql_eqb (i_id r) (SqlText id)));
      [reflexivity|cbn; lia].
  - intros r Hin Hne. apply in_map. apply in_sort_by. apply filter_In.
    split; [exact Hin|]. rewrite Hne. reflexivity.
Qed.

End RemovalLemmas.

Section LeftoverTheorems.
Import Worker Sqlite Observe Behaviour Fixture.

(** X16. The four path patterns capture exactly one segment: a path matches
    [/^\/api\/chains\/([^\/]+)$/] with capture [id] exactly when it is
    "/api/chains/" followed by [id], [id] being non-empty and without a slash,
    and likewise for the versions pattern (with "/versions" after the
    segment), the artists pattern and the inspirations pattern. *)
Theorem path_captures :
  forall p id : string,
    (chainIdMatch p = Some id <-> p = ("/api/chains/" ++ id)%string /\ segment id)
    /\ (versionsMatch p = Some id
        <-> p = ("/api/chains/" ++ id ++ "/versions")%string /\ segment id)
    /\ (artistIdMatch p = Some id
        <-> p = ("/api/artists/" ++ id)%string /\ segment id)
    /\ (inspIdMatch p = Some id
        <-> p = ("/api/inspirations/" ++ id)%string /\ segment id).
Proof.
  intros p id.
  unfold chainIdMatch, versionsMatch, artistIdMatch, inspIdMatch.
  assert (He : forall s, (s ++ "")%string = s).
  { induction s as [|c s IH]; cbn [String.append]; [reflexivity|].
    rewrite IH. reflexivity. }
  pose proof (fun pre => match_segment_iff pre "" p id (or_introl eq_refl)) as Hend.
  rewrite He in Hend.
  split; [apply Hend|]. split; [|split; apply Hend].
  apply match_segment_iff. right. eexists. reflexivity.
Qed.

(** X17. What is left over is "Not Found": behind a bound database, a
    request under /api/ whose method is none of GET, POST, PUT, DELETE and
    OPTIONS, and a GET of any path other than the three listings (a single
    chain, artist or inspiration cannot be read), is answered 404 with
    [{error: "Not Found"}]; no statement is run and nothing is sent. *)
Theorem leftover_is_not_found :
  forall (S : Type) (D : D1Database S) (H : Host) (env : Env) (inv : Invocation)
         (r : Request) (w : World S),
    DB env = D1Binding ->
    startsWith (path r) "/api/" = true ->
    (method r <> "GET" /\ method r <> "POST" /\ method r <> "PUT"
     /\ method r <> "DELETE" /\ method r <> "OPTIONS")
    \/ (method r = "GET" /\ path r <> "/api/chains" /\ path r <> "/api/artists"
        /\ path r <> "/api/inspirations") ->
    fetch env r inv w = ((error "Not Found" 404), w).
Proof.
  intros S D H env inv r w bound Hapi [(Hg & Hpo & Hpu & Hd & Ho)|(Hm & Hc & Ha & Hi)].
  - apply other_method_not_found; assumption.
  - apply get_not_found; assumption.
Qed.

Lemma leftover_is_not_found_witness :
  fetch env (request "PATCH" "/api/chains/1-0" (Some "master") VNull)
        (invocation 2) one_chain
  = ((error "Not Found" 404), one_chain)
  /\ fetch env (request "GET" "/api/chains/1-0" None VNull) (invocation 2) one_chain
     = ((error "Not Found" 404), one_chain).
Proof.
  split.
  - apply (leftover_is_not_found Db sqlite host env (invocation 2)
             (request "PATCH" "/api/chains/1-0" (Some "master") VNull) one_chain
             eq_refl eq_refl).
    left. repeat split; discriminate.
  - apply (leftover_is_not_found Db sqlite host env (invocation 2)
             (request "GET" "/api/chains/1-0" None VNull) one_chain
             eq_refl eq_refl).
    right. split; [reflexivity|]. repeat split; discriminate.
Defined.

(** X18. Deleting an artist or an inspiration removes that one row: after
    an authorised DELETE /api/artists/{id} on a store that has the table,
    the listing holds no object of that id and still holds every artist of
    another id; the same for /api/inspirations/{id}. Both deletes answer
    success whether or not a row of that id existed. *)
Theorem delete_then_list :
  forall (H : Host) (env : Env) (inv1 inv2 : Invocation) (del listing : Request)
         (id : string) (w : World Db),
    DB env = D1Binding ->
    method del = "DELETE" -> x_master_key del = Some (MASTER_KEY env) ->
    method listing = "GET" ->
    (forall rows : list ArtistRow,
        artistIdMatch (path del) = Some id -> path listing = "/api/artists" ->
        artists (store w) = Some rows ->
        exists (answer : completion Response) (w' : World Db),
          serve env [(del, inv1); (listing, inv2)] w = ([success; answer], w')
          /\ filter (has_id id) (items_of answer) = []
          /\ forall r : ArtistRow,
               In r rows -> sql_eqb (a_id r) (SqlText id) = false ->
               In (artist_js r) (items_of answer))
    /\ (forall rows : list InspirationRow,
           inspIdMatch (path del) = Some id -> path listing = "/api/inspirations" ->
           inspirations (store w) = Some rows ->
           exists (answer : completion Response) (w' : World Db),
             serve env [(del, inv1); (listing, inv2)] w
             = ([success; answer], w')
             /\ filter (has_id id) (items_of answer) = []
             /\ forall r : InspirationRow,
                  In r rows -> sql_eqb (i_id r) (SqlText id) = false ->
                  In (inspiration_js r) (items_of answer)).
Proof.
  intros H env inv1 inv2 del listing id w bound Hm Hk Hm2. split.
  - intros rows Hp Hp2 Hrows.
    apply (artist_deleted env bound inv1 inv2 del listing id w rows); assumption.
  - intros rows Hp Hp2 Hrows.
    apply (inspiration_deleted env bound inv1 inv2 del listing id w rows);
      assumption.
Qed.

Lemma delete_then_list_witness :
  (exists (answer : completion Response) (w' : World Db),
      serve env [(request "DELETE" "/api/artists/a1" (Some "master") VNull,
                  invocation 1);
                 (request "GET" "/api/artists" None VNull, invocation 2)]
            gallery
      = ([success; answer], w')
      /\ filter (has_id "a1") (items_of answer) = [])
  /\ (exists (answer : completion Response) (w' : World Db),
         serve env [(request "DELETE" "/api/inspirations/zz" (Some "master") VNull,
                     invocation 1);
                    (request "GET" "/api/inspirations" None VNull, invocation 2)]
               gallery
         = ([success; answer], w')
         /\ filter (has_id "zz") (items_of answer) = []).
Proof.
  split.
  - destruct (proj1 (delete_then_list host env (invocation 1) (invocation 2)
                       (request "DELETE" "/api/artists/a1" (Some "master") VNull)
                       (request "GET" "/api/artists" None VNull)
                       "a1" gallery eq_refl eq_refl eq_refl eq_refl)
                    _ eq_refl eq_refl eq_refl)
      as (answer & w' & Hs & Hgone & _).
    exists answer, w'. split; [exact Hs|exact Hgone].
  - destruct (proj2 (delete_then_list host env (invocation 1) (invocation 2)
                       (request "DELETE" "/api/inspirations/zz" (Some "master") VNull)
                       (request "GET" "/api/inspirations" None VNull)
                       "zz" gallery eq_refl eq_refl eq_refl eq_refl)
                    _ eq_refl eq_refl eq_refl)
      as (answer & w' & Hs & Hgone & _).
    exists answer, w'. split; [exact Hs|exact Hgone].
Defined.

End LeftoverTheorems.

(* ================================================================== *)
(** * Properties of the worker: the shared secret and the provider's errors *)
(* ================================================================== *)

Section AccessLemmas.
Import Worker Observe Behaviour.
Context {S : Type} {D : D1Database S} {H : Host}.
Variables (env : Env) (inv : Invocation).

Lemma new_Response_status (b : Body) (hs : list (string * string)) (st : Z)
      (r : Response) :
  new_Response b hs st = Normal r ->
  status r = st /\ headers r = hs /\ body r = b.
Proof.
  unfold new_Response.
  destruct ((st <? 200) || (599 <? st)); [discriminate|].
  destruct (has_body b && null_body_status st); [discriminate|].
  intros E. inversion E. repeat split.
Qed.

Lemma an_lift (P : Response -> Prop) (c : completion Response) :
  (forall r, c = Normal r -> P r) -> answers (S := S) P (lift c).
Proof. intros Hc w r w' E. inversion E. subst. apply Hc. reflexivity. Qed.

Lemma an_throw (P : Response -> Prop) (e : string) : answers (S := S) P (throw e).
Proof. intros w r w' E. discriminate E. Qed.

Lemma an_bind {A : Type} (P : Response -> Prop) (m : M S A) (k : A -> M S Response) :
  (forall a, answers P (k a)) -> answers P (bind m k).
Proof.
  intros Hk w r w' E. unfold bind in E.
  destruct (m w) as [[a|e] w1]; [|discriminate E].
  exact (Hk a w1 r w' E).
Qed.

Lemma constant_status (b : Body) (hs : list (string * string)) (st : Z) (r : Response) :
  st <> 401 -> new_Response b hs st = Normal r -> not_refused r.
Proof.
  intros Hst E. apply new_Response_status in E. destruct E as [E _].
  unfold not_refused. rewrite E. exact Hst.
Qed.

Ltac an :=
  repeat first
    [ apply an_bind; intros
    | apply an_lift; intros ?r; unfold success, json, error;
      apply constant_status; discriminate
    | apply an_throw
    | match goal with
      | |- answers _ (if ?b then _ else _) => destruct b
      | |- answers _ (match ?x with _ => _ end) => destruct x
      end ].

Lemma store_routes_not_refused (r : Request) :
  startsWith (path r) "/api/" = true ->
  answers not_refused (store_routes env r inv).
Proof.
  intros Hapi. unfold store_routes. rewrite Hapi.
  unfold list_chains, create_chain, update_chain, delete_chain, create_version,
    list_artists, upsert_artist, delete_artist, list_inspirations,
    upsert_inspiration, delete_inspiration.
  an.
Qed.

Lemma guarded_not_open (r : Request) (p : string) :
  guarded r -> startsWith p "/api/artists" = false ->
  startsWith p "/api/inspirations" = false ->
  String.eqb (path r) p && String.eqb (method r) "POST" = false.
Proof.
  intros Hg Ha Hi.
  destruct (String.eqb (path r) p) eqn:E1; [|reflexivity].
  destruct (String.eqb (method r) "POST") eqn:E2; [|reflexivity].
  apply String.eqb_eq in E1, E2. exfalso.
  destruct Hg as [Hg|[Hg|[_ [Hg|Hg]]]].
  - rewrite E2 in Hg. discriminate Hg.
  - rewrite E2 in Hg. discriminate Hg.
  - rewrite E1, Ha in Hg. discriminate Hg.
  - rewrite E1, Hi in Hg. discriminate Hg.
Qed.

Lemma guarded_not_options (r : Request) :
  guarded r -> String.eqb (method r) "OPTIONS" = false.
Proof.
  intros Hg. destruct (String.eqb (method r) "OPTIONS") eqn:E; [|reflexivity].
  apply String.eqb_eq in E.
  destruct Hg as [Hg|[Hg|[Hg _]]]; rewrite E in Hg; discriminate Hg.
Qed.

Lemma refused (r : Request) (w : World S) :
  startsWith (path r) "/api/" = true -> guarded r ->
  x_master_key r <> Some (MASTER_KEY env) ->
  exists answer : Response,
    fetch env r inv w = (Normal answer, w)
    /\ status answer = 401
    /\ body answer = JsonBody (VObj [("error", VStr "Unauthorized")]).
Proof.
  intros Hapi Hg Hk.
  rewrite (fetch_api env inv r Hapi (guarded_not_options r Hg)).
  apply admin_only_guarded in Hg. apply wrong_key_spec in Hk.
  unfold try_catch, api. rewrite Hg, Hk.
  eexists. split; [reflexivity|]. split; reflexivity.
Qed.

Lemma passes_with_key (r : Request) (w : World S) (answer : Response) (w' : World S) :
  startsWith (path r) "/api/" = true -> guarded r ->
  x_master_key r = Some (MASTER_KEY env) ->
  fetch env r inv w = (Normal answer, w') -> not_refused answer.
Proof.
  intros Hapi Hg Hk.
  rewrite (fetch_api env inv r Hapi (guarded_not_options r Hg)).
  unfold try_catch.
  destruct (api env r inv w) as [[r0|e] w1] eqn:E.
  - intros E'. inversion E'; subst. revert E. unfold api.
    rewrite (authorized_key env r Hk), andb_false_r.
    rewrite (guarded_not_open r "/api/verify-key" Hg eq_refl eq_refl).
    rewrite (guarded_not_open r "/api/generate" Hg eq_refl eq_refl).
    destruct (DB env) as [|s|].
    + intros E. inversion E. discriminate.
    + destruct (negb (truthy (VStr s))); intros E; inversion E; discriminate.
    + apply store_routes_not_refused. exact Hapi.
  - intros E'. inversion E'. discriminate.
Qed.

Lemma route_verify_key (r : Request) :
  method r = "POST" -> path r = "/api/verify-key" ->
  fetch env r inv = handled (verify_key env r).
Proof.
  intros Hm Hp. rewrite fetch_api by (rewrite ?Hm, ?Hp; reflexivity).
  unfold api, admin_only. rewrite Hm, Hp. reflexivity.
Qed.

Lemma route_generate (r : Request) :
  method r = "POST" -> path r = "/api/generate" ->
  fetch env r inv = handled (generate env r).
Proof.
  intros Hm Hp. rewrite fetch_api by (rewrite ?Hm, ?Hp; reflexivity).
  unfold api, admin_only. rewrite Hm, Hp. reflexivity.
Qed.

Lemma generate_calls_provider (r : Request) (w : World S) (b : jsval) (up : Upstream) :
  method r = "POST" -> path r = "/api/generate" ->
  json_body r = Normal b ->
  global_fetch provider_url (provider_headers env) (JSON_stringify b) = Normal up ->
  exists answer : Response,
    fetch env r inv w
    = (Normal answer,
       {| store := store w;
          log := log w ++ [Outgoing provider_url (provider_headers env)
                                    (JSON_stringify b)] |})
    /\ (ok up = true ->
        status answer = 200 /\ body answer = BlobBody (up_blob up)).
Proof.
  intros Hm Hp Hb Hf. rewrite (route_generate r Hm Hp).
  unfold handled, generate, try_catch, bind, lift, outgoing. rewrite Hb.
  fold provider_url. fold (provider_headers env). rewrite Hf.
  destruct (ok up); cbn [negb].
  - eexists. split; [reflexivity|]. intros _. split; reflexivity.
  - destruct (error ("NAI API Error: " ++ up_text up) (up_status up)) as [x|e].
    + eexists. split; [reflexivity|]. discriminate.
    + eexists. split; [reflexivity|]. discriminate.
Qed.

Lemma error_range (msg : string) (st : Z) :
  st < 200 \/ 599 < st -> error msg st = Throw status_out_of_range.
Proof.
  intros Hst. unfold error, new_Response.
  assert (E : (st <? 200) || (599 <? st) = true).
  { apply orb_true_iff. destruct Hst; [left|right]; apply Z.ltb_lt; assumption. }
  rewrite E. reflexivity.
Qed.

Lemma new_Response_accepts (b : Body) (hs : list (string * string)) (st : Z) :
  200 <= st <= 599 -> null_body_status st = false ->
  new_Response b hs st = Normal {| status := st; headers := hs; body := b |}.
Proof.
  intros [Hlo Hhi] Hnull. unfold new_Response.
  assert (E : (st <? 200) || (599 <? st) = false).
  { apply orb_false_iff. split; apply Z.ltb_ge; lia. }
  rewrite E, Hnull, andb_false_r. reflexivity.
Qed.

Lemma error_valid (msg : string) (st : Z) :
  300 <= st <= 599 -> st <> 304 ->
  error msg st
  = Normal {| status := st;
              headers := ("Content-Type", "application/json") :: corsHeaders;
              body := JsonBody (VObj [("error", VStr msg)]) |}.
Proof.
  intros [Hlo Hhi] Hne. unfold error. apply new_Response_accepts; [lia|].
  unfold null_body_status.
  assert (E1 : (st =? 101) = false) by (apply Z.eqb_neq; lia).
  assert (E2 : (st =? 204) = false) by (apply Z.eqb_neq; lia).
  assert (E3 : (st =? 205) = false) by (apply Z.eqb_neq; lia).
  assert (E4 : (st =? 304) = false) by (apply Z.eqb_neq; lia).
  rewrite E1, E2, E3, E4. reflexivity.
Qed.

Lemma generate_error (r : Request) (w : World S) (b : jsval) (up : Upstream) :
  method r = "POST" -> path r = "/api/generate" ->
  json_body r = Normal b ->
  global_fetch provider_url (provider_headers env) (JSON_stringify b) = Normal up ->
  ok up = false ->
  exists answer : Response,
    fetch env r inv w
    = (Normal answer,
       {| store := store w;
          log := log w ++ [Outgoing provider_url (provider_headers env)
                                    (JSON_stringify b)] |})
    /\ headers answer = ("Content-Type", "application/json") :: corsHeaders
    /\ (300 <= up_status up <= 599 -> up_status up <> 304 ->
        status answer = up_status up
        /\ body answer
           = JsonBody (VObj [("error", VStr ("NAI API Error: " ++ up_text up))]))
    /\ (up_status up < 200 \/ 599 < up_status up ->
        status answer = 500
        /\ body answer = JsonBody (VObj [("error", VStr status_out_of_range)]))
    /\ (up_status up = 304 ->
        status answer = 500
        /\ body answer = JsonBody (VObj [("error", VStr null_body_with_body)])).
Proof.
  intros Hm Hp Hb Hf Hok. rewrite (route_generate r Hm Hp).
  unfold handled, generate, try_catch, bind, lift, outgoing. rewrite Hb.
  fold provider_url. fold (provider_headers env). rewrite Hf, Hok. cbn [negb].
  destruct (Z.eq_dec (up_status up) 304) as [E304|N304].
  - rewrite E304. eexists. split; [reflexivity|]. split; [reflexivity|].
    split; [intros _ Hc; contradiction Hc; reflexivity|].
    split; [intros [Hc|Hc]; lia|]. intros _. split; reflexivity.
  - destruct (Z_lt_dec (up_status up) 200) as [Hlt|Hge];
      [|destruct (Z_lt_dec 599 (up_status up)) as [Hgt|Hle]].
    + rewrite (error_range _ _ (or_introl Hlt)).
      eexists. split; [reflexivity|]. split; [reflexivity|].
      split; [intros [Hc _]; lia|]. split; [intros _; split; reflexivity|].
      intros Hc. contradiction.
    + rewrite (error_range _ _ (or_intror Hgt)).
      eexists. split; [reflexivity|]. split; [reflexivity|].
      split; [intros [_ Hc]; lia|]. split; [intros _; split; reflexivity|].
      intros Hc. contradiction.
    + assert (Hr : 300 <= up_status up <= 599).
      { unfold ok in Hok. apply andb_false_iff in Hok.
        destruct Hok as [Hok|Hok]; apply Z.leb_gt in Hok; lia. }
      rewrite (error_valid _ _ Hr N304).
      eexists. split; [reflexivity|]. split; [reflexivity|].
      split; [intros _ _; split; reflexivity|].
      split; [intros [Hc|Hc]; lia|]. intros Hc. contradiction.
Qed.

End AccessLemmas.

Section AccessTheorems.
Import Worker Sqlite Observe Behaviour Fixture.

(** C10. Among API requests (paths under /api/; anything else is served as
    a static asset before the check), the handler compares the X-Master-Key
    header with the secret exactly for PUT and DELETE and for POST on paths
    that start with /api/artists or /api/inspirations. Such a request is
    answered 401 "Unauthorized", with nothing run, when the header is missing
    or different, and is never answered 401 when the header is the secret.
    For every other request the answer and the effects do not depend on the
    header. POST /api/verify-key, POST /api/generate, POST /api/chains and
    POST /api/chains/{id}/versions are among these and are dispatched to
    their handlers (the last two behind a bound database). So a caller that
    sends no header creates a chain with its first version, adds a version
    to a chain, and has the provider called with the server's key. *)
Theorem shared_secret_scope :
  forall (H : Host) (env : Env) (inv : Invocation),
    (forall (S : Type) (D : D1Database S) (request : Request) (w : World S),
        startsWith (path request) "/api/" = true ->
        (guarded request ->
         (x_master_key request <> Some (MASTER_KEY env) ->
          exists answer : Response,
            fetch env request inv w = (Normal answer, w)
            /\ status answer = 401
            /\ body answer = JsonBody (VObj [("error", VStr "Unauthorized")]))
         /\ (x_master_key request = Some (MASTER_KEY env) ->
             forall (answer : Response) (w' : World S),
               fetch env request inv w = (Normal answer, w') ->
               status answer <> 401))
        /\ (~ guarded request ->
            forall key : option string,
              fetch env (with_key request key) inv w = fetch env request inv w)
        /\ (method request = "POST" ->
            (path request = "/api/verify-key" ->
             ~ guarded request
             /\ fetch env request inv w = handled (verify_key env request) w)
            /\ (path request = "/api/generate" ->
                ~ guarded request
                /\ fetch env request inv w = handled (generate env request) w)
            /\ (path request = "/api/chains" ->
                ~ guarded request
                /\ (DB env = D1Binding ->
                    fetch env request inv w
                    = handled (create_chain request inv) w))
            /\ (forall id : string,
                   versionsMatch (path request) = Some id ->
                   ~ guarded request
                   /\ (DB env = D1Binding ->
                       fetch env request inv w
                       = handled (create_version request inv id) w))))
    /\ (forall (request : Request) (w : World Db),
           x_master_key request = None ->
           DB env = D1Binding ->
           (forall (name description : string)
                   (cs : list ChainRow) (vs : list VersionRow),
               chain_request name description request ->
               chains (store w) = Some cs -> versions (store w) = Some vs ->
               ~ In (randomUUID inv 0) (map c_id cs) ->
               ~ In (randomUUID inv 1) (map v_id vs) ->
               exists (answer : Response) (w' : World Db),
                 fetch env request inv w = (Normal answer, w')
                 /\ status answer = 200
                 /\ chains (store w')
                    = Some (cs ++ [new_chain inv (SqlText name) (SqlText description)])
                 /\ versions (store w') = Some (vs ++ [seed_version inv]))
           /\ (forall (id : string) (cs : list ChainRow) (vs : list VersionRow),
                  version_request id request ->
                  chains (store w) = Some cs -> versions (store w) = Some vs ->
                  In id (map c_id cs) ->
                  ~ In (randomUUID inv 0) (map v_id vs) ->
                  exists (answer : Response) (w' : World Db),
                    fetch env request inv w = (Normal answer, w')
                    /\ status answer = 200
                    /\ versions (store w')
                       = Some (vs ++ [version_row id (next_version id vs)
                                        (body_of request) inv]))
           /\ (forall (b : jsval) (up : Upstream),
                  method request = "POST" -> path request = "/api/generate" ->
                  json_body request = Normal b ->
                  global_fetch provider_url (provider_headers env)
                               (JSON_stringify b) = Normal up ->
                  exists answer : Response,
                    fetch env request inv w
                    = (Normal answer,
                       {| store := store w;
                          log := log w ++ [Outgoing provider_url (provider_headers env)
                                                    (JSON_stringify b)] |})
                    /\ (ok up = true ->
                        status answer = 200
                        /\ body answer = BlobBody (up_blob up)))).
Proof.
  intros H env inv. split.
  - intros S D request w Hapi. split; [|split].
    + intros Hg. split.
      * intros Hk. exact (refused env inv request w Hapi Hg Hk).
      * intros Hk answer w' Hf.
        exact (passes_with_key env inv request w answer w' Hapi Hg Hk Hf).
    + intros Hg key. apply fetch_header_irrelevant; [exact Hapi|].
      destruct (admin_only request) eqn:E; [|reflexivity].
      apply admin_only_guarded in E. contradiction.
    + intros Hm.
      assert (Hfree : forall p : string,
                 path request = p ->
                 startsWith p "/api/artists" = false ->
                 startsWith p "/api/inspirations" = false ->
                 ~ guarded request).
      { intros p Hp Ha Hi [Hg|[Hg|[_ [Hg|Hg]]]].
        - rewrite Hm in Hg. discriminate Hg.
        - rewrite Hm in Hg. discriminate Hg.
        - rewrite Hp, Ha in Hg. discriminate Hg.
        - rewrite Hp, Hi in Hg. discriminate Hg. }
      split; [|split; [|split]].
      * intros Hp. split; [exact (Hfree _ Hp eq_refl eq_refl)|].
        rewrite (route_verify_key env inv request Hm Hp). reflexivity.
      * intros Hp. split; [exact (Hfree _ Hp eq_refl eq_refl)|].
        rewrite (route_generate env inv request Hm Hp). reflexivity.
      * intros Hp. split; [exact (Hfree _ Hp eq_refl eq_refl)|].
        intros bound. rewrite (route_create_chain env inv bound request Hm Hp).
        reflexivity.
      * intros id Hp. split.
        -- intros Hg. apply admin_only_guarded in Hg.
           rewrite (versions_route_unguarded request Hm) in Hg; [discriminate Hg|].
           rewrite Hp. discriminate.
        -- intros bound.
           rewrite (route_create_version env inv bound request id Hm Hp).
           reflexivity.
  - intros request w Hnone bound. split; [|split].
    + intros name description cs vs Hr Hcs Hvs Hc Hv.
      destruct (create_chain_rows env bound inv request name description w cs vs
                  Hr Hcs Hvs Hc Hv) as (w' & Hf & Hcs' & Hvs' & _).
      eexists. exists w'. split; [exact Hf|]. split; [reflexivity|].
      split; [exact Hcs'|exact Hvs'].
    + intros id cs vs Hr Hcs Hvs Hin Hfresh.
      eexists. eexists.
      split; [exact (create_version_step env bound request inv id w cs vs
                       Hr Hcs Hvs Hin Hfresh)|].
      split; reflexivity.
    + intros b up Hm Hp Hb Hf.
      exact (generate_calls_provider env inv request w b up Hm Hp Hb Hf).
Qed.

Lemma shared_secret_scope_witness :
  (exists answer : Response,
      fetch env (request "DELETE" "/api/chains/1-0" (Some "guess") VNull)
            (invocation 2) one_chain
      = (Normal answer, one_chain)
      /\ status answer = 401)
  /\ (exists (answer : Response) (w' : World Db),
         fetch env (request "POST" "/api/chains" None
                      (VObj [("name", VStr "Foo"); ("description", VStr "bar")]))
               (invocation 2) one_chain
         = (Normal answer, w')
         /\ status answer = 200
         /\ option_map (map c_id) (chains (store w')) = Some ["1-0"; "2-0"]).
Proof.
  pose proof (shared_secret_scope host env (invocation 2)) as [Hcheck Hopen].
  split.
  - destruct (Hcheck Db sqlite
                (request "DELETE" "/api/chains/1-0" (Some "guess") VNull)
                one_chain eq_refl) as [Hguarded _].
    destruct (proj1 (Hguarded (or_intror (or_introl eq_refl)))
                ltac:(discriminate)) as (answer & Hf & Hst & _).
    exists answer. split; [exact Hf|exact Hst].
  - destruct (Hopen (request "POST" "/api/chains" None
                       (VObj [("name", VStr "Foo"); ("description", VStr "bar")]))
                one_chain eq_refl eq_refl) as [Hchain _].
    destruct (Hchain "Foo" "bar" [foo_chain] [foo_v1]
                (conj eq_refl (conj eq_refl
                   (ex_intro _ (VObj [("name", VStr "Foo"); ("description", VStr "bar")])
                      (conj eq_refl (conj eq_refl eq_refl)))))
                eq_refl eq_refl
                ltac:(cbn; intuition discriminate)
                ltac:(cbn; intuition discriminate))
      as (answer & w' & Hf & Hst & Hcs & _).
    exists answer, w'. split; [exact Hf|]. split; [exact Hst|].
    rewrite Hcs. reflexivity.
Defined.

(** C8. POST /api/generate when the provider answers with a status outside
    200..299: the provider was called once and nothing else happened. For a
    status from 300 to 599 other than 304 the worker answers with that
    status and the message "NAI API Error: " followed by the provider's body
    text as received. For 304, and for a status below 200 or above 599, the
    Response constructor refuses the status: the worker answers 500 with the
    constructor's message, and neither the provider's status nor its text
    reaches the caller. *)
Theorem provider_error_passthrough :
  forall (S : Type) (D : D1Database S) (H : Host) (env : Env) (inv : Invocation)
         (request : Request) (w : World S) (b : jsval) (up : Upstream),
    method request = "POST" -> path request = "/api/generate" ->
    json_body request = Normal b ->
    global_fetch provider_url (provider_headers env) (JSON_stringify b) = Normal up ->
    ok up = false ->
    exists answer : Response,
      fetch env request inv w
      = (Normal answer,
         {| store := store w;
            log := log w ++ [Outgoing provider_url (provider_headers env)
                                      (JSON_stringify b)] |})
      /\ headers answer = ("Content-Type", "application/json") :: corsHeaders
      /\ (300 <= up_status up <= 599 -> up_status up <> 304 ->
          status answer = up_status up
          /\ body answer
             = JsonBody (VObj [("error", VStr ("NAI API Error: " ++ up_text up))]))
      /\ (up_status up < 200 \/ 599 < up_status up ->
          status answer = 500
          /\ body answer = JsonBody (VObj [("error", VStr status_out_of_range)]))
      /\ (up_status up = 304 ->
          status answer = 500
          /\ body answer = JsonBody (VObj [("error", VStr null_body_with_body)])).
Proof.
  intros S D H env inv request w b up Hm Hp Hb Hf Hok.
  exact (generate_error env inv request w b up Hm Hp Hb Hf Hok).
Qed.

Lemma provider_error_passthrough_witness :
  (exists answer : Response,
      fetch env (request "POST" "/api/generate" None (VObj [])) (invocation 1) ready
      = (Normal answer,
         {| store := provisioned;
            log := [Outgoing provider_url (provider_headers env) "{}"] |})
      /\ status answer = 429
      /\ body answer
         = JsonBody (VObj [("error",
                            VStr "NAI API Error: Concurrent generation is locked")]))
  /\ (exists answer : Response,
         @fetch Db sqlite stale env (request "POST" "/api/generate" None (VObj []))
                (invocation 1) ready
         = (Normal answer,
            {| store := provisioned;
               log := [Outgoing provider_url (provider_headers env) "{}"] |})
         /\ status answer = 500
         /\ body answer = JsonBody (VObj [("error", VStr null_body_with_body)])).
Proof.
  split.
  - destruct (provider_error_passthrough Db sqlite host env (invocation 1)
                (request "POST" "/api/generate" None (VObj [])) ready (VObj [])
                {| up_status := 429; up_text := "Concurrent generation is locked";
                   up_blob := "" |}
                eq_refl eq_refl eq_refl eq_refl eq_refl)
      as (answer & Hf & _ & Hpass & _).
    destruct (Hpass ltac:(cbn; lia) ltac:(cbn; lia)) as [Hst Hb].
    exists answer. split; [exact Hf|]. split; [exact Hst|exact Hb].
  - destruct (provider_error_passthrough Db sqlite stale env (invocation 1)
                (request "POST" "/api/generate" None (VObj [])) ready (VObj [])
                {| up_status := 304; up_text := ""; up_blob := "" |}
                eq_refl eq_refl eq_refl eq_refl eq_refl)
      as (answer & Hf & _ & _ & _ & Hstale).
    destruct (Hstale eq_refl) as [Hst Hb].
    exists answer. split; [exact Hf|]. split; [exact Hst|exact Hb].
Defined.

End AccessTheorems.

(* ================================================================== *)
(** * Further properties of the worker: provisioning on D1 *)
(* ================================================================== *)

Section ProvisioningLemmas.
Import Worker Sqlite Observe Behaviour.
Context {H : Host}.
Variable env : Env.
Hypothesis bound : DB env = D1Binding.

Lemma list_chains_unprovisioned (inv : Invocation) (r : Request) (w : World Db) :
  method r = "GET" -> path r = "/api/chains" -> chains (store w) = None ->
  fetch env r inv w
  = (error init_error 500, after w (store w) [SelectChains; ExecInit]).
Proof.
  intros Hm Hp Hnone. rewrite (route_list_chains env inv bound r Hm Hp).
  unfold handled, list_chains, bind, try_catch, lift, ret, throw, query, after.
  cbn [run sqlite sqlite_run store log]. unfold select_chains. rewrite Hnone.
  change (missing_relation (no_such_table "chains")) with true.
  cbn [store log]. rewrite exec_init_throws. cbn [store log map].
  rewrite <- app_assoc. reflexivity.
Qed.

Lemma list_artists_unprovisioned (inv : Invocation) (r : Request) (w : World Db) :
  method r = "GET" -> path r = "/api/artists" -> artists (store w) = None ->
  fetch env r inv w
  = (error init_error 500, after w (store w) [SelectArtists; ExecInit]).
Proof.
  intros Hm Hp Hnone. rewrite (route_list_artists env inv bound r Hm Hp).
  unfold handled, list_artists, bind, try_catch, lift, ret, throw, query, after.
  cbn [run sqlite sqlite_run store log]. unfold select_artists. rewrite Hnone.
  change (missing_table (no_such_table "artists")) with true.
  cbn [store log]. rewrite exec_init_throws. cbn [store log map].
  rewrite <- app_assoc. reflexivity.
Qed.

Lemma list_inspirations_unprovisioned (inv : Invocation) (r : Request)
      (w : World Db) :
  method r = "GET" -> path r = "/api/inspirations" ->
  inspirations (store w) = None ->
  fetch env r inv w
  = (error init_error 500, after w (store w) [SelectInspirations; ExecInit]).
Proof.
  intros Hm Hp Hnone. rewrite (route_list_inspirations env inv bound r Hm Hp).
  unfold handled, list_inspirations, bind, try_catch, lift, ret, throw, query,
    after.
  cbn [run sqlite sqlite_run store log]. unfold select_inspirations.
  rewrite Hnone.
  change (missing_table (no_such_table "inspirations")) with true.
  cbn [store log]. rewrite exec_init_throws. cbn [store log map].
  rewrite <- app_assoc. reflexivity.
Qed.

End ProvisioningLemmas.

Section ProvisioningTheorems.
Import Worker Sqlite Observe Behaviour Fixture.

(** X19. Provisioning on D1. [db.exec] runs its argument line by line, and
    the first line of [INIT_SQL] opens a parenthesis that the line does not
    close: the call throws and creates nothing. So a listing whose table is
    missing runs its SELECT, runs the schema statements once, and is
    answered 500 with the store as it was: the empty list the artist and
    inspiration listings prepare is never sent. *)
Theorem provisioning_fails :
  forall (H : Host) (env : Env) (inv : Invocation) (r : Request) (w : World Db),
    DB env = D1Binding ->
    method r = "GET" ->
    (path r = "/api/chains" /\ chains (store w) = None)
    \/ (path r = "/api/artists" /\ artists (store w) = None)
    \/ (path r = "/api/inspirations" /\ inspirations (store w) = None) ->
    unclosed (hd "" (lines (trim INIT_SQL))) = true
    /\ exists (answer : Response) (w' : World Db) (primary : Stmt),
         fetch env r inv w = (Normal answer, w')
         /\ status answer = 500
         /\ store w' = store w
         /\ log w' = log w ++ [Query primary; Query ExecInit].
Proof.
  intros H env inv r w bound Hm Hcase. split; [reflexivity|].
  destruct Hcase as [[Hp Hnone]|[[Hp Hnone]|[Hp Hnone]]].
  - rewrite (list_chains_unprovisioned env bound inv r w Hm Hp Hnone).
    eexists. eexists. exists SelectChains. repeat split.
  - rewrite (list_artists_unprovisioned env bound inv r w Hm Hp Hnone).
    eexists. eexists. exists SelectArtists. repeat split.
  - rewrite (list_inspirations_unprovisioned env bound inv r w Hm Hp Hnone).
    eexists. eexists. exists SelectInspirations. repeat split.
Qed.

Lemma provisioning_fails_witness :
  exists (answer : Response) (w' : World Db),
    fetch env (request "GET" "/api/artists" None VNull) (invocation 1) fresh
    = (Normal answer, w')
    /\ status answer = 500
    /\ store w' = blank.
Proof.
  destruct (provisioning_fails host env (invocation 1)
              (request "GET" "/api/artists" None VNull) fresh
              eq_refl eq_refl (or_intror (or_introl (conj eq_refl eq_refl))))
    as (_ & answer & w' & primary & Hf & Hst & Hw & _).
  exists answer, w'. split; [exact Hf|]. split; [exact Hst|exact Hw].
Defined.

End ProvisioningTheorems.
